(** * Olist e-commerce dashboard: filters, aggregates and RFM segmentation

    A shallow embedding of [dashboard/dashboard.py].  Data frames are lists
    of rows in row order; a column holding a missing value (NaN, NaT) is an
    [option].  Money is kept in centavos and time in seconds, both in [Z].
    Sums of money are therefore exact here, where pandas adds float64
    numbers and rounds; the properties below are those that do not rest
    on that: they speak of which rows a sum is taken over, of counts, of
    bounds and of whole days, never of two sums over different groupings
    being equal.  The pandas operations the script calls ([merge],
    [groupby], [nunique], [rank], [qcut], [cut]) are written out in
    [Module Pandas], and [sort_values] with the NumPy sort under it in
    [Module NumPy] and [Module Sorting]. *)

From Stdlib Require Import List ZArith QArith Bool String Ascii Lia.
From Stdlib Require Import Permutation Sorting.Sorted.
Import ListNotations.
Open Scope Z_scope.

(* ================================================================== *)
(** * The pandas operations used by the script *)
(* ================================================================== *)

Module Pandas.

(** A pandas/NumPy float cell: a finite number, NaN or an infinity. *)
Inductive float : Type :=
| Fin (q : Q)
| NaN
| PosInf
| NegInf.

(** [a / b] on floats holding the integers [a] and [b]: division by zero
    does not raise, it gives NaN or a signed infinity. *)
Definition truediv (a b : Z) : float :=
  if b =? 0 then
    (if a =? 0 then NaN else if 0 <? a then PosInf else NegInf)
  else Fin (inject_Z a / inject_Z b)%Q.

Definition fmul (x : float) (k : Z) : float :=
  match x with
  | Fin q => Fin (q * inject_Z k)%Q
  | NaN => NaN
  | PosInf => if 0 <? k then PosInf else if k =? 0 then NaN else NegInf
  | NegInf => if 0 <? k then NegInf else if k =? 0 then NaN else PosInf
  end.

(** What a call can end in: a value, or the [ValueError] the script
    catches around [qcut]. *)
Inductive result (A : Type) : Type :=
| Ok (a : A)
| ValueError.
Arguments Ok {A} a.
Arguments ValueError {A}.

Definition bind {A B : Type} (r : result A) (k : A -> result B) : result B :=
  match r with
  | Ok a => k a
  | ValueError => ValueError
  end.

(** [try: body except ValueError: handler]. *)
Definition try_except {A : Type} (body : result A) (handler : result A)
  : result A :=
  match body with
  | Ok a => Ok a
  | ValueError => handler
  end.

Section Generic.
Context {A : Type}.
Variable eqb : A -> A -> bool.

Definition isin (x : A) (l : list A) : bool := existsb (eqb x) l.

(** [Series.unique()] / [algos.unique]: the distinct values in order of
    first appearance. *)
Fixpoint unique_acc (seen : list A) (l : list A) : list A :=
  match l with
  | [] => []
  | x :: tl =>
      if isin x seen then unique_acc seen tl
      else x :: unique_acc (x :: seen) tl
  end.

Definition unique (l : list A) : list A := unique_acc [] l.

(** [Series.nunique()]. *)
Definition nunique (l : list A) : nat := List.length (unique l).
End Generic.

(** [dropna] on a column. *)
Fixpoint dropna {A : Type} (l : list (option A)) : list A :=
  match l with
  | [] => []
  | Some x :: tl => x :: dropna tl
  | None :: tl => dropna tl
  end.

Definition opt_eqb (a : option string) (b : string) : bool :=
  match a with
  | Some x => String.eqb x b
  | None => false
  end.

(** [pd.merge(left, right, on=key, how='inner')]: every left row, in left
    order, paired with each right row of the same key, in right order. *)
Definition merge {L R : Type} (kl : L -> string) (kr : R -> string)
  (left : list L) (right : list R) : list (L * R) :=
  flat_map
    (fun l => map (pair l) (filter (fun r => String.eqb (kl l) (kr r)) right))
    left.

(** [pd.merge(left, right, on=key, how='left')] where the left key may be
    missing: a left row without a match is kept once, with no right row. *)
Definition merge_left {L R : Type} (kl : L -> option string)
  (kr : R -> string) (left : list L) (right : list R)
  : list (L * option R) :=
  flat_map
    (fun l =>
       match filter (fun r => opt_eqb (kl l) (kr r)) right with
       | [] => [(l, None)]
       | ms => map (fun r => (l, Some r)) ms
       end)
    left.

(** Group keys of [groupby(col)] (default [sort=True], [dropna=True]):
    the distinct present keys in ascending order. *)
Fixpoint insert_key (k : string) (ks : list string) : list string :=
  match ks with
  | [] => [k]
  | h :: tl => if String.leb k h then k :: ks else h :: insert_key k tl
  end.

Definition sort_keys (ks : list string) : list string :=
  fold_right insert_key [] ks.

Definition group_keys {A : Type} (key : A -> option string) (rows : list A)
  : list string :=
  sort_keys (unique String.eqb (dropna (map key rows))).

(** [groupby(col)]: each key with its rows, in row order. *)
Definition groupby {A : Type} (key : A -> option string) (rows : list A)
  : list (string * list A) :=
  map (fun k => (k, filter (fun r => opt_eqb (key r) k) rows))
      (group_keys key rows).

(** [Series.sum()] of a column kept in whole units: exact, where pandas
    rounds every float64 addition. *)
Definition sum (l : list Z) : Z := fold_right Z.add 0 l.

(** Largest element of a non-empty column. *)
Fixpoint maximum (x : Z) (l : list Z) : Z :=
  match l with
  | [] => x
  | y :: tl => maximum (Z.max x y) tl
  end.

Fixpoint minimum (x : Z) (l : list Z) : Z :=
  match l with
  | [] => x
  | y :: tl => minimum (Z.min x y) tl
  end.

(** ** Binning: [searchsorted], [cut], [qcut], [rank] *)

(** A bin edge: a number or an infinity ([float('inf')]). *)
Inductive edge : Type :=
| MinusInf
| At (z : Z)
| PlusInf.

Definition edge_eqb (a b : edge) : bool :=
  match a, b with
  | MinusInf, MinusInf => true
  | At x, At y => x =? y
  | PlusInf, PlusInf => true
  | _, _ => false
  end.

(** [b < x] and [a <= b] on edges. *)
Definition edge_ltb_val (b : edge) (x : Z) : bool :=
  match b with
  | MinusInf => true
  | At z => z <? x
  | PlusInf => false
  end.

Definition edge_leb (a b : edge) : bool :=
  match a, b with
  | MinusInf, _ => true
  | _, PlusInf => true
  | At x, At y => x <=? y
  | _, _ => false
  end.

(** [bins.searchsorted(x, side='left')] on increasing [bins]: the number
    of edges strictly below [x]. *)
Fixpoint searchsorted_left (bins : list edge) (x : Z) : nat :=
  match bins with
  | [] => 0
  | b :: tl => if edge_ltb_val b x then S (searchsorted_left tl x) else 0
  end.

Definition first_edge_is (bins : list edge) (x : Z) : bool :=
  match bins with
  | [] => false
  | b :: _ => edge_eqb b (At x)
  end.

(** One cell of [_bins_to_cuts] with [right=True]: the bin number, the
    [include_lowest] patch, the NaN mask and the label lookup. *)
Definition bin_label {L : Type} (bins : list edge) (labels : list L)
  (include_lowest : bool) (cell : option Z) : option L :=
  match cell with
  | None => None
  | Some x =>
      let ids := searchsorted_left bins x in
      let ids := if include_lowest && first_edge_is bins x then 1%nat
                 else ids in
      if (ids =? List.length bins)%nat || (ids =? 0)%nat then None
      else nth_error labels (ids - 1)
  end.

(** [_bins_to_cuts(x, bins, labels=labels, include_lowest=...,
    duplicates=...)].  Repeated edges raise unless
    [duplicates='drop'], which removes them; the labels must then be one
    fewer than the edges that are left. *)
Definition bins_to_cuts {L : Type} (x : list (option Z)) (bins : list edge)
  (labels : list L) (include_lowest : bool) (duplicates_drop : bool)
  : result (list (option L)) :=
  let unique_bins := unique edge_eqb bins in
  bind
    (if (List.length unique_bins <? List.length bins)%nat
        && negb (List.length bins =? 2)%nat
     then if duplicates_drop then Ok unique_bins else ValueError
     else Ok bins)
    (fun bins =>
       if negb (List.length labels =? List.length bins - 1)%nat
       then ValueError
       else Ok (map (bin_label bins labels include_lowest) x)).

Fixpoint increasing (bins : list edge) : bool :=
  match bins with
  | a :: ((b :: _) as tl) => edge_leb a b && increasing tl
  | _ => true
  end.

(** [pd.cut(x, bins=[...], labels=..., include_lowest=...)] with explicit
    edges ([right=True], [duplicates='raise']). *)
Definition cut {L : Type} (x : list (option Z)) (bins : list edge)
  (labels : list L) (include_lowest : bool) : result (list (option L)) :=
  if increasing bins then bins_to_cuts x bins labels include_lowest false
  else ValueError.

(** Edges of [pd.cut(x, bins=n)] for a column with extremes [mn], [mx],
    every edge multiplied by [1000 * n] so that it is an integer:
    [np.linspace(mn, mx, n + 1)] with the first edge lowered by 0.1% of
    the range, or, when [mn == mx], the linspace between the two extremes
    moved apart by 0.1% of their size (0.001 at zero). *)
Definition widen_down (mn : Z) : Z :=   (* 1000 * (mn - 0.001 * |mn|) *)
  if mn =? 0 then -1 else 1000 * mn - Z.abs mn.

Definition widen_up (mx : Z) : Z :=     (* 1000 * (mx + 0.001 * |mx|) *)
  if mx =? 0 then 1 else 1000 * mx + Z.abs mx.

Definition linspace_edges (n : Z) (lo hi : Z) : list edge :=
  (* n * lo + k * (hi - lo), k = 0..n *)
  map (fun k => At (n * lo + Z.of_nat k * (hi - lo)))
      (seq 0 (S (Z.to_nat n))).

Definition lower_first (adj : Z) (bins : list edge) : list edge :=
  match bins with
  | At z :: tl => At (z - adj) :: tl
  | _ => bins
  end.

Definition equal_width_edges (n : Z) (mn mx : Z) : list edge :=
  if mn =? mx then linspace_edges n (widen_down mn) (widen_up mx)
  else lower_first (n * (mx - mn))
         (linspace_edges n (1000 * mn) (1000 * mx)).

(** [pd.cut(x, bins=n, labels=..., duplicates='drop')] on a column
    without missing values. *)
Definition cut_nbins {L : Type} (x : list Z) (n : Z) (labels : list L)
  : result (list (option L)) :=
  match x with
  | [] => ValueError                        (* Cannot cut empty array *)
  | x0 :: tl =>
      if n <? 1 then ValueError
      else
        let mn := minimum x0 tl in
        let mx := maximum x0 tl in
        bins_to_cuts (map (fun v => Some (1000 * n * v)) x)
          (equal_width_edges n mn mx) labels false true
  end.

(** Ascending sort of a numeric column. *)
Fixpoint insert_sorted (v : Z) (l : list Z) : list Z :=
  match l with
  | [] => [v]
  | h :: tl => if v <=? h then v :: l else h :: insert_sorted v tl
  end.

Definition sort (l : list Z) : list Z := fold_right insert_sorted [] l.

(** [q] times the [k/q] quantile of the sorted column [a], by linear
    interpolation between the two neighbouring order statistics.  The
    interpolation is exact here; pandas does it in float64, so two edges
    that are equal here can differ there by a rounding, and with them
    which of the two cuts of a score column runs. *)
Definition quantile_edge (q : Z) (a : list Z) (k : nat) : Z :=
  let n := Z.of_nat (List.length a) in
  let pos := (n - 1) * Z.of_nat k in
  let lo := Z.to_nat (pos / q) in
  let hi := Nat.min (S lo) (List.length a - 1) in
  let gamma := pos mod q in
  q * nth lo a 0 + gamma * (nth hi a 0 - nth lo a 0).

(** [pd.qcut(x, q=q, labels=..., duplicates='drop')] on a column without
    missing values; the edges carry the factor [q]. *)
Definition qcut {L : Type} (x : list Z) (q : Z) (labels : list L)
  : result (list (option L)) :=
  match x with
  | [] => ValueError
  | _ =>
      let bins :=
        map (fun k => At (quantile_edge q (sort x) k))
            (seq 0 (S (Z.to_nat q))) in
      bins_to_cuts (map (fun v => Some (q * v)) x) bins labels true true
  end.

Definition count (p : Z -> bool) (l : list Z) : Z :=
  Z.of_nat (List.length (filter p l)).

(** [Series.rank(method='first')]: one plus the number of smaller values,
    ties numbered in row order. *)
Fixpoint rank_from (all before l : list Z) : list Z :=
  match l with
  | [] => []
  | v :: tl =>
      (1 + count (fun y => y <? v) all + count (fun y => y =? v) before)
        :: rank_from all (v :: before) tl
  end.

Definition rank_first (l : list Z) : list Z := rank_from l [] l.

(** [pd.to_numeric(col, errors='coerce')] on a column of integer labels:
    the labels as numbers, a missing cell stays missing. *)
Definition to_numeric (col : list (option Z)) : list (option Z) := col.

(** Cell-wise [a + b] with NaN propagation. *)
Definition add_cells (a b : option Z) : option Z :=
  match a, b with
  | Some x, Some y => Some (x + y)
  | _, _ => None
  end.

End Pandas.
Import Pandas.

(* ================================================================== *)
(** * Sorting a frame by a column *)
(* ================================================================== *)

(** [DataFrame.sort_values(by, ascending=...)] orders the rows by
    [nargsort], which calls NumPy's [argsort] on the key column with the
    default [kind='quicksort'].  Which routine that is depends on the
    NumPy build and on the processor (a generic introsort, or a
    vectorised sort); each of them returns the positions of the keys in
    ascending key order, and none promises an order among equal keys.  A
    routine is therefore given here by the one thing in which two of them
    can differ: the preference it has among the positions of equal keys.
    Every routine sorts ([argsort_sorts]), and every function that sorts
    is a routine ([every_sort_is_a_routine]). *)
Module NumPy.

(** [ties keys i]: the preference of the routine for position [i] of
    [keys] among the positions that hold the same key.  The smaller
    preference goes first; positions of equal preference stay in position
    order. *)
Definition routine : Type := list Z -> nat -> nat.

(** Position [i] sorts before position [j]. *)
Definition goes_first (keys : list Z) (preference : nat -> nat) (i j : nat)
  : bool :=
  (nth i keys 0 <? nth j keys 0)
  || ((nth i keys 0 =? nth j keys 0)
      && ((preference i <? preference j)%nat
          || ((preference i =? preference j)%nat && (i <=? j)%nat))).

Fixpoint place (first : nat -> nat -> bool) (i : nat) (sorted : list nat)
  : list nat :=
  match sorted with
  | [] => [i]
  | j :: tl => if first i j then i :: sorted else j :: place first i tl
  end.

(** [keys.argsort(kind='quicksort')] as the routine [ties] performs it:
    the positions of [keys], smaller keys first. *)
Definition argsort (ties : routine) (keys : list Z) : list nat :=
  fold_right (place (goes_first keys (ties keys))) []
             (seq 0 (List.length keys)).

(** A stable routine prefers no position.  [later_first] puts, of two
    equal keys, the later one first. *)
Definition stable : routine := fun _ _ => 0%nat.

Definition later_first : routine :=
  fun keys i => (List.length keys - i)%nat.

End NumPy.

Module Sorting.

(** [frame.take(indexer)]. *)
Definition take {A : Type} (rows : list A) (indexer : list nat) : list A :=
  flat_map (fun i => match nth_error rows i with
                     | Some r => [r]
                     | None => []
                     end) indexer.

(** [nargsort(items, kind, ascending)] for a key column without NaN,
    given the permutation [order] that [argsort] returned: a descending
    sort reverses the keys, sorts ascending and reverses the outcome. *)
Definition nargsort_keys (items : list Z) (ascending : bool) : list Z :=
  if ascending then items else rev items.

Definition nargsort_with (order : list nat) (items : list Z)
  (ascending : bool) : list nat :=
  let idx := seq 0 (List.length items) in
  let non_nan_idx := if ascending then idx else rev idx in
  let indexer := map (fun i => nth i non_nan_idx 0%nat) order in
  if ascending then indexer else rev indexer.

Definition nargsort (ties : NumPy.routine) (items : list Z)
  (ascending : bool) : list nat :=
  nargsort_with (NumPy.argsort ties (nargsort_keys items ascending))
                items ascending.

(** What every [argsort] gives: [order] lists every position of [keys]
    once, and reading [keys] in that order is ascending.  A stable one
    also leaves equal keys in the order of their positions. *)
Fixpoint adjacent {A : Type} (rel : A -> A -> bool) (l : list A) : bool :=
  match l with
  | a :: ((b :: _) as tl) => rel a b && adjacent rel tl
  | _ => true
  end.

Definition key_leb (keys : list Z) (i j : nat) : bool :=
  nth i keys 0 <=? nth j keys 0.

Definition key_ltb_or_earlier (keys : list Z) (i j : nat) : bool :=
  (nth i keys 0 <? nth j keys 0)
  || ((nth i keys 0 =? nth j keys 0) && (i <? j)%nat).

Definition is_argsort (keys : list Z) (order : list nat) : bool :=
  (List.length order =? List.length keys)%nat
  && forallb (fun i => existsb (Nat.eqb i) order) (seq 0 (List.length keys))
  && adjacent (key_leb keys) order.

Definition is_stable_argsort (keys : list Z) (order : list nat) : bool :=
  is_argsort keys order && adjacent (key_ltb_or_earlier keys) order.

(** Orders on the positions of a frame sorted descending by [keys]: row
    [a] may stand before row [b] when its key is not smaller; it stands
    before [b] with ties in row order when its key is larger, or equal
    and [a] is the earlier row of the unsorted frame. *)
Definition not_below (keys : list Z) (a b : nat) : Prop :=
  nth b keys 0 <= nth a keys 0.

Definition ranks_before (keys : list Z) (a b : nat) : Prop :=
  nth b keys 0 < nth a keys 0
  \/ (nth a keys 0 = nth b keys 0 /\ (a < b)%nat).

End Sorting.
Import Sorting.

(* ================================================================== *)
(** * The datasets *)
(* ================================================================== *)

Open Scope string_scope.
Open Scope Z_scope.

(** The columns of the CSV files that the computations read.  Timestamps
    are seconds.  Every order has a purchase time; the two delivery dates
    may be missing ([None] is NaT). *)
Record Order : Type := mkOrder {
  order_id : string;
  customer_id : string;
  order_status : string;
  order_purchase_timestamp : Z;
  order_delivered_customer_date : option Z;
  order_estimated_delivery_date : option Z
}.

Record OrderItem : Type := mkOrderItem {
  item_order_id : string;
  item_product_id : string;
  price : Z
}.

Record Payment : Type := mkPayment {
  payment_order_id : string;
  payment_type : string;
  payment_installments : Z;
  payment_value : Z
}.

(** A row of [products_dataset.csv] and of
    [product_category_name_translation.csv]. *)
Record RawProduct : Type := mkRawProduct {
  raw_product_id : string;
  raw_product_category_name : option string
}.

Record Translation : Type := mkTranslation {
  tr_product_category_name : string;
  tr_product_category_name_english : string
}.

(** A row of [data['products']], after the left join with the
    translations. *)
Record Product : Type := mkProduct {
  product_id : string;
  product_category_name : option string;
  product_category_name_english : option string
}.

Record Data : Type := mkData {
  order_items : list OrderItem;
  order_payments : list Payment;
  orders : list Order;
  products : list Product
}.

(** [load_processed_data]: the products are left-joined with the category
    translations on [product_category_name]. *)
Definition load_processed_data (df_order_items : list OrderItem)
  (df_order_payments : list Payment) (df_orders : list Order)
  (df_product_category : list Translation) (df_products : list RawProduct)
  : Data :=
  {| order_items := df_order_items;
     order_payments := df_order_payments;
     orders := df_orders;
     products :=
       map (fun row =>
              {| product_id := raw_product_id (fst row);
                 product_category_name :=
                   raw_product_category_name (fst row);
                 product_category_name_english :=
                   option_map tr_product_category_name_english (snd row) |})
           (merge_left raw_product_category_name tr_product_category_name
              df_products df_product_category) |}.

Definition seconds_per_day : Z := 86400.

(** [timedelta.dt.days]: whole days, rounded towards minus infinity. *)
Definition days (delta : Z) : Z := delta / seconds_per_day.

(** Python truth value of the sidebar's [selected_category]. *)
Definition truthy (s : option string) : bool :=
  match s with
  | None => false
  | Some c => negb (String.eqb c "")
  end.

Definition opt_string_eqb (a b : option string) : bool :=
  match a, b with
  | Some x, Some y => String.eqb x y
  | _, _ => false
  end.

(* ================================================================== *)
(** * Tab 1: sales trend and best-selling categories *)
(* ================================================================== *)

Definition in_window (start_date end_date : Z) (o : Order) : bool :=
  (start_date <=? order_purchase_timestamp o)
  && (order_purchase_timestamp o <=? end_date).

Definition filtered_orders (data : Data) (start_date end_date : Z)
  : list Order :=
  filter (in_window start_date end_date) (orders data).

(** The inner join of the orders in the window with their items. *)
Definition joined_items (data : Data) (start_date end_date : Z)
  : list OrderItem :=
  map snd (merge order_id item_order_id
             (filtered_orders data start_date end_date)
             (order_items data)).

(** [filtered_items]: the join, narrowed to the products of the selected
    category when the sidebar gives one. *)
Definition filtered_items (data : Data) (start_date end_date : Z)
  (selected_category : option string) : list OrderItem :=
  let joined := joined_items data start_date end_date in
  if truthy selected_category then
    let product_ids :=
      unique String.eqb
        (map product_id
           (filter (fun p => opt_string_eqb
                               (product_category_name_english p)
                               selected_category)
                   (products data))) in
    filter (fun it => isin String.eqb (item_product_id it) product_ids)
           joined
  else joined.

Definition total_orders (items : list OrderItem) : Z :=
  Z.of_nat (nunique String.eqb (map item_order_id items)).

Definition total_sales (items : list OrderItem) : Z :=
  sum (map price items).

Definition avg_order_value (items : list OrderItem) : float :=
  if 0 <? total_orders items
  then truediv (total_sales items) (total_orders items)
  else Fin 0.

(** A row of [category_sales]: the category, the summed price and the
    number of distinct orders. *)
Record CategorySales : Type := mkCategorySales {
  cs_category : string;
  cs_price : Z;
  cs_order_id : Z
}.

(** [items_with_categories] joins the items with the products; the
    grouping column is [product_category_name_english], which the load
    always creates. *)
Definition items_with_categories (data : Data) (items : list OrderItem)
  : list (OrderItem * Product) :=
  merge item_product_id product_id items (products data).

Definition category_sales (data : Data) (items : list OrderItem)
  : list CategorySales :=
  map (fun g =>
         {| cs_category := fst g;
            cs_price := sum (map (fun r => price (fst r)) (snd g));
            cs_order_id :=
              Z.of_nat (nunique String.eqb
                          (map (fun r => item_order_id (fst r)) (snd g))) |})
      (groupby (fun r => product_category_name_english (snd r))
               (items_with_categories data items)).

(** [category_sales.sort_values('price', ascending=False).head(10)]. *)
Definition top_categories (ties : NumPy.routine) (cs : list CategorySales)
  : list CategorySales :=
  firstn 10 (take cs (nargsort ties (map cs_price cs) false)).

(* ================================================================== *)
(** * Tab 3: payment methods *)
(* ================================================================== *)

Record PaymentSummary : Type := mkPaymentSummary {
  ps_payment_type : string;
  total_value : Z;
  order_count : Z;
  percentage : float
}.

Definition payment_data (data : Data) (start_date end_date : Z)
  : list Payment :=
  map snd (merge order_id payment_order_id
             (filtered_orders data start_date end_date)
             (order_payments data)).

Definition payment_summary (payments : list Payment) : list PaymentSummary :=
  let grouped :=
    map (fun g =>
           (fst g,
            sum (map payment_value (snd g)),
            Z.of_nat (nunique String.eqb (map payment_order_id (snd g)))))
        (groupby (fun p => Some (payment_type p)) payments) in
  let grand_total := sum (map (fun r => snd (fst r)) grouped) in
  map (fun r =>
         {| ps_payment_type := fst (fst r);
            total_value := snd (fst r);
            order_count := snd r;
            percentage := fmul (truediv (snd (fst r)) grand_total) 100 |})
      grouped.

(* ================================================================== *)
(** * Tab 2: RFM customer segmentation *)
(* ================================================================== *)

Definition filtered_orders_rfm (data : Data) (start_date end_date : Z)
  : list Order :=
  filter (fun o => in_window start_date end_date o
                   && String.eqb (order_status o) "delivered")
         (orders data).

Definition orders_with_payments (data : Data) (start_date end_date : Z)
  : list (Order * Payment) :=
  merge order_id payment_order_id
    (filtered_orders_rfm data start_date end_date)
    (order_payments data).

Definition max_of (l : list Z) : Z :=
  match l with
  | [] => 0
  | x :: tl => maximum x tl
  end.

Definition by_customer (r : Order * Payment) : option string :=
  Some (customer_id (fst r)).

(** One row per customer: days from [end_date] back to the latest
    purchase, number of distinct orders, summed payment value. *)
Definition recency_df (end_date : Z) (owp : list (Order * Payment))
  : list (string * Z) :=
  map (fun g =>
         (fst g,
          days (end_date
                - max_of (map (fun r => order_purchase_timestamp (fst r))
                              (snd g)))))
      (groupby by_customer owp).

Definition frequency_df (owp : list (Order * Payment)) : list (string * Z) :=
  map (fun g =>
         (fst g,
          Z.of_nat (nunique String.eqb
                      (map (fun r => order_id (fst r)) (snd g)))))
      (groupby by_customer owp).

Definition monetary_df (owp : list (Order * Payment)) : list (string * Z) :=
  map (fun g => (fst g, sum (map (fun r => payment_value (snd r)) (snd g))))
      (groupby by_customer owp).

(** A row of the [rfm] frame.  The score, total and segment columns are
    missing until the script assigns them. *)
Record RFMRecord : Type := mkRFMRecord {
  rfm_customer_id : string;
  recency : Z;
  frequency : Z;
  monetary : Z;
  r_score : option Z;
  f_score : option Z;
  m_score : option Z;
  rfm_score : option Z;
  segment : option string
}.

Definition rfm_frame (end_date : Z) (owp : list (Order * Payment))
  : list RFMRecord :=
  map (fun row =>
         {| rfm_customer_id := fst (fst (fst row));
            recency := snd (fst (fst row));
            frequency := snd (snd (fst row));
            monetary := snd (snd row);
            r_score := None; f_score := None; m_score := None;
            rfm_score := None; segment := None |})
      (merge (fun l => fst (fst l)) fst
         (merge fst fst (recency_df end_date owp) (frequency_df owp))
         (monetary_df owp)).

Definition set_r_score (row : RFMRecord) (v : option Z) : RFMRecord :=
  {| rfm_customer_id := rfm_customer_id row; recency := recency row;
     frequency := frequency row; monetary := monetary row;
     r_score := v; f_score := f_score row; m_score := m_score row;
     rfm_score := rfm_score row; segment := segment row |}.

Definition set_f_score (row : RFMRecord) (v : option Z) : RFMRecord :=
  {| rfm_customer_id := rfm_customer_id row; recency := recency row;
     frequency := frequency row; monetary := monetary row;
     r_score := r_score row; f_score := v; m_score := m_score row;
     rfm_score := rfm_score row; segment := segment row |}.

Definition set_m_score (row : RFMRecord) (v : option Z) : RFMRecord :=
  {| rfm_customer_id := rfm_customer_id row; recency := recency row;
     frequency := frequency row; monetary := monetary row;
     r_score := r_score row; f_score := f_score row; m_score := v;
     rfm_score := rfm_score row; segment := segment row |}.

Definition set_rfm_score (row : RFMRecord) (v : option Z) : RFMRecord :=
  {| rfm_customer_id := rfm_customer_id row; recency := recency row;
     frequency := frequency row; monetary := monetary row;
     r_score := r_score row; f_score := f_score row; m_score := m_score row;
     rfm_score := v; segment := segment row |}.

Definition set_segment (row : RFMRecord) (v : option string) : RFMRecord :=
  {| rfm_customer_id := rfm_customer_id row; recency := recency row;
     frequency := frequency row; monetary := monetary row;
     r_score := r_score row; f_score := f_score row; m_score := m_score row;
     rfm_score := rfm_score row; segment := v |}.

(** [frame[col] = series]: the series has one cell per row of the frame. *)
Fixpoint assign {R C : Type} (set : R -> C -> R) (rows : list R)
  (col : list C) : list R :=
  match rows, col with
  | r :: rows', c :: col' => set r c :: assign set rows' col'
  | _, _ => []
  end.

(** [frame[col] = 3]: a scalar is broadcast to every row. *)
Definition broadcast (v : Z) (col : list Z) : list (option Z) :=
  map (fun _ => Some v) col.

Definition r_score_column (rfm : list RFMRecord) : result (list (option Z)) :=
  let col := map recency rfm in
  if (nunique Z.eqb col <? 5)%nat then Ok (broadcast 3 col)
  else try_except (qcut col 5 [5; 4; 3; 2; 1])
                  (cut_nbins col 5 [5; 4; 3; 2; 1]).

Definition f_score_column (rfm : list RFMRecord) : result (list (option Z)) :=
  let col := map frequency rfm in
  if (nunique Z.eqb col <? 5)%nat then Ok (broadcast 3 col)
  else try_except (qcut (rank_first col) 5 [1; 2; 3; 4; 5])
                  (cut_nbins col 5 [1; 2; 3; 4; 5]).

Definition m_score_column (rfm : list RFMRecord) : result (list (option Z)) :=
  let col := map monetary rfm in
  if (nunique Z.eqb col <? 5)%nat then Ok (broadcast 3 col)
  else try_except (qcut (rank_first col) 5 [1; 2; 3; 4; 5])
                  (cut_nbins col 5 [1; 2; 3; 4; 5]).

Definition segment_bins : list edge := [At 0; At 4; At 8; At 12; At 15].

Definition segment_labels : list string :=
  ["Bronze"; "Silver"; "Gold"; "Platinum"].

(** The scoring block of the tab, statement by statement. *)
Definition score_rfm (rfm : list RFMRecord) : result (list RFMRecord) :=
  bind (r_score_column rfm) (fun r =>
  let rfm := assign set_r_score rfm r in
  bind (f_score_column rfm) (fun f =>
  let rfm := assign set_f_score rfm f in
  bind (m_score_column rfm) (fun m =>
  let rfm := assign set_m_score rfm m in
  let rfm := assign set_r_score rfm (to_numeric (map r_score rfm)) in
  let rfm := assign set_f_score rfm (to_numeric (map f_score rfm)) in
  let rfm := assign set_m_score rfm (to_numeric (map m_score rfm)) in
  let rfm :=
    assign set_rfm_score rfm
      (map (fun row => add_cells (add_cells (r_score row) (f_score row))
                                 (m_score row)) rfm) in
  bind (cut (map rfm_score rfm) segment_bins segment_labels true)
    (fun seg => Ok (assign set_segment rfm seg))))).

(** What the tab shows: the scored frame, or the warning that there is
    not enough data for the chosen period. *)
Inductive rfm_view : Type :=
| RFMTable (rfm : list RFMRecord)
| RFMWarning.

Definition tab2 (data : Data) (start_date end_date : Z) : result rfm_view :=
  let owp := orders_with_payments data start_date end_date in
  if (0 <? List.length owp)%nat then
    bind (score_rfm (rfm_frame end_date owp)) (fun rfm => Ok (RFMTable rfm))
  else Ok RFMWarning.

(** The records the segmentation produced. *)
Definition rfm_records (v : rfm_view) : list RFMRecord :=
  match v with
  | RFMTable rfm => rfm
  | RFMWarning => []
  end.

(* ================================================================== *)
(** * Tab 4: delivery performance *)
(* ================================================================== *)

Record Delivery : Type := mkDelivery {
  delivery_order : Order;
  delivery_difference : Z;
  delivery_status : option string
}.

(** Delivered orders of the window that have both dates, with the signed
    number of days from the estimated to the actual delivery. *)
Definition delivery_data (data : Data) (start_date end_date : Z)
  : list Delivery :=
  flat_map
    (fun o =>
       match order_delivered_customer_date o,
             order_estimated_delivery_date o with
       | Some delivered, Some estimated =>
           [ {| delivery_order := o;
                delivery_difference := days (delivered - estimated);
                delivery_status := None |} ]
       | _, _ => []
       end)
    (filtered_orders_rfm data start_date end_date).

Definition delivery_bins : list edge :=
  [MinusInf; At (-3); At (-1); At 0; At 2; PlusInf].

Definition status_order : list string :=
  ["Very Early"; "Early"; "On Time"; "Late"; "Very Late"].

Definition set_delivery_status (row : Delivery) (v : option string)
  : Delivery :=
  {| delivery_order := delivery_order row;
     delivery_difference := delivery_difference row;
     delivery_status := v |}.

Definition with_delivery_status (rows : list Delivery)
  : result (list Delivery) :=
  bind (cut (map (fun r => Some (delivery_difference r)) rows)
            delivery_bins status_order false)
       (fun col => Ok (assign set_delivery_status rows col)).

Inductive delivery_view : Type :=
| DeliveryTable (rows : list Delivery)
| DeliveryWarning.

Definition tab4 (data : Data) (start_date end_date : Z)
  : result delivery_view :=
  let rows := delivery_data data start_date end_date in
  if (0 <? List.length rows)%nat then
    bind (with_delivery_status rows) (fun t => Ok (DeliveryTable t))
  else Ok DeliveryWarning.

(* ================================================================== *)
(** * The sidebar *)
(* ================================================================== *)

(** The radio button of the period filter; the custom choice carries the
    two days picked in the date inputs. *)
Inductive date_option : Type :=
| SemuaData
| TahunTerakhir
| EnamBulanTerakhir
| TigaBulanTerakhir
| Kustom (start_day end_day : Z).

(** [data['orders']['order_purchase_timestamp'].min()] and [.max()];
    [None] is the NaT of an empty column. *)
Definition min_date (data : Data) : option Z :=
  match map order_purchase_timestamp (orders data) with
  | [] => None
  | t :: tl => Some (minimum t tl)
  end.

Definition max_date (data : Data) : option Z :=
  match map order_purchase_timestamp (orders data) with
  | [] => None
  | t :: tl => Some (maximum t tl)
  end.

(** [timedelta(days=n)]. *)
Definition timedelta (n : Z) : Z := n * seconds_per_day.

(** [pd.to_datetime(d)] of a calendar day [d]: its midnight. *)
Definition to_datetime (d : Z) : Z := d * seconds_per_day.

(** The calendar day that a date input shows for a timestamp. *)
Definition date_of (t : Z) : Z := t / seconds_per_day.

(** [(start_date, end_date)] for the chosen option, on a dataset with at
    least one order. *)
Definition date_range (data : Data) (date_option : date_option)
  : option (Z * Z) :=
  match min_date data, max_date data with
  | Some mn, Some mx =>
      Some (match date_option with
            | SemuaData => (mn, mx)
            | TahunTerakhir => (mx - timedelta 365, mx)
            | EnamBulanTerakhir => (mx - timedelta 180, mx)
            | TigaBulanTerakhir => (mx - timedelta 90, mx)
            | Kustom start_day end_day =>
                (to_datetime start_day, to_datetime end_day)
            end)
  | _, _ => None
  end.

(** The custom option with the two date inputs left at their defaults,
    [min_date] and [max_date]. *)
Definition kustom_default (data : Data) : option date_option :=
  match min_date data, max_date data with
  | Some mn, Some mx => Some (Kustom (date_of mn) (date_of mx))
  | _, _ => None
  end.

(** The options of the category select box and the value the script keeps
    for a choice. *)
Definition categories (data : Data) : list string :=
  "All Categories"
  :: sort_keys (unique String.eqb
                  (dropna (map product_category_name_english
                               (products data)))).

Definition selected_category_of (choice : string) : option string :=
  if String.eqb choice "All Categories" then None else Some choice.

(* ================================================================== *)
(** * Tab 1: monthly sales *)
(* ================================================================== *)

Section MonthlySales.
(** [dt.to_period('M').astype(str)]: the year-month label of a
    timestamp. *)
Variable to_period_M : Z -> string.

Definition sales_over_time (data : Data) (start_date end_date : Z)
  (selected_category : option string) : list (Order * OrderItem) :=
  merge order_id item_order_id
    (filtered_orders data start_date end_date)
    (filtered_items data start_date end_date selected_category).

Definition monthly_sales (data : Data) (start_date end_date : Z)
  (selected_category : option string) : list (string * Z) :=
  map (fun g => (fst g, sum (map (fun r => price (snd r)) (snd g))))
      (groupby (fun r => Some (to_period_M
                                 (order_purchase_timestamp (fst r))))
               (sales_over_time data start_date end_date
                  selected_category)).
End MonthlySales.

(* ================================================================== *)
(** * Tab 3: payment statistics and credit card payments *)
(* ================================================================== *)

(** [display_stats]: payment type, order count and average value per
    order, before the value is formatted as text. *)
Definition display_stats (summary : list PaymentSummary)
  : list (string * Z * float) :=
  map (fun r => (ps_payment_type r, order_count r,
                 truediv (total_value r) (order_count r)))
      summary.

Definition credit_data (payments : list Payment) : list Payment :=
  filter (fun p => String.eqb (payment_type p) "credit_card") payments.

(* ================================================================== *)
(** * Tab 4: delivery metrics *)
(* ================================================================== *)

Definition actual_delivery_days (o : Order) : option Z :=
  option_map (fun d => days (d - order_purchase_timestamp o))
             (order_delivered_customer_date o).

Definition estimated_delivery_days (o : Order) : option Z :=
  option_map (fun d => days (d - order_purchase_timestamp o))
             (order_estimated_delivery_date o).

(** [(delivery_difference <= 0).mean() * 100]. *)
Definition on_time (rows : list Delivery) : list Delivery :=
  filter (fun r => delivery_difference r <=? 0) rows.

Definition on_time_percentage (rows : list Delivery) : float :=
  fmul (truediv (Z.of_nat (List.length (on_time rows)))
                (Z.of_nat (List.length rows)))
       100.

(* ================================================================== *)
(** * Tab 5: geographic distribution *)
(* ================================================================== *)

Record Customer : Type := mkCustomer {
  cust_customer_id : string;
  customer_city : string;
  customer_state : string
}.

(** The orders of the customers of the selected state, if one is
    selected, within the window. *)
Definition state_orders (customers : list Customer) (data : Data)
  (selected_state : option string) (start_date end_date : Z)
  : list Order :=
  let of_state :=
    if truthy selected_state then
      let state_customers :=
        unique String.eqb
          (map cust_customer_id
             (filter (fun c => opt_string_eqb (Some (customer_state c))
                                              selected_state)
                     customers)) in
      filter (fun o => isin String.eqb (customer_id o) state_customers)
             (orders data)
    else orders data in
  filter (in_window start_date end_date) of_state.

(* ================================================================== *)
(** * Notions used to state the properties *)
(* ================================================================== *)

(** [sub] keeps some rows of [full], in the same order. *)
Inductive subframe {A : Type} : list A -> list A -> Prop :=
| subframe_nil : subframe [] []
| subframe_keep : forall x sub full,
    subframe sub full -> subframe (x :: sub) (x :: full)
| subframe_drop : forall x sub full,
    subframe sub full -> subframe sub (x :: full).

(** Whether some row of [data['products']] carries this product id and has
    the English category [c]. *)
Definition has_english_category (data : Data) (c : string) (it : OrderItem)
  : bool :=
  existsb (fun p => String.eqb (product_id p) (item_product_id it)
                    && opt_string_eqb (product_category_name_english p)
                                      (Some c))
          (products data).

(** The category of an item as the specification words it: the translated
    category of its product, or the native name when the product has no
    translation; and the filter the specification describes.  Only used
    to compare with [filtered_items]. *)
Definition spec_category_with_fallback (data : Data) (it : OrderItem)
  : option string :=
  match find (fun p => String.eqb (product_id p) (item_product_id it))
             (products data) with
  | Some p =>
      match product_category_name_english p with
      | Some english => Some english
      | None => product_category_name p
      end
  | None => None
  end.

Definition spec_filter_by_category (data : Data) (c : string)
  (items : list OrderItem) : list OrderItem :=
  filter (fun it => opt_string_eqb (spec_category_with_fallback data it)
                                   (Some c))
         items.

(** The segment of one total, and the status of one day difference. *)
Definition segment_of (score : option Z) : option string :=
  bin_label segment_bins segment_labels true score.

Definition status_of (difference : Z) : option string :=
  bin_label delivery_bins status_order false (Some difference).

Definition delivery_rows (v : delivery_view) : list Delivery :=
  match v with
  | DeliveryTable rows => rows
  | DeliveryWarning => []
  end.

(** A score cell holding one of the labels 1..5. *)
Definition is_score (cell : option Z) : Prop :=
  exists s, cell = Some s /\ 1 <= s <= 5.

(** The total of a row's three scores, and the row once the total and
    the segment are filled in. *)
Definition total_of (row : RFMRecord) : option Z :=
  add_cells (add_cells (r_score row) (f_score row)) (m_score row).

Definition finish_row (row : RFMRecord) : RFMRecord :=
  set_segment (set_rfm_score row (total_of row)) (segment_of (total_of row)).

(** The frame after the three score columns [r], [f], [m] are assigned. *)
Definition scored (rfm : list RFMRecord) (r f m : list (option Z))
  : list RFMRecord :=
  assign set_m_score (assign set_f_score (assign set_r_score rfm r) f) m.

(** [out] has the customers of [rfm], in the same order and with the same
    three metrics. *)
Definition same_population (rfm out : list RFMRecord) : Prop :=
  map rfm_customer_id out = map rfm_customer_id rfm
  /\ map recency out = map recency rfm
  /\ map frequency out = map frequency rfm
  /\ map monetary out = map monetary rfm.

(** The routine that a sorting function [outcome] behaves as: among equal
    keys it prefers the position that [outcome] returns earlier. *)
Fixpoint index_of (i : nat) (order : list nat) : nat :=
  match order with
  | [] => 0%nat
  | j :: tl => if (i =? j)%nat then 0%nat else S (index_of i tl)
  end.

Definition routine_of (outcome : list Z -> list nat) : NumPy.routine :=
  fun keys i => index_of i (outcome keys).

(** Whether a row has a grouping key (a row without one is left out by
    [groupby]). *)
Definition has_key {A : Type} (key : A -> option string) (r : A) : bool :=
  match key r with
  | Some _ => true
  | None => false
  end.

(** The grouping keys of the three grouped tables. *)
Definition month_of (to_period_M : Z -> string) (r : Order * OrderItem)
  : option string :=
  Some (to_period_M (order_purchase_timestamp (fst r))).

Definition category_of (r : OrderItem * Product) : option string :=
  product_category_name_english (snd r).

Definition type_of (p : Payment) : option string := Some (payment_type p).

(** A float cell that holds a number. *)
Definition finite (x : float) : Prop := exists q, x = Fin q.

(** The three statuses of a delivery that is not late. *)
Definition not_late_status (s : option string) : bool :=
  match s with
  | Some l => isin String.eqb l ["Very Early"; "Early"; "On Time"]
  | None => false
  end.

(** The row of the [rfm] frame computed from one customer's group of
    order-payment rows. *)
Definition rfm_row_of (end_date : Z) (g : string * list (Order * Payment))
  : RFMRecord :=
  {| rfm_customer_id := fst g;
     recency :=
       days (end_date
             - max_of (map (fun r => order_purchase_timestamp (fst r))
                           (snd g)));
     frequency :=
       Z.of_nat (nunique String.eqb (map (fun r => order_id (fst r)) (snd g)));
     monetary := sum (map (fun r => payment_value (snd r)) (snd g));
     r_score := None; f_score := None; m_score := None;
     rfm_score := None; segment := None |}.

(* ================================================================== *)
(** * Sample datasets *)
(* ================================================================== *)

Definition new_rfm_row (customer : string) (r f m : Z) : RFMRecord :=
  {| rfm_customer_id := customer; recency := r; frequency := f;
     monetary := m; r_score := None; f_score := None; m_score := None;
     rfm_score := None; segment := None |}.

(** Midnight of day [n] after 1970-01-01. *)
Definition day (n : Z) : Z := n * seconds_per_day.

(** One delivered order of customer A on 2018-01-01 (day 17532), paid
    R$ 100 by credit card. *)
Definition single_order_data : Data :=
  {| order_items := [mkOrderItem "1" "p1" 10000];
     order_payments := [mkPayment "1" "credit_card" 1 10000];
     orders := [mkOrder "1" "A" "delivered" (day 17532)
                        (Some (day 17540)) (Some (day 17545))];
     products := [mkProduct "p1" (Some "pet_shop") (Some "pet_shop")] |}.

(** Two products: [p1] has the native category pc_gamer and no
    translation; [p2] is translated to the English name pc_gamer. *)
Definition untranslated_data : Data :=
  load_processed_data
    [mkOrderItem "o1" "p1" 5000; mkOrderItem "o1" "p2" 7000]
    [mkPayment "o1" "boleto" 1 12000]
    [mkOrder "o1" "c1" "delivered" (day 5) (Some (day 9)) (Some (day 12))]
    [mkTranslation "consoles_pc" "pc_gamer"]
    [mkRawProduct "p1" (Some "pc_gamer");
     mkRawProduct "p2" (Some "consoles_pc")].

(** One order in the window, paid with a voucher of value zero. *)
Definition zero_voucher_data : Data :=
  {| order_items := [mkOrderItem "o1" "p1" 0];
     order_payments := [mkPayment "o1" "voucher" 1 0];
     orders := [mkOrder "o1" "c1" "delivered" (day 5) (Some (day 9))
                        (Some (day 12))];
     products := [mkProduct "p1" (Some "pet_shop") (Some "pet_shop")] |}.

(** Ten customers, six of whom bought on the last day. *)
Definition skewed_recency : list RFMRecord :=
  [new_rfm_row "a" 0 1 100; new_rfm_row "b" 0 1 200;
   new_rfm_row "c" 0 2 300; new_rfm_row "d" 0 3 50;
   new_rfm_row "e" 0 4 70; new_rfm_row "f" 0 5 10;
   new_rfm_row "g" 1 1 1; new_rfm_row "h" 2 1 1;
   new_rfm_row "i" 3 1 1; new_rfm_row "j" 4 1 1].

(** Four categories with one item each, all bought in one order: auto
    and baby sum to R$ 100 each, toys and watches to R$ 200 each. *)
Definition tied_sums : list (string * Z) :=
  [("auto", 10000); ("baby", 10000); ("toys", 20000); ("watches", 20000)].

Definition tied_categories_data : Data :=
  {| order_items :=
       map (fun c => mkOrderItem "o1" (fst c) (snd c)) tied_sums;
     order_payments := [mkPayment "o1" "credit_card" 1 60000];
     orders := [mkOrder "o1" "c1" "delivered" (day 5) (Some (day 9))
                        (Some (day 12))];
     products :=
       map (fun c => mkProduct (fst c) (Some (fst c)) (Some (fst c)))
           tied_sums |}.

Definition tied_category_sales : list CategorySales :=
  category_sales tied_categories_data
    (filtered_items tied_categories_data (day 0) (day 10) None).

(** Five customers, one delivered order each on days 1 to 5, paid
    R$ 100 to R$ 500. *)
Definition five_customers_data : Data :=
  {| order_items := [];
     order_payments :=
       [mkPayment "o1" "boleto" 1 10000; mkPayment "o2" "boleto" 1 20000;
        mkPayment "o3" "boleto" 1 30000; mkPayment "o4" "boleto" 1 40000;
        mkPayment "o5" "boleto" 1 50000];
     orders :=
       [mkOrder "o1" "a" "delivered" (day 1) None None;
        mkOrder "o2" "b" "delivered" (day 2) None None;
        mkOrder "o3" "c" "delivered" (day 3) None None;
        mkOrder "o4" "d" "delivered" (day 4) None None;
        mkOrder "o5" "e" "delivered" (day 5) None None];
     products := [] |}.

(* ================================================================== *)
(** * Facts about the pandas operations *)
(* ================================================================== *)

Section UniqueFacts.
Context {A : Type}.
Variable eqb : A -> A -> bool.
Hypothesis eqb_eq : forall x y, eqb x y = true <-> x = y.

Lemma isin_In (x : A) (l : list A) : isin eqb x l = true <-> In x l.
Proof.
  unfold isin. rewrite existsb_exists. split.
  - intros [y [Hy He]]. apply eqb_eq in He. now subst.
  - intros H. exists x. split; [exact H | now apply eqb_eq].
Qed.

Lemma unique_acc_In (seen l : list A) (x : A) :
  In x (unique_acc eqb seen l) <-> In x l /\ ~ In x seen.
Proof.
  revert seen. induction l as [| y tl IH]; intros seen; simpl.
  - tauto.
  - destruct (isin eqb y seen) eqn:E.
    + apply isin_In in E. rewrite IH. split.
      * tauto.
      * intros [[-> | H] Hn]; [contradiction | tauto].
    + assert (Hy : ~ In y seen).
      { intros H. apply isin_In in H. congruence. }
      simpl. rewrite IH. simpl. split.
      * intros [-> | [H Hn]]; [tauto |]. split; [tauto |]. tauto.
      * intros [[-> | H] Hn]; [tauto |].
        destruct (isin eqb x [y]) eqn:Exy.
        -- apply isin_In in Exy. simpl in Exy. left. tauto.
        -- right. split; [exact H |].
           intros [-> | Hs]; [| contradiction].
           assert (isin eqb x [x] = true) by (apply isin_In; now left).
           congruence.
Qed.

Lemma unique_In (l : list A) (x : A) : In x (unique eqb l) <-> In x l.
Proof. unfold unique. rewrite unique_acc_In. simpl. tauto. Qed.

Lemma isin_unique (l : list A) (x : A) :
  isin eqb x (unique eqb l) = isin eqb x l.
Proof.
  apply eq_true_iff_eq. rewrite !isin_In. apply unique_In.
Qed.

Lemma unique_acc_id (seen l : list A) :
  NoDup l -> (forall x, In x l -> ~ In x seen) ->
  unique_acc eqb seen l = l.
Proof.
  revert seen. induction l as [| y tl IH]; intros seen Hnd Hs; simpl.
  - reflexivity.
  - inversion Hnd as [| ? ? Hy Htl]; subst.
    destruct (isin eqb y seen) eqn:E.
    + apply isin_In in E. exfalso. apply (Hs y); [now left | exact E].
    + f_equal. apply IH; [exact Htl |].
      intros x Hx [-> | Hin]; [contradiction |].
      apply (Hs x); [now right | exact Hin].
Qed.

Lemma unique_id (l : list A) : NoDup l -> unique eqb l = l.
Proof. intros H. apply unique_acc_id; [exact H | intros x _ []]. Qed.

Lemma unique_acc_head (seen l : list A) (d : A) :
  (forall x, In x l -> ~ In x seen) ->
  hd d (unique_acc eqb seen l) = hd d l.
Proof.
  destruct l as [| y tl]; simpl; [reflexivity |]. intros Hs.
  destruct (isin eqb y seen) eqn:E; [| reflexivity].
  apply isin_In in E. exfalso. apply (Hs y); [now left | exact E].
Qed.
End UniqueFacts.

Lemma string_eqb_eq (x y : string) : String.eqb x y = true <-> x = y.
Proof. apply String.eqb_eq. Qed.

Lemma edge_eqb_eq (a b : edge) : edge_eqb a b = true <-> a = b.
Proof.
  destruct a, b; simpl; split; intros H; try discriminate; try reflexivity.
  - apply Z.eqb_eq in H. now subst.
  - inversion H. apply Z.eqb_refl.
Qed.

(** ** Assigning a column *)

Lemma assign_map {R C : Type} (set : R -> C -> R) (f : R -> C)
  (rows : list R) :
  assign set rows (map f rows) = map (fun r => set r (f r)) rows.
Proof.
  induction rows as [| r tl IH]; simpl; [reflexivity | now rewrite IH].
Qed.

Lemma assign_keeps {R C K : Type} (set : R -> C -> R) (key : R -> K)
  (rows : list R) (col : list C) :
  List.length col = List.length rows ->
  (forall r c, key (set r c) = key r) ->
  map key (assign set rows col) = map key rows.
Proof.
  intros Hlen Hk. revert col Hlen.
  induction rows as [| r tl IH]; intros [| c col] Hlen; simpl in *;
    try discriminate; [reflexivity |].
  rewrite Hk. f_equal. apply IH. lia.
Qed.

Lemma assign_length {R C : Type} (set : R -> C -> R) (rows : list R)
  (col : list C) :
  List.length col = List.length rows ->
  List.length (assign set rows col) = List.length rows.
Proof.
  revert col. induction rows as [| r tl IH]; intros [| c col] Hlen;
    simpl in *; try discriminate; [reflexivity |].
  f_equal. apply IH. lia.
Qed.

(** An invariant of the rows and a property of the cells combine into an
    invariant of the frame after the assignment. *)
Lemma assign_Forall {R C : Type} (set : R -> C -> R)
  (P : R -> Prop) (Q : C -> Prop) (P' : R -> Prop)
  (rows : list R) (col : list C) :
  Forall P rows -> Forall Q col ->
  (forall r c, P r -> Q c -> P' (set r c)) ->
  Forall P' (assign set rows col).
Proof.
  intros HP HQ Hstep. revert col HQ.
  induction HP as [| r tl Hr Htl IH]; intros col HQ; simpl.
  - constructor.
  - destruct col as [| c col]; [constructor |].
    inversion HQ; subst. constructor; [now apply Hstep | now apply IH].
Qed.

(** ** Cutting with the two fixed edge lists *)

Lemma cut_segment (scores : list (option Z)) :
  cut scores segment_bins segment_labels true = Ok (map segment_of scores).
Proof. reflexivity. Qed.

Lemma cut_status (differences : list Z) :
  cut (map Some differences) delivery_bins status_order false
  = Ok (map status_of differences).
Proof.
  unfold cut, bins_to_cuts. simpl. f_equal. now rewrite map_map.
Qed.

Ltac split_comparisons :=
  repeat match goal with
         | |- context [?a <? ?b] => destruct (Z.ltb_spec a b)
         | |- context [?a =? ?b] => destruct (Z.eqb_spec a b)
         end.

Lemma segment_of_thresholds (c : Z) :
  (0 <= c <= 4 -> segment_of (Some c) = Some "Bronze")
  /\ (4 < c <= 8 -> segment_of (Some c) = Some "Silver")
  /\ (8 < c <= 12 -> segment_of (Some c) = Some "Gold")
  /\ (12 < c <= 15 -> segment_of (Some c) = Some "Platinum").
Proof.
  unfold segment_of, bin_label, segment_bins, segment_labels,
    first_edge_is, searchsorted_left, edge_ltb_val, edge_eqb.
  repeat split; intros H; split_comparisons; try lia; reflexivity.
Qed.

Lemma status_of_thresholds (d : Z) :
  (d <= -3 -> status_of d = Some "Very Early")
  /\ (-3 < d <= -1 -> status_of d = Some "Early")
  /\ (-1 < d <= 0 -> status_of d = Some "On Time")
  /\ (0 < d <= 2 -> status_of d = Some "Late")
  /\ (2 < d -> status_of d = Some "Very Late").
Proof.
  unfold status_of, bin_label, delivery_bins, status_order,
    first_edge_is, searchsorted_left, edge_ltb_val, edge_eqb.
  repeat split; intros H; split_comparisons; try lia; reflexivity.
Qed.

(** ** The scoring block, unfolded *)

Lemma set_r_score_same (row : RFMRecord) : set_r_score row (r_score row) = row.
Proof. now destruct row. Qed.

Lemma set_f_score_same (row : RFMRecord) : set_f_score row (f_score row) = row.
Proof. now destruct row. Qed.

Lemma set_m_score_same (row : RFMRecord) : set_m_score row (m_score row) = row.
Proof. now destruct row. Qed.

Lemma assign_same {R C : Type} (set : R -> C -> R) (get : R -> C)
  (rows : list R) :
  (forall r, set r (get r) = r) -> assign set rows (map get rows) = rows.
Proof.
  intros H. rewrite assign_map. rewrite <- (map_id rows) at 2.
  apply map_ext. exact H.
Qed.

(** Once the three score columns are in, the rest of the block is a
    row-by-row map. *)
Lemma score_rfm_unfold (rfm : list RFMRecord) :
  score_rfm rfm =
  bind (r_score_column rfm) (fun r =>
  bind (f_score_column (assign set_r_score rfm r)) (fun f =>
  bind (m_score_column (assign set_f_score (assign set_r_score rfm r) f))
    (fun m =>
       Ok (map finish_row
             (assign set_m_score
                (assign set_f_score (assign set_r_score rfm r) f) m))))).
Proof.
  unfold score_rfm.
  destruct (r_score_column rfm) as [r |]; [| reflexivity]. cbn [bind].
  destruct (f_score_column _) as [f |]; [| reflexivity]. cbn [bind].
  destruct (m_score_column _) as [m |]; [| reflexivity]. cbn [bind].
  unfold to_numeric.
  rewrite (assign_same set_r_score r_score) by apply set_r_score_same.
  rewrite (assign_same set_f_score f_score) by apply set_f_score_same.
  rewrite (assign_same set_m_score m_score) by apply set_m_score_same.
  rewrite cut_segment. cbn [bind].
  rewrite (assign_map set_rfm_score).
  rewrite (map_map rfm_score segment_of).
  rewrite (assign_map set_segment), map_map.
  f_equal.
Qed.

(** ** Bin numbers and labels *)

Lemma searchsorted_lt_length (bins : list edge) (x : Z) :
  (exists e, In e bins /\ edge_ltb_val e x = false) ->
  (searchsorted_left bins x < List.length bins)%nat.
Proof.
  induction bins as [| b tl IH]; intros [e [Hin He]]; simpl in *.
  - contradiction.
  - destruct (edge_ltb_val b x) eqn:E; [| lia].
    destruct Hin as [-> | Hin]; [congruence |].
    apply -> Nat.succ_lt_mono. apply IH. eauto.
Qed.

(** A value that is not below the first edge and not above some edge gets
    a label. *)
Lemma bin_label_some {L : Type} (b0 : Z) (tl : list edge) (labels : list L)
  (il : bool) (x : Z) :
  labels <> [] ->
  List.length labels = (List.length (At b0 :: tl) - 1)%nat ->
  b0 <= x -> (il = true \/ b0 < x) ->
  (exists e, In e (At b0 :: tl) /\ edge_ltb_val e x = false) ->
  exists l, bin_label (At b0 :: tl) labels il (Some x) = Some l
            /\ In l labels.
Proof.
  intros Hne Hlen Hle Hil Hup.
  pose proof (searchsorted_lt_length _ _ Hup) as Hlt.
  unfold bin_label. cbv zeta.
  remember (if il && first_edge_is (At b0 :: tl) x then 1%nat
            else searchsorted_left (At b0 :: tl) x) as ids eqn:Hids.
  assert (Hrange : (1 <= ids < List.length (At b0 :: tl))%nat).
  { subst ids. destruct (il && first_edge_is (At b0 :: tl) x) eqn:E.
    - split; [lia |]. destruct labels; [congruence |].
      simpl in Hlen |- *. lia.
    - split; [| exact Hlt].
      assert (Hb : b0 < x).
      { destruct Hil as [-> | H]; [| exact H].
        simpl in E. apply Z.eqb_neq in E. lia. }
      simpl. destruct (Z.ltb_spec b0 x); lia. }
  destruct ((ids =? List.length (At b0 :: tl))%nat || (ids =? 0)%nat) eqn:E.
  - apply orb_true_iff in E.
    destruct E as [E | E]; apply Nat.eqb_eq in E; lia.
  - destruct (nth_error labels (ids - 1)) as [l |] eqn:En.
    + exists l. split; [reflexivity |]. eapply nth_error_In; eauto.
    + apply nth_error_None in En. lia.
Qed.

(** With [duplicates='drop'], a column whose scaled values lie between
    the first and some edge is labelled without any missing cell. *)
Lemma bins_to_cuts_labels {L : Type} (x : list Z) (scale b0 : Z)
  (tl : list edge) (labels : list L) (il : bool)
  (out : list (option L)) :
  labels <> [] ->
  (forall v, In v x ->
     b0 <= scale * v /\ (il = true \/ b0 < scale * v)
     /\ exists e, In e (At b0 :: tl)
                  /\ edge_ltb_val e (scale * v) = false) ->
  bins_to_cuts (map (fun v => Some (scale * v)) x) (At b0 :: tl) labels il
    true = Ok out ->
  List.length out = List.length x
  /\ Forall (fun c => exists l, c = Some l /\ In l labels) out.
Proof.
  intros Hne Hx. unfold bins_to_cuts.
  assert (Hb : exists tl',
             (if (List.length (unique edge_eqb (At b0 :: tl))
                  <? List.length (At b0 :: tl))%nat
                 && negb (List.length (At b0 :: tl) =? 2)%nat
              then Ok (unique edge_eqb (At b0 :: tl))
              else Ok (At b0 :: tl)) = Ok (At b0 :: tl')
             /\ forall e, In e (At b0 :: tl) -> In e (At b0 :: tl')).
  { destruct (_ && _).
    - exists (unique_acc edge_eqb [At b0] tl). split; [reflexivity |].
      intros e He.
      apply (unique_In edge_eqb edge_eqb_eq (At b0 :: tl) e) in He.
      exact He.
    - exists tl. split; [reflexivity | auto]. }
  destruct Hb as [tl' [-> Hin]]. cbn [bind].
  destruct (negb _) eqn:Elen; [discriminate |].
  apply negb_false_iff, Nat.eqb_eq in Elen.
  intros H. inversion H; subst out; clear H.
  split; [now rewrite !length_map |].
  rewrite map_map. apply Forall_forall. intros c Hc.
  apply in_map_iff in Hc. destruct Hc as [v [<- Hv]].
  destruct (Hx v Hv) as [Hle [Hil [e [He Hlt]]]].
  destruct (bin_label_some b0 tl' labels il (scale * v) Hne Elen Hle Hil)
    as [l [Hl Hinl]].
  - exists e. split; [now apply Hin | exact Hlt].
  - exists l. split; [exact Hl | exact Hinl].
Qed.

(** Distinct edges and matching labels: no [ValueError]. *)
Lemma bins_to_cuts_ok {L : Type} (x : list (option Z)) (bins : list edge)
  (labels : list L) (il dd : bool) :
  NoDup bins -> List.length labels = (List.length bins - 1)%nat ->
  bins_to_cuts x bins labels il dd = Ok (map (bin_label bins labels il) x).
Proof.
  intros Hnd Hlen. unfold bins_to_cuts.
  rewrite (unique_id edge_eqb edge_eqb_eq) by exact Hnd.
  rewrite Nat.ltb_irrefl. cbn [andb bind].
  now rewrite Hlen, Nat.eqb_refl.
Qed.

(** ** Sorting a column *)

Lemma insert_sorted_perm (v : Z) (l : list Z) :
  Permutation (insert_sorted v l) (v :: l).
Proof.
  induction l as [| h tl IH]; simpl; [reflexivity |].
  destruct (v <=? h); [reflexivity |].
  rewrite IH. apply perm_swap.
Qed.

Lemma sort_perm (l : list Z) : Permutation (sort l) l.
Proof.
  induction l as [| h tl IH]; simpl; [reflexivity |].
  unfold sort in *. simpl. rewrite insert_sorted_perm. now constructor.
Qed.

Lemma insert_sorted_sorted (v : Z) (l : list Z) :
  StronglySorted Z.le l -> StronglySorted Z.le (insert_sorted v l).
Proof.
  induction 1 as [| h tl Hs IH Hall]; simpl.
  - repeat constructor.
  - destruct (Z.leb_spec v h).
    + constructor; [now constructor |].
      constructor; [exact H |].
      eapply Forall_impl; [| exact Hall]. intros; simpl in *; lia.
    + constructor; [exact IH |].
      apply Forall_forall. intros x Hx.
      apply (Permutation_in _ (insert_sorted_perm v tl)) in Hx.
      destruct Hx as [<- | Hx]; [lia |].
      rewrite Forall_forall in Hall. now apply Hall.
Qed.

Lemma sort_sorted (l : list Z) : StronglySorted Z.le (sort l).
Proof.
  induction l as [| h tl IH]; [constructor |].
  unfold sort in *. simpl. now apply insert_sorted_sorted.
Qed.

Lemma sorted_nth (R : Z -> Z -> Prop) (a : list Z) :
  StronglySorted R a ->
  forall i j, (i < j < List.length a)%nat -> R (nth i a 0) (nth j a 0).
Proof.
  induction 1 as [| h tl Hs IH Hall]; intros i j Hij; simpl in *; [lia |].
  destruct j as [| j]; [lia |]. destruct i as [| i].
  - rewrite Forall_forall in Hall. apply Hall, nth_In. lia.
  - apply IH. lia.
Qed.

Lemma sorted_nth_le (a : list Z) :
  StronglySorted Z.le a ->
  forall i j, (i <= j < List.length a)%nat -> nth i a 0 <= nth j a 0.
Proof.
  intros Hs i j Hij. destruct (Nat.eq_dec i j) as [-> | Hne]; [lia |].
  apply (sorted_nth Z.le a Hs). lia.
Qed.

Lemma sorted_nodup_strict (a : list Z) :
  StronglySorted Z.le a -> NoDup a -> StronglySorted Z.lt a.
Proof.
  induction 1 as [| h tl Hs IH Hall]; intros Hnd; constructor.
  - apply IH. now inversion Hnd.
  - inversion Hnd as [| ? ? Hh Htl]; subst.
    rewrite Forall_forall in *. intros x Hx.
    specialize (Hall x Hx).
    assert (x <> h) by (intros ->; contradiction). lia.
Qed.

(** Every value of the column lies between the first and the last entry
    of the sorted column. *)
Lemma sort_bounds (x : list Z) (v : Z) :
  In v x ->
  nth 0 (sort x) 0 <= v <= nth (List.length (sort x) - 1) (sort x) 0.
Proof.
  intros Hv.
  apply (Permutation_in _ (Permutation_sym (sort_perm x))) in Hv.
  destruct (In_nth _ _ 0 Hv) as [i [Hi <-]].
  split; apply sorted_nth_le; try apply sort_sorted; lia.
Qed.

(** ** Quantile edges *)

Lemma quantile_edge_first (a : list Z) :
  quantile_edge 5 a 0 = 5 * nth 0 a 0.
Proof.
  unfold quantile_edge. change (Z.of_nat 0) with 0.
  rewrite Z.mul_0_r. change (0 / 5) with 0. change (0 mod 5) with 0.
  change (Z.to_nat 0) with 0%nat. lia.
Qed.

Lemma quantile_edge_last (a : list Z) :
  a <> [] ->
  quantile_edge 5 a 5 = 5 * nth (List.length a - 1) a 0.
Proof.
  intros Hne. unfold quantile_edge. change (Z.of_nat 5) with 5.
  assert (Hn : (1 <= List.length a)%nat).
  { destruct a; [congruence | simpl; lia]. }
  rewrite Z.div_mul, Z.mod_mul by lia.
  replace (Z.to_nat (Z.of_nat (List.length a) - 1))
    with (List.length a - 1)%nat by lia.
  lia.
Qed.

Lemma qcut_unfold {L : Type} (x : list Z) (labels : list L) :
  x <> [] ->
  qcut x 5 labels =
  bins_to_cuts (map (fun v => Some (5 * v)) x)
    (At (quantile_edge 5 (sort x) 0)
     :: map (fun k => At (quantile_edge 5 (sort x) k)) [1; 2; 3; 4; 5]%nat)
    labels true true.
Proof. destruct x; [congruence | reflexivity]. Qed.

(** Whenever [qcut] returns, every row has one of the labels. *)
Lemma qcut_labels {L : Type} (x : list Z) (labels : list L)
  (out : list (option L)) :
  labels <> [] ->
  qcut x 5 labels = Ok out ->
  List.length out = List.length x
  /\ Forall (fun c => exists l, c = Some l /\ In l labels) out.
Proof.
  intros Hne H.
  assert (Hx : x <> []) by (intros ->; discriminate).
  rewrite qcut_unfold in H by exact Hx.
  eapply bins_to_cuts_labels; [exact Hne | | exact H].
  intros v Hv. pose proof (sort_bounds x v Hv) as [Hlo Hhi].
  assert (Hs : sort x <> []).
  { intros E. pose proof (Permutation_length (sort_perm x)) as Hl.
    rewrite E in Hl. destruct x; [congruence | discriminate]. }
  rewrite quantile_edge_first. split; [lia |]. split; [now left |].
  exists (At (quantile_edge 5 (sort x) 5)). split.
  - simpl. tauto.
  - rewrite quantile_edge_last by exact Hs. cbn [edge_ltb_val].
    apply Z.ltb_ge. lia.
Qed.

(** ** Equal-width edges *)

Lemma minimum_le (l : list Z) (x : Z) :
  minimum x l <= x /\ forall v, In v l -> minimum x l <= v.
Proof.
  revert x. induction l as [| y tl IH]; intros x; simpl.
  - split; [lia | intros v []].
  - destruct (IH (Z.min x y)) as [H1 H2]. split; [lia |].
    intros v [<- | Hv]; [lia | now apply H2].
Qed.

Lemma maximum_ge (l : list Z) (x : Z) :
  x <= maximum x l /\ forall v, In v l -> v <= maximum x l.
Proof.
  revert x. induction l as [| y tl IH]; intros x; simpl.
  - split; [lia | intros v []].
  - destruct (IH (Z.max x y)) as [H1 H2]. split; [lia |].
    intros v [<- | Hv]; [lia | now apply H2].
Qed.

Lemma increasing_edges_NoDup (zs : list Z) :
  StronglySorted Z.lt zs -> NoDup (map At zs).
Proof.
  induction 1 as [| h tl Hs IH Hall]; simpl; constructor; [| exact IH].
  intros Hin. apply in_map_iff in Hin. destruct Hin as [z [Hz Hin]].
  inversion Hz; subst. rewrite Forall_forall in Hall.
  specialize (Hall _ Hin). lia.
Qed.

Lemma equal_width_edges_5 (mn mx : Z) :
  exists b0 b1 b2 b3 b4 b5,
    equal_width_edges 5 mn mx = map At [b0; b1; b2; b3; b4; b5]
    /\ (mn <= mx ->
        b0 < 5000 * mn /\ 5000 * mx <= b5
        /\ b0 < b1 /\ b1 < b2 /\ b2 < b3 /\ b3 < b4 /\ b4 < b5).
Proof.
  unfold equal_width_edges, linspace_edges, lower_first, widen_down, widen_up.
  destruct (Z.eqb_spec mn mx) as [-> | Hne].
  - do 6 eexists. split; [reflexivity |]. intros _.
    destruct (Z.eqb_spec mx 0); cbn [Z.of_nat Pos.of_succ_nat Pos.succ]; lia.
  - do 6 eexists. split; [reflexivity |]. intros Hle.
    cbn [Z.of_nat Pos.of_succ_nat Pos.succ]. lia.
Qed.

(** [pd.cut(x, bins=5, labels=..., duplicates='drop')] never raises on a
    non-empty column and labels every row. *)
Lemma cut_nbins_labels {L : Type} (x : list Z) (labels : list L) :
  x <> [] -> List.length labels = 5%nat ->
  exists out, cut_nbins x 5 labels = Ok out
              /\ List.length out = List.length x
              /\ Forall (fun c => exists l, c = Some l /\ In l labels) out.
Proof.
  intros Hx Hlen. destruct x as [| x0 tl]; [congruence |].
  unfold cut_nbins. change (5 <? 1) with false. cbv iota.
  set (mn := minimum x0 tl). set (mx := maximum x0 tl).
  destruct (minimum_le tl x0) as [Hmn0 Hmn].
  destruct (maximum_ge tl x0) as [Hmx0 Hmx].
  fold mn in Hmn0, Hmn. fold mx in Hmx0, Hmx.
  destruct (equal_width_edges_5 mn mx)
    as (b0 & b1 & b2 & b3 & b4 & b5 & -> & Hb).
  destruct Hb as (H0 & H5 & H01 & H12 & H23 & H34 & H45); [lia |].
  assert (Hnd : NoDup (map At [b0; b1; b2; b3; b4; b5])).
  { apply increasing_edges_NoDup.
    repeat (constructor; [| repeat constructor; lia]). constructor. }
  eexists. split.
  - apply bins_to_cuts_ok; [exact Hnd | now rewrite Hlen].
  - assert (Hne : labels <> []) by (intros ->; discriminate).
    apply (bins_to_cuts_labels (x0 :: tl) (1000 * 5) b0
             (map At [b1; b2; b3; b4; b5]) labels false); [exact Hne | |].
    + intros v Hv.
      assert (mn <= v <= mx).
      { destruct Hv as [<- | Hv]; [lia |].
        split; [now apply Hmn | now apply Hmx]. }
      split; [lia |]. split; [right; lia |].
      exists (At b5). split; [simpl; tauto |]. cbn [edge_ltb_val].
      apply Z.ltb_ge. lia.
    + apply (bins_to_cuts_ok _ (map At [b0; b1; b2; b3; b4; b5]));
        [exact Hnd | now rewrite Hlen].
Qed.

(** ** The three score columns *)

Lemma rank_from_length (all before l : list Z) :
  List.length (rank_from all before l) = List.length l.
Proof.
  revert before. induction l as [| v tl IH]; intros before; simpl;
    [reflexivity | now rewrite IH].
Qed.

Lemma rank_first_length (l : list Z) :
  List.length (rank_first l) = List.length l.
Proof. apply rank_from_length. Qed.

Lemma broadcast_3 (col : list Z) :
  List.length (broadcast 3 col) = List.length col
  /\ Forall (fun c => c = Some 3) (broadcast 3 col).
Proof.
  unfold broadcast. split; [apply length_map |].
  apply Forall_forall. intros c Hc. apply in_map_iff in Hc.
  now destruct Hc as [_ [<- _]].
Qed.

(** The shape shared by the three score assignments: neutral 3, or the
    quantile cut of [ranked], or the equal-width cut of [col]. *)
Lemma score_column_total (col ranked labels : list Z) :
  List.length labels = 5%nat ->
  (forall l, In l labels -> 1 <= l <= 5) ->
  List.length ranked = List.length col ->
  exists out,
    (if (nunique Z.eqb col <? 5)%nat then Ok (broadcast 3 col)
     else try_except (qcut ranked 5 labels) (cut_nbins col 5 labels))
    = Ok out
    /\ List.length out = List.length col
    /\ Forall is_score out
    /\ ((nunique Z.eqb col < 5)%nat -> Forall (fun c => c = Some 3) out).
Proof.
  intros Hlen Hlab Hranked.
  assert (Hne : labels <> []) by (intros ->; discriminate).
  assert (Hscore : forall out : list (option Z),
             Forall (fun c => exists l, c = Some l /\ In l labels) out ->
             Forall is_score out).
  { intros out. apply Forall_impl. intros c [l [-> Hl]].
    exists l. split; [reflexivity | now apply Hlab]. }
  destruct (Nat.ltb_spec (nunique Z.eqb col) 5) as [Hfew | Hmany].
  - exists (broadcast 3 col). destruct (broadcast_3 col) as [Hl H3].
    repeat split; try assumption; [| tauto].
    eapply Forall_impl; [| exact H3]. intros c ->. exists 3. split; [easy | lia].
  - destruct (qcut ranked 5 labels) as [out |] eqn:Eq; cbn [try_except].
    + destruct (qcut_labels ranked labels out Hne Eq) as [Hl Hall].
      exists out. repeat split; [lia | now apply Hscore | lia].
    + assert (Hcol : col <> []).
      { intros ->. unfold nunique, unique in Hmany. simpl in Hmany. lia. }
      destruct (cut_nbins_labels col labels Hcol Hlen) as [out [E [Hl Hall]]].
      exists out. repeat split; [exact E | exact Hl | now apply Hscore | lia].
Qed.

Lemma labels_desc (l : Z) : In l [5; 4; 3; 2; 1] -> 1 <= l <= 5.
Proof. simpl. lia. Qed.

Lemma labels_asc (l : Z) : In l [1; 2; 3; 4; 5] -> 1 <= l <= 5.
Proof. simpl. lia. Qed.

Lemma scored_Forall (Pr Pf Pm : option Z -> Prop) (rfm : list RFMRecord)
  (r f m : list (option Z)) :
  Forall Pr r -> Forall Pf f -> Forall Pm m ->
  Forall (fun row => Pr (r_score row) /\ Pf (f_score row)
                     /\ Pm (m_score row))
         (scored rfm r f m).
Proof.
  intros Hr Hf Hm. unfold scored.
  apply (assign_Forall set_m_score
           (fun row => Pr (r_score row) /\ Pf (f_score row)) Pm);
    [| exact Hm | intros row c [H1 H2] H3; simpl; tauto].
  apply (assign_Forall set_f_score (fun row => Pr (r_score row)) Pf);
    [| exact Hf | intros row c H1 H2; simpl; tauto].
  apply (assign_Forall set_r_score (fun _ => True) Pr);
    [| exact Hr | intros row c _ H; exact H].
  apply Forall_forall. trivial.
Qed.

Lemma scored_keeps {K : Type} (key : RFMRecord -> K) (rfm : list RFMRecord)
  (r f m : list (option Z)) :
  List.length r = List.length rfm -> List.length f = List.length rfm ->
  List.length m = List.length rfm ->
  (forall row c, key (set_r_score row c) = key row) ->
  (forall row c, key (set_f_score row c) = key row) ->
  (forall row c, key (set_m_score row c) = key row) ->
  map key (scored rfm r f m) = map key rfm.
Proof.
  intros Hr Hf Hm Kr Kf Km. unfold scored.
  rewrite (assign_keeps set_m_score key), (assign_keeps set_f_score key),
    (assign_keeps set_r_score key); try assumption; try reflexivity.
  - rewrite assign_length; assumption.
  - rewrite !assign_length; try assumption. rewrite assign_length; assumption.
Qed.

(** The scoring block never raises; its outcome is [finish_row] over the
    frame with the three score columns. *)
Lemma score_rfm_columns (rfm : list RFMRecord) :
  exists r f m,
    r_score_column rfm = Ok r /\ f_score_column rfm = Ok f
    /\ m_score_column rfm = Ok m
    /\ List.length r = List.length rfm /\ List.length f = List.length rfm
    /\ List.length m = List.length rfm
    /\ Forall is_score r /\ Forall is_score f /\ Forall is_score m
    /\ ((nunique Z.eqb (map recency rfm) < 5)%nat ->
        Forall (fun c => c = Some 3) r)
    /\ ((nunique Z.eqb (map frequency rfm) < 5)%nat ->
        Forall (fun c => c = Some 3) f)
    /\ ((nunique Z.eqb (map monetary rfm) < 5)%nat ->
        Forall (fun c => c = Some 3) m)
    /\ score_rfm rfm = Ok (map finish_row (scored rfm r f m)).
Proof.
  destruct (score_column_total (map recency rfm) (map recency rfm)
              [5; 4; 3; 2; 1] eq_refl labels_desc eq_refl)
    as (r & Er & Lr & Sr & Nr).
  destruct (score_column_total (map frequency rfm)
              (rank_first (map frequency rfm)) [1; 2; 3; 4; 5] eq_refl
              labels_asc (rank_first_length _))
    as (f & Ef & Lf & Sf & Nf).
  destruct (score_column_total (map monetary rfm)
              (rank_first (map monetary rfm)) [1; 2; 3; 4; 5] eq_refl
              labels_asc (rank_first_length _))
    as (m & Em & Lm & Sm & Nm).
  rewrite length_map in Lr, Lf, Lm.
  exists r, f, m. repeat split; try assumption.
  rewrite score_rfm_unfold.
  change (r_score_column rfm) with
    (if (nunique Z.eqb (map recency rfm) <? 5)%nat
     then Ok (broadcast 3 (map recency rfm))
     else try_except (qcut (map recency rfm) 5 [5; 4; 3; 2; 1])
                     (cut_nbins (map recency rfm) 5 [5; 4; 3; 2; 1])).
  rewrite Er. cbn [bind].
  unfold f_score_column.
  rewrite (assign_keeps set_r_score frequency) by (assumption || reflexivity).
  rewrite Ef. cbn [bind].
  unfold m_score_column.
  rewrite (assign_keeps set_f_score monetary), (assign_keeps set_r_score monetary);
    try assumption; try reflexivity;
    [| rewrite assign_length; assumption].
  rewrite Em. reflexivity.
Qed.

Lemma finish_row_keeps (row : RFMRecord) :
  rfm_customer_id (finish_row row) = rfm_customer_id row
  /\ recency (finish_row row) = recency row
  /\ frequency (finish_row row) = frequency row
  /\ monetary (finish_row row) = monetary row
  /\ r_score (finish_row row) = r_score row
  /\ f_score (finish_row row) = f_score row
  /\ m_score (finish_row row) = m_score row
  /\ rfm_score (finish_row row) = total_of row
  /\ segment (finish_row row) = segment_of (total_of row).
Proof. repeat split. Qed.

Lemma finished_population (rfm : list RFMRecord) (r f m : list (option Z)) :
  List.length r = List.length rfm -> List.length f = List.length rfm ->
  List.length m = List.length rfm ->
  same_population rfm (map finish_row (scored rfm r f m)).
Proof.
  intros Hr Hf Hm. unfold same_population. rewrite !map_map.
  repeat split;
    (erewrite map_ext; [apply scored_keeps; try assumption; reflexivity |]);
    reflexivity.
Qed.

(* ================================================================== *)
(** * Properties of the segmentation *)
(* ================================================================== *)

(** C1.  Whatever the frame, the scoring block returns a frame over the
    same customers, and a metric (recency, frequency or monetary) with
    fewer than 5 distinct values in the population gives every customer
    the score 3 for that metric. *)
Theorem neutral_score_when_few_distinct_values (rfm : list RFMRecord) :
  exists out,
    score_rfm rfm = Ok out
    /\ same_population rfm out
    /\ ((nunique Z.eqb (map recency rfm) < 5)%nat ->
        Forall (fun row => r_score row = Some 3) out)
    /\ ((nunique Z.eqb (map frequency rfm) < 5)%nat ->
        Forall (fun row => f_score row = Some 3) out)
    /\ ((nunique Z.eqb (map monetary rfm) < 5)%nat ->
        Forall (fun row => m_score row = Some 3) out).
Proof.
  destruct (score_rfm_columns rfm)
    as (r & f & m & _ & _ & _ & Lr & Lf & Lm & _ & _ & _ & Nr & Nf & Nm & E).
  exists (map finish_row (scored rfm r f m)).
  split; [exact E |]. split; [now apply finished_population |].
  assert (Htrue : forall col : list (option Z), Forall (fun _ => True) col).
  { intros col. apply Forall_forall. trivial. }
  repeat split; intros Hfew; apply Forall_map.
  - eapply Forall_impl;
      [| apply (scored_Forall (fun c => c = Some 3) (fun _ => True)
                  (fun _ => True) rfm r f m); auto].
    intros row (H & _ & _). exact H.
  - eapply Forall_impl;
      [| apply (scored_Forall (fun _ => True) (fun c => c = Some 3)
                  (fun _ => True) rfm r f m); auto].
    intros row (_ & H & _). exact H.
  - eapply Forall_impl;
      [| apply (scored_Forall (fun _ => True) (fun _ => True)
                  (fun c => c = Some 3) rfm r f m); auto].
    intros row (_ & _ & H). exact H.
Qed.

(** C3.  The scoring block never raises, keeps every customer, and gives
    each of them three scores in 1..5 whose sum, the composite
    [rfm_score], is an integer between 3 and 15; so does the tab for any
    dataset and window. *)
Theorem composite_score_between_3_and_15 :
  (forall rfm : list RFMRecord,
     exists out,
       score_rfm rfm = Ok out
       /\ same_population rfm out
       /\ Forall (fun row =>
                    exists r f m,
                      r_score row = Some r /\ f_score row = Some f
                      /\ m_score row = Some m
                      /\ rfm_score row = Some (r + f + m)
                      /\ 3 <= r + f + m <= 15) out)
  /\ (forall (data : Data) (start_date end_date : Z),
        exists view,
          tab2 data start_date end_date = Ok view
          /\ Forall (fun row =>
                       exists c, rfm_score row = Some c /\ 3 <= c <= 15)
                    (rfm_records view)).
Proof.
  assert (Hframe : forall rfm : list RFMRecord,
     exists out,
       score_rfm rfm = Ok out
       /\ same_population rfm out
       /\ Forall (fun row =>
                    exists r f m,
                      r_score row = Some r /\ f_score row = Some f
                      /\ m_score row = Some m
                      /\ rfm_score row = Some (r + f + m)
                      /\ 3 <= r + f + m <= 15) out).
  { intros rfm.
    destruct (score_rfm_columns rfm)
      as (r & f & m & _ & _ & _ & Lr & Lf & Lm & Sr & Sf & Sm & _ & _ & _ & E).
    exists (map finish_row (scored rfm r f m)).
    split; [exact E |]. split; [now apply finished_population |].
    apply Forall_map.
    eapply Forall_impl;
      [| apply (scored_Forall is_score is_score is_score rfm r f m);
         assumption].
    intros row ([a [Ha Ra]] & [b [Hb Rb]] & [c [Hc Rc]]).
    exists a, b, c.
    destruct (finish_row_keeps row) as (_ & _ & _ & _ & -> & -> & -> & -> & _).
    unfold total_of. rewrite Ha, Hb, Hc. simpl.
    repeat split; try reflexivity; lia. }
  split; [exact Hframe |].
  intros data start_date end_date. unfold tab2.
  destruct (0 <? _)%nat.
  - destruct (Hframe (rfm_frame end_date
                        (orders_with_payments data start_date end_date)))
      as (out & -> & _ & Hall).
    exists (RFMTable out). split; [reflexivity |]. simpl.
    eapply Forall_impl; [| exact Hall].
    intros row (r & f & m & _ & _ & _ & H & Hr). eauto.
  - exists RFMWarning. split; [reflexivity | constructor].
Qed.

(** C2.  The segment column is the cell-wise image of the composite score
    under one fixed function: totals in [0,4] are Bronze, (4,8] Silver,
    (8,12] Gold, (12,15] Platinum.  A customer whose three scores are 3
    has the total 9 and is Gold. *)
Theorem segment_fixed_thresholds :
  (forall scores,
     cut scores segment_bins segment_labels true
     = Ok (map segment_of scores))
  /\ (forall rfm out,
        score_rfm rfm = Ok out ->
        Forall (fun row => segment row = segment_of (rfm_score row)) out)
  /\ (forall c,
        (0 <= c <= 4 -> segment_of (Some c) = Some "Bronze")
        /\ (4 < c <= 8 -> segment_of (Some c) = Some "Silver")
        /\ (8 < c <= 12 -> segment_of (Some c) = Some "Gold")
        /\ (12 < c <= 15 -> segment_of (Some c) = Some "Platinum"))
  /\ (forall rfm out row,
        score_rfm rfm = Ok out -> In row out ->
        r_score row = Some 3 -> f_score row = Some 3 ->
        m_score row = Some 3 ->
        rfm_score row = Some 9 /\ segment row = Some "Gold").
Proof.
  assert (Hrows : forall rfm out,
             score_rfm rfm = Ok out ->
             forall row, In row out ->
               rfm_score row
               = add_cells (add_cells (r_score row) (f_score row))
                           (m_score row)
               /\ segment row = segment_of (rfm_score row)).
  { intros rfm out E row Hrow.
    destruct (score_rfm_columns rfm)
      as (r & f & m & _ & _ & _ & _ & _ & _ & _ & _ & _ & _ & _ & _ & H).
    rewrite H in E.
    inversion E; subst out; clear E.
    apply in_map_iff in Hrow. destruct Hrow as [x [<- _]].
    split; reflexivity. }
  split; [exact cut_segment |]. split; [| split].
  - intros rfm out E. apply Forall_forall. intros row Hrow.
    now destruct (Hrows rfm out E row Hrow).
  - exact segment_of_thresholds.
  - intros rfm out row E Hrow Hr Hf Hm.
    destruct (Hrows rfm out E row Hrow) as [Ht Hs].
    rewrite Hr, Hf, Hm in Ht. simpl in Ht.
    rewrite Hs, Ht. split; reflexivity.
Qed.

(** The one-customer scenario: recency 0, frequency 1, monetary R$ 100,
    three neutral scores, total 9, Gold. *)
Example single_customer_is_gold :
  tab2 single_order_data (day 17532) (day 17532)
  = Ok (RFMTable
          [ {| rfm_customer_id := "A"; recency := 0; frequency := 1;
               monetary := 10000; r_score := Some 3; f_score := Some 3;
               m_score := Some 3; rfm_score := Some 9;
               segment := Some "Gold" |} ]).
Proof. reflexivity. Qed.

Lemma segment_fixed_thresholds_witness :
  8 < 9 <= 12 /\ segment_of (Some 9) = Some "Gold".
Proof.
  split; [lia |].
  apply (proj1 (proj2 (proj2
           (proj1 (proj2 (proj2 segment_fixed_thresholds)) 9)))).
  lia.
Defined.

Lemma neutral_score_witness :
  (nunique Z.eqb (map recency [new_rfm_row "A" 0 1 10000]) < 5)%nat
  /\ exists out,
       score_rfm [new_rfm_row "A" 0 1 10000] = Ok out
       /\ Forall (fun row => r_score row = Some 3) out.
Proof.
  assert (H : (nunique Z.eqb (map recency [new_rfm_row "A" 0 1 10000]) < 5)%nat).
  { apply Nat.ltb_lt. reflexivity. }
  split; [exact H |].
  destruct (neutral_score_when_few_distinct_values
              [new_rfm_row "A" 0 1 10000]) as (out & E & _ & Hr & _).
  exists out. split; [exact E | exact (Hr H)].
Defined.

(* ================================================================== *)
(** * Properties of the filters *)
(* ================================================================== *)

Lemma filter_subframe {A : Type} (f : A -> bool) (l : list A) :
  subframe (filter f l) l.
Proof.
  induction l as [| x tl IH]; simpl; [constructor |].
  destruct (f x); now constructor.
Qed.

Lemma filter_nothing {A : Type} (f : A -> bool) (l : list A) :
  (forall x, In x l -> f x = false) -> filter f l = [].
Proof.
  induction l as [| x tl IH]; intros H; simpl; [reflexivity |].
  rewrite (H x) by now left. apply IH. intros y Hy. apply H. now right.
Qed.

Lemma in_window_bounds (start_date end_date : Z) (o : Order) :
  in_window start_date end_date o = true <->
  start_date <= order_purchase_timestamp o <= end_date.
Proof.
  unfold in_window. rewrite andb_true_iff, !Z.leb_le. tauto.
Qed.

(** C5.  For every window, the date filter of tab 1 and the date and
    status filter of tab 2 return rows of the orders table, in order,
    whose purchase time lies in [start_date, end_date] (and no other row
    of the window is left out); a window with [end_date < start_date]
    gives the empty frame. *)
Theorem date_filter_within_window (data : Data) (start_date end_date : Z) :
  (subframe (filtered_orders data start_date end_date) (orders data)
   /\ (forall o, In o (filtered_orders data start_date end_date) ->
         start_date <= order_purchase_timestamp o <= end_date)
   /\ (forall o, In o (orders data) ->
         start_date <= order_purchase_timestamp o <= end_date ->
         In o (filtered_orders data start_date end_date))
   /\ (end_date < start_date ->
       filtered_orders data start_date end_date = []))
  /\ (subframe (filtered_orders_rfm data start_date end_date) (orders data)
      /\ (forall o, In o (filtered_orders_rfm data start_date end_date) ->
            start_date <= order_purchase_timestamp o <= end_date
            /\ order_status o = "delivered")
      /\ (forall o, In o (orders data) ->
            start_date <= order_purchase_timestamp o <= end_date ->
            order_status o = "delivered" ->
            In o (filtered_orders_rfm data start_date end_date))
      /\ (end_date < start_date ->
          filtered_orders_rfm data start_date end_date = [])).
Proof.
  unfold filtered_orders, filtered_orders_rfm.
  split; (split; [apply filter_subframe |]); (split; [| split]).
  - intros o Ho. apply filter_In in Ho. now apply in_window_bounds.
  - intros o Ho Hw. apply filter_In. split; [exact Ho |].
    now apply in_window_bounds.
  - intros Hlt. apply filter_nothing. intros o _.
    destruct (in_window start_date end_date o) eqn:E; [| reflexivity].
    apply in_window_bounds in E. lia.
  - intros o Ho. apply filter_In in Ho. destruct Ho as [_ Ho].
    apply andb_true_iff in Ho. destruct Ho as [Hw Hs].
    split; [now apply in_window_bounds | now apply String.eqb_eq].
  - intros o Ho Hw Hs. apply filter_In. split; [exact Ho |].
    apply andb_true_iff. split; [now apply in_window_bounds |].
    now apply String.eqb_eq.
  - intros Hlt. apply filter_nothing. intros o _.
    destruct (in_window start_date end_date o) eqn:E; [| reflexivity].
    apply in_window_bounds in E. lia.
Qed.

Lemma date_filter_within_window_witness :
  day 17533 < day 17540
  /\ filtered_orders single_order_data (day 17540) (day 17533) = [].
Proof.
  assert (H : day 17533 < day 17540) by (vm_compute; reflexivity).
  split; [exact H |].
  exact (proj2 (proj2 (proj2 (proj1
           (date_filter_within_window single_order_data (day 17540)
              (day 17533))))) H).
Defined.

Lemma isin_map_filter {A : Type} (x : string) (g : A -> string)
  (P : A -> bool) (l : list A) :
  isin String.eqb x (map g (filter P l))
  = existsb (fun p => String.eqb (g p) x && P p) l.
Proof.
  unfold isin. induction l as [| a tl IH]; simpl; [reflexivity |].
  destruct (P a); simpl; rewrite IH.
  - now rewrite (String.eqb_sym x), andb_true_r.
  - now rewrite andb_false_r.
Qed.

(** C6, as the code has it.  Without a selected category every joined
    item is kept.  With a (non-empty) category [c] the filter keeps
    exactly the items whose product id belongs to a product whose
    translated category is [c]; a product without a translation is never
    matched, whatever its native category name. *)
Theorem category_filter_translated_only (data : Data)
  (start_date end_date : Z) :
  filtered_items data start_date end_date None
  = joined_items data start_date end_date
  /\ (forall c, c <> "" ->
        filtered_items data start_date end_date (Some c)
        = filter (has_english_category data c)
                 (joined_items data start_date end_date))
  /\ (forall c it,
        has_english_category data c it = true <->
        exists p, In p (products data)
                  /\ product_id p = item_product_id it
                  /\ product_category_name_english p = Some c)
  /\ (forall c it,
        (forall p, In p (products data) ->
           product_id p = item_product_id it ->
           product_category_name_english p = None) ->
        has_english_category data c it = false).
Proof.
  assert (Hiff : forall c it,
        has_english_category data c it = true <->
        exists p, In p (products data)
                  /\ product_id p = item_product_id it
                  /\ product_category_name_english p = Some c).
  { intros c it. unfold has_english_category. rewrite existsb_exists.
    split.
    - intros [p [Hp H]]. apply andb_true_iff in H. destruct H as [Hid Hc].
      exists p. split; [exact Hp |]. split; [now apply String.eqb_eq |].
      destruct (product_category_name_english p) as [e |]; [| discriminate].
      simpl in Hc. apply String.eqb_eq in Hc. now subst.
    - intros [p [Hp [Hid Hc]]]. exists p. split; [exact Hp |].
      rewrite Hid, Hc. simpl. now rewrite !String.eqb_refl. }
  split; [reflexivity |]. split; [| split; [exact Hiff |]].
  - intros c Hc. unfold filtered_items, truthy.
    destruct (String.eqb_spec c ""); [contradiction |]. cbn [negb].
    apply filter_ext. intros it.
    rewrite (isin_unique String.eqb string_eqb_eq), isin_map_filter.
    reflexivity.
  - intros c it Hnone.
    destruct (has_english_category data c it) eqn:E; [| reflexivity].
    apply Hiff in E. destruct E as [p [Hp [Hid Hc]]].
    rewrite (Hnone p Hp Hid) in Hc. discriminate.
Qed.

Lemma category_filter_translated_only_witness :
  "pc_gamer" <> ""
  /\ filtered_items untranslated_data (day 0) (day 10) (Some "pc_gamer")
     = filter (has_english_category untranslated_data "pc_gamer")
              (joined_items untranslated_data (day 0) (day 10)).
Proof.
  assert (H : "pc_gamer" <> "") by discriminate.
  split; [exact H |].
  exact (proj1 (proj2 (category_filter_translated_only untranslated_data
                         (day 0) (day 10))) "pc_gamer" H).
Defined.

(** C6, as stated, fails: the item of product [p1], whose native category
    is pc_gamer and which has no translation, would be kept by a filter
    that falls back to the native name, and the code drops it. *)
Lemma category_filter_fallback_counterexample :
  spec_filter_by_category untranslated_data "pc_gamer"
    (joined_items untranslated_data (day 0) (day 10))
  = [mkOrderItem "o1" "p1" 5000; mkOrderItem "o1" "p2" 7000]
  /\ filtered_items untranslated_data (day 0) (day 10) (Some "pc_gamer")
     = [mkOrderItem "o1" "p2" 7000]
  /\ filtered_items untranslated_data (day 0) (day 10) (Some "pc_gamer")
     <> spec_filter_by_category untranslated_data "pc_gamer"
          (joined_items untranslated_data (day 0) (day 10)).
Proof.
  assert (Hspec : spec_filter_by_category untranslated_data "pc_gamer"
                    (joined_items untranslated_data (day 0) (day 10))
                  = [mkOrderItem "o1" "p1" 5000; mkOrderItem "o1" "p2" 7000])
    by reflexivity.
  assert (Hcode : filtered_items untranslated_data (day 0) (day 10)
                    (Some "pc_gamer")
                  = [mkOrderItem "o1" "p2" 7000]) by reflexivity.
  split; [exact Hspec |]. split; [exact Hcode |].
  rewrite Hspec, Hcode. discriminate.
Qed.

(* ================================================================== *)
(** * Properties of the aggregates *)
(* ================================================================== *)

(** The average order value is guarded: with no order it is zero. *)
Lemma avg_order_value_guarded (items : list OrderItem) :
  total_orders items = 0 -> avg_order_value items = Fin 0.
Proof. intros H. unfold avg_order_value. now rewrite H. Qed.

Lemma avg_order_value_finite (items : list OrderItem) :
  exists q, avg_order_value items = Fin q.
Proof.
  unfold avg_order_value, truediv.
  destruct (Z.ltb_spec 0 (total_orders items)); [| now exists 0%Q].
  destruct (Z.eqb_spec (total_orders items) 0); [lia |]. eauto.
Qed.

(** C8, at the failing input.  The payment share has no such guard: for
    a window whose only payment is a voucher of value zero the grand
    total is zero and the percentage of the voucher row is NaN, not 0. *)
Theorem payment_percentage_unguarded :
  payment_summary (payment_data zero_voucher_data (day 0) (day 10))
  = [ {| ps_payment_type := "voucher"; total_value := 0;
         order_count := 1; percentage := NaN |} ].
Proof. reflexivity. Qed.

Lemma groupby_nil {A : Type} (key : A -> option string) :
  groupby key [] = [].
Proof. reflexivity. Qed.

Lemma merge_nil {L R : Type} (kl : L -> string) (kr : R -> string)
  (right : list R) :
  merge kl kr [] right = [].
Proof. reflexivity. Qed.

(** C9.  When no delivered order of the window has a payment, the tab
    returns normally with the warning that RFM is unavailable and no RFM
    record, and the per-customer aggregates of the empty population are
    empty frames.  When the window holds no order at all, the category
    and payment aggregates of tabs 1 and 3 are empty frames too and the
    average order value is 0. *)
Theorem empty_population_is_not_an_error (data : Data)
  (start_date end_date : Z) :
  orders_with_payments data start_date end_date = [] ->
  tab2 data start_date end_date = Ok RFMWarning
  /\ rfm_records RFMWarning = []
  /\ recency_df end_date (orders_with_payments data start_date end_date) = []
  /\ frequency_df (orders_with_payments data start_date end_date) = []
  /\ monetary_df (orders_with_payments data start_date end_date) = []
  /\ rfm_frame end_date (orders_with_payments data start_date end_date) = []
  /\ score_rfm [] = Ok []
  /\ (filtered_orders data start_date end_date = [] ->
      forall selected_category,
        filtered_items data start_date end_date selected_category = []
        /\ category_sales data
             (filtered_items data start_date end_date selected_category) = []
        /\ avg_order_value
             (filtered_items data start_date end_date selected_category)
           = Fin 0
        /\ payment_data data start_date end_date = []
        /\ payment_summary (payment_data data start_date end_date) = []).
Proof.
  intros H. unfold tab2. rewrite H.
  repeat (split; [reflexivity |]).
  intros Hnone selected_category.
  assert (Hitems : filtered_items data start_date end_date selected_category
                   = []).
  { unfold filtered_items, joined_items. rewrite Hnone, merge_nil.
    now destruct (truthy selected_category). }
  unfold payment_data. rewrite Hitems, Hnone, merge_nil.
  now repeat split.
Qed.

Lemma empty_population_is_not_an_error_witness :
  orders_with_payments single_order_data (day 0) (day 1) = []
  /\ tab2 single_order_data (day 0) (day 1) = Ok RFMWarning.
Proof.
  assert (H : orders_with_payments single_order_data (day 0) (day 1) = [])
    by reflexivity.
  split; [exact H |].
  exact (proj1 (empty_population_is_not_an_error single_order_data
                  (day 0) (day 1) H)).
Defined.

(* ================================================================== *)
(** * Properties of the delivery classification *)
(* ================================================================== *)

Lemma with_delivery_status_rows (rows : list Delivery) :
  with_delivery_status rows
  = Ok (map (fun r => set_delivery_status r
                        (status_of (delivery_difference r))) rows).
Proof.
  unfold with_delivery_status.
  rewrite <- (map_map delivery_difference Some), cut_status. cbn [bind].
  now rewrite map_map, assign_map.
Qed.

(** C4.  Every delivered order of the window with both dates has one row
    in the table of tab 4, carrying the whole-day difference actual minus
    estimated and the one status that the fixed edges give it: at most -3
    Very Early, (-3,-1] Early, (-1,0] On Time, (0,2] Late, above 2 Very
    Late; hence -5, 0, 1 and 5 days are Very Early, On Time, Late and
    Very Late. *)
Theorem delivery_status_five_bins :
  (forall data start_date end_date o actual estimated,
     In o (filtered_orders_rfm data start_date end_date) ->
     order_delivered_customer_date o = Some actual ->
     order_estimated_delivery_date o = Some estimated ->
     exists rows row,
       tab4 data start_date end_date = Ok (DeliveryTable rows)
       /\ In row rows
       /\ delivery_order row = o
       /\ delivery_difference row = days (actual - estimated)
       /\ delivery_status row = status_of (days (actual - estimated)))
  /\ (forall data start_date end_date,
        exists view,
          tab4 data start_date end_date = Ok view
          /\ Forall (fun row => delivery_status row
                                = status_of (delivery_difference row))
                    (delivery_rows view))
  /\ (forall d,
        (d <= -3 -> status_of d = Some "Very Early")
        /\ (-3 < d <= -1 -> status_of d = Some "Early")
        /\ (-1 < d <= 0 -> status_of d = Some "On Time")
        /\ (0 < d <= 2 -> status_of d = Some "Late")
        /\ (2 < d -> status_of d = Some "Very Late"))
  /\ (status_of (-5) = Some "Very Early" /\ status_of 0 = Some "On Time"
      /\ status_of 1 = Some "Late" /\ status_of 5 = Some "Very Late").
Proof.
  split; [| split; [| split; [exact status_of_thresholds | now repeat split]]].
  - intros data start_date end_date o actual estimated Ho Ha He.
    unfold tab4.
    set (rows := delivery_data data start_date end_date).
    set (row0 := {| delivery_order := o;
                    delivery_difference := days (actual - estimated);
                    delivery_status := None |}).
    assert (Hin : In row0 rows).
    { unfold rows, delivery_data. apply in_flat_map. exists o.
      split; [exact Ho |]. rewrite Ha, He. now left. }
    destruct (Nat.ltb_spec 0 (List.length rows)) as [_ | Hlen].
    + rewrite with_delivery_status_rows. cbn [bind].
      eexists. exists (set_delivery_status row0
                         (status_of (delivery_difference row0))).
      split; [reflexivity |]. split; [| now repeat split].
      apply in_map_iff. exists row0. now split.
    + destruct rows; [contradiction | simpl in Hlen; lia].
  - intros data start_date end_date. unfold tab4.
    destruct (0 <? _)%nat.
    + rewrite with_delivery_status_rows. cbn [bind].
      eexists. split; [reflexivity |]. simpl.
      apply Forall_map, Forall_forall. reflexivity.
    + exists DeliveryWarning. split; [reflexivity | constructor].
Qed.

Lemma delivery_status_five_bins_witness :
  exists rows row,
    tab4 single_order_data (day 17532) (day 17532) = Ok (DeliveryTable rows)
    /\ In row rows
    /\ delivery_difference row = -5
    /\ delivery_status row = Some "Very Early".
Proof.
  destruct (proj1 delivery_status_five_bins single_order_data (day 17532)
              (day 17532)
              (mkOrder "1" "A" "delivered" (day 17532) (Some (day 17540))
                       (Some (day 17545)))
              (day 17540) (day 17545))
    as (rows & row & E & Hin & _ & Hd & Hs).
  - vm_compute. now left.
  - reflexivity.
  - reflexivity.
  - exists rows, row. repeat split; assumption.
Defined.

(* ================================================================== *)
(** * Ranks and the quantile cut *)
(* ================================================================== *)

Lemma count_cons (p : Z -> bool) (x : Z) (l : list Z) :
  count p (x :: l) = (if p x then 1 else 0) + count p l.
Proof.
  unfold count. simpl. destruct (p x); simpl List.length; lia.
Qed.

Lemma count_nonneg (p : Z -> bool) (l : list Z) : 0 <= count p l.
Proof. unfold count. lia. Qed.

(** Below a larger value there are at least the values below and equal
    to a smaller one. *)
Lemma count_below_larger (l : list Z) (v w : Z) :
  v < w ->
  count (fun y => y <? v) l + count (fun y => y =? v) l
  <= count (fun y => y <? w) l.
Proof.
  intros Hvw. induction l as [| x tl IH].
  - unfold count. simpl. lia.
  - rewrite !count_cons.
    destruct (Z.ltb_spec x v), (Z.eqb_spec x v), (Z.ltb_spec x w); lia.
Qed.

(** A rank produced by [rank_from] counts the smaller values of the whole
    column plus some, but not all, of the equal ones. *)
Lemma rank_from_In (all before l : list Z) (r : Z) :
  (forall v, count (fun y => y =? v) before + count (fun y => y =? v) l
             <= count (fun y => y =? v) all) ->
  In r (rank_from all before l) ->
  exists w c,
    r = 1 + count (fun y => y <? w) all + c
    /\ count (fun y => y =? w) before <= c < count (fun y => y =? w) all.
Proof.
  revert before. induction l as [| v tl IH]; intros before Hinv Hin;
    cbn [rank_from In] in Hin; [contradiction |].
  destruct Hin as [<- | Hin].
  - exists v, (count (fun y => y =? v) before). split; [reflexivity |].
    specialize (Hinv v). rewrite count_cons, Z.eqb_refl in Hinv.
    pose proof (count_nonneg (fun y => y =? v) tl). lia.
  - destruct (IH (v :: before)) as (w & c & Hr & Hc); [| exact Hin |].
    + intros u. specialize (Hinv u). rewrite !count_cons in *. lia.
    + exists w, c. split; [exact Hr |].
      rewrite count_cons in Hc.
      destruct (v =? w); lia.
Qed.

Lemma rank_from_NoDup (all before l : list Z) :
  (forall v, count (fun y => y =? v) before + count (fun y => y =? v) l
             <= count (fun y => y =? v) all) ->
  NoDup (rank_from all before l).
Proof.
  revert before. induction l as [| v tl IH]; intros before Hinv;
    cbn [rank_from]; constructor.
  - intros Hin.
    assert (Hinv' : forall u,
               count (fun y => y =? u) (v :: before)
               + count (fun y => y =? u) tl
               <= count (fun y => y =? u) all).
    { intros u. specialize (Hinv u). rewrite !count_cons in *. lia. }
    destruct (rank_from_In all (v :: before) tl _ Hinv' Hin)
      as (w & c & Hr & Hc).
    pose proof (Hinv v) as Hv. rewrite count_cons, Z.eqb_refl in Hv.
    pose proof (count_nonneg (fun y => y =? v) before).
    pose proof (count_nonneg (fun y => y =? v) tl).
    pose proof (count_nonneg (fun y => y =? w) before).
    rewrite count_cons in Hc.
    destruct (Z.lt_trichotomy v w) as [Hlt | [Heq | Hgt]].
    + pose proof (count_below_larger all v w Hlt).
      destruct (Z.eqb_spec v w); lia.
    + subst w. rewrite Z.eqb_refl in Hc. lia.
    + pose proof (count_below_larger all w v Hgt).
      destruct (Z.eqb_spec v w); lia.
  - apply IH. intros u. specialize (Hinv u). rewrite !count_cons in *. lia.
Qed.

(** The ranks of a column are pairwise distinct. *)
Lemma rank_first_NoDup (col : list Z) : NoDup (rank_first col).
Proof.
  apply rank_from_NoDup. intros v. unfold count at 1. simpl. lia.
Qed.

Lemma sort_strict (x : list Z) : NoDup x -> StronglySorted Z.lt (sort x).
Proof.
  intros Hnd. apply sorted_nodup_strict; [apply sort_sorted |].
  apply (Permutation_NoDup (Permutation_sym (sort_perm x)) Hnd).
Qed.

(** On a strictly increasing column of at least two values the six
    quantile edges are strictly increasing. *)
Lemma quantile_edge_increasing (a : list Z) (k k' : nat) :
  StronglySorted Z.lt a -> (2 <= List.length a)%nat ->
  (k < k' <= 5)%nat ->
  quantile_edge 5 a k < quantile_edge 5 a k'.
Proof.
  intros Hs Hlen Hk. unfold quantile_edge.
  set (n := Z.of_nat (List.length a)).
  set (pos := (n - 1) * Z.of_nat k). set (pos' := (n - 1) * Z.of_nat k').
  assert (Hn : 2 <= n) by (unfold n; lia).
  assert (Hpos : 0 <= pos < pos') by (unfold pos, pos'; nia).
  assert (Hpos' : pos' <= 5 * (n - 1)) by (unfold pos'; nia).
  pose proof (Z.div_mod pos 5 ltac:(lia)) as Hd.
  pose proof (Z.mod_pos_bound pos 5 ltac:(lia)) as Hm.
  pose proof (Z.div_mod pos' 5 ltac:(lia)) as Hd'.
  pose proof (Z.mod_pos_bound pos' 5 ltac:(lia)) as Hm'.
  set (q := pos / 5) in *. set (g := pos mod 5) in *.
  set (q' := pos' / 5) in *. set (g' := pos' mod 5) in *.
  assert (Hq : 0 <= q <= q') by lia.
  assert (Hq' : q' <= n - 1) by lia.
  assert (Hmono : forall i j, (i <= j < List.length a)%nat ->
                              nth i a 0 <= nth j a 0).
  { intros i j Hij. destruct (Nat.eq_dec i j) as [-> | Hne]; [lia |].
    apply Z.lt_le_incl, (sorted_nth Z.lt a Hs). lia. }
  assert (Hstrict : forall i j, (i < j < List.length a)%nat ->
                                nth i a 0 < nth j a 0)
    by (apply (sorted_nth Z.lt a Hs)).
  destruct (Z.eq_dec q q') as [Heq | Hne].
  - assert (Hg : g < g') by lia.
    assert (Hlast : q' < n - 1) by lia.
    rewrite <- Heq.
    replace (Nat.min (S (Z.to_nat q)) (List.length a - 1))
      with (S (Z.to_nat q)) by (unfold n in *; lia).
    pose proof (Hstrict (Z.to_nat q) (S (Z.to_nat q))
                  ltac:(unfold n in *; lia)).
    nia.
  - assert (Hlt : q < q') by lia.
    replace (Nat.min (S (Z.to_nat q)) (List.length a - 1))
      with (S (Z.to_nat q)) by (unfold n in *; lia).
    pose proof (Hstrict (Z.to_nat q) (S (Z.to_nat q))
                  ltac:(unfold n in *; lia)) as H1.
    pose proof (Hmono (S (Z.to_nat q)) (Z.to_nat q')
                  ltac:(unfold n in *; lia)) as H2.
    pose proof (Hmono (Z.to_nat q')
                  (Nat.min (S (Z.to_nat q')) (List.length a - 1))
                  ltac:(unfold n in *; lia)) as H3.
    nia.
Qed.

(** The quantile cut of pairwise distinct values never raises. *)
Lemma qcut_distinct_ok {L : Type} (x : list Z) (labels : list L) :
  NoDup x -> (2 <= List.length x)%nat -> List.length labels = 5%nat ->
  exists out, qcut x 5 labels = Ok out.
Proof.
  intros Hnd Hlen Hlab.
  assert (Hx : x <> []) by (intros ->; simpl in Hlen; lia).
  rewrite qcut_unfold by exact Hx.
  eexists. apply bins_to_cuts_ok; [| now rewrite Hlab].
  assert (Hs : StronglySorted Z.lt (sort x)) by now apply sort_strict.
  assert (Hl : (2 <= List.length (sort x))%nat).
  { now rewrite (Permutation_length (sort_perm x)). }
  change (NoDup (map At (map (quantile_edge 5 (sort x))
                             [0; 1; 2; 3; 4; 5]%nat))).
  apply increasing_edges_NoDup. simpl map.
  repeat (constructor;
          [| repeat constructor; apply quantile_edge_increasing;
             (assumption || lia)]).
  constructor.
Qed.

Lemma unique_acc_length {A : Type} (eqb : A -> A -> bool)
  (seen l : list A) :
  (List.length (unique_acc eqb seen l) <= List.length l)%nat.
Proof.
  revert seen. induction l as [| x tl IH]; intros seen; simpl; [lia |].
  destruct (isin eqb x seen); simpl.
  - specialize (IH seen). lia.
  - specialize (IH (x :: seen)). lia.
Qed.

Lemma nunique_le_length (col : list Z) :
  (nunique Z.eqb col <= List.length col)%nat.
Proof. apply unique_acc_length. Qed.

(** With at least five distinct values, the frequency and monetary
    scores are the quantile cut of the ranks: the [except] branch is not
    taken. *)
Lemma ranked_score_column (col : list Z) :
  (5 <= nunique Z.eqb col)%nat ->
  exists scores,
    qcut (rank_first col) 5 [1; 2; 3; 4; 5] = Ok scores
    /\ (if (nunique Z.eqb col <? 5)%nat then Ok (broadcast 3 col)
        else try_except (qcut (rank_first col) 5 [1; 2; 3; 4; 5])
                        (cut_nbins col 5 [1; 2; 3; 4; 5])) = Ok scores
    /\ List.length scores = List.length col
    /\ Forall is_score scores.
Proof.
  intros Hmany. pose proof (nunique_le_length col) as Hlen.
  destruct (qcut_distinct_ok (rank_first col) [1; 2; 3; 4; 5]
              (rank_first_NoDup col)) as [scores E].
  - rewrite rank_first_length. lia.
  - reflexivity.
  - exists scores. split; [exact E |].
    destruct (Nat.ltb_spec (nunique Z.eqb col) 5); [lia |].
    rewrite E. split; [reflexivity |].
    destruct (qcut_labels (rank_first col) [1; 2; 3; 4; 5] scores)
      as [Hl Hall]; [discriminate | exact E |].
    rewrite rank_first_length in Hl. split; [exact Hl |].
    eapply Forall_impl; [| exact Hall].
    intros c [l [-> Hin]]. exists l. split; [reflexivity |].
    now apply labels_asc.
Qed.

(** C10.  The ranks of a column are pairwise distinct, as many as its
    rows.  So whenever the frequency (or monetary) column has at least 5
    distinct values, the quantile cut of its ranks returns, the score
    column is that cut and not the equal-width fallback, and every score
    is one of 1..5.  The recency column, cut on its raw values, can reach
    the fallback: in [skewed_recency] six of ten customers share the
    recency 0, the quantile cut raises and the scores are those of the
    equal-width cut. *)
Theorem rank_quantile_cut_never_falls_back :
  (forall col,
     NoDup (rank_first col)
     /\ List.length (rank_first col) = List.length col)
  /\ (forall rfm,
        (5 <= nunique Z.eqb (map frequency rfm))%nat ->
        exists scores,
          qcut (rank_first (map frequency rfm)) 5 [1; 2; 3; 4; 5] = Ok scores
          /\ f_score_column rfm = Ok scores
          /\ List.length scores = List.length rfm
          /\ Forall is_score scores)
  /\ (forall rfm,
        (5 <= nunique Z.eqb (map monetary rfm))%nat ->
        exists scores,
          qcut (rank_first (map monetary rfm)) 5 [1; 2; 3; 4; 5] = Ok scores
          /\ m_score_column rfm = Ok scores
          /\ List.length scores = List.length rfm
          /\ Forall is_score scores)
  /\ ((5 <= nunique Z.eqb (map recency skewed_recency))%nat
      /\ qcut (map recency skewed_recency) 5 [5; 4; 3; 2; 1] = ValueError
      /\ r_score_column skewed_recency
         = cut_nbins (map recency skewed_recency) 5 [5; 4; 3; 2; 1]
      /\ r_score_column skewed_recency
         = Ok [Some 5; Some 5; Some 5; Some 5; Some 5; Some 5;
               Some 4; Some 3; Some 2; Some 1]).
Proof.
  split; [| split; [| split]].
  - intros col. split; [apply rank_first_NoDup | apply rank_first_length].
  - intros rfm Hmany.
    destruct (ranked_score_column (map frequency rfm) Hmany)
      as (scores & E & Ecol & Hl & Hall).
    rewrite length_map in Hl. exists scores. now repeat split.
  - intros rfm Hmany.
    destruct (ranked_score_column (map monetary rfm) Hmany)
      as (scores & E & Ecol & Hl & Hall).
    rewrite length_map in Hl. exists scores. now repeat split.
  - split; [apply Nat.leb_le; reflexivity |]. now repeat split.
Qed.

Lemma rank_quantile_cut_never_falls_back_witness :
  (5 <= nunique Z.eqb (map frequency skewed_recency))%nat
  /\ exists scores,
       f_score_column skewed_recency = Ok scores
       /\ Forall is_score scores.
Proof.
  assert (H : (5 <= nunique Z.eqb (map frequency skewed_recency))%nat).
  { apply Nat.leb_le. reflexivity. }
  split; [exact H |].
  destruct (proj1 (proj2 rank_quantile_cut_never_falls_back)
              skewed_recency H) as (scores & _ & E & _ & Hall).
  exists scores. split; [exact E | exact Hall].
Defined.

(* ================================================================== *)
(** * Sorting the category sales *)
(* ================================================================== *)

Section SortedLists.
Context {A : Type}.

Lemma adjacent_StronglySorted (rel : A -> A -> bool) (l : list A) :
  (forall a b c, rel a b = true -> rel b c = true -> rel a c = true) ->
  adjacent rel l = true ->
  StronglySorted (fun a b => rel a b = true) l.
Proof.
  intros Htrans. induction l as [| a tl IH]; intros Hadj; [constructor |].
  destruct tl as [| b tl'].
  - constructor; constructor.
  - cbn [adjacent] in Hadj. apply andb_true_iff in Hadj.
    destruct Hadj as [Hab Htl]. specialize (IH Htl).
    constructor; [exact IH |].
    constructor; [exact Hab |].
    apply StronglySorted_inv in IH. destruct IH as [_ Hall].
    eapply Forall_impl; [| exact Hall].
    intros c Hbc. now apply (Htrans a b c).
Qed.

Lemma StronglySorted_impl_In (R R' : A -> A -> Prop) (l : list A) :
  (forall x y, In x l -> In y l -> R x y -> R' x y) ->
  StronglySorted R l -> StronglySorted R' l.
Proof.
  intros Himp Hs. induction Hs as [| a tl Hs IH Hall]; [constructor |].
  constructor.
  - apply IH. intros x y Hx Hy. apply Himp; now right.
  - rewrite Forall_forall in *. intros y Hy.
    apply Himp; [now left | now right | now apply Hall].
Qed.

Lemma StronglySorted_snoc (R : A -> A -> Prop) (l : list A) (x : A) :
  StronglySorted R l -> Forall (fun y => R y x) l ->
  StronglySorted R (l ++ [x])%list.
Proof.
  induction 1 as [| a tl Hs IH Hall]; intros Hx; simpl.
  - constructor; constructor.
  - inversion Hx; subst. constructor; [now apply IH |].
    apply Forall_app. split; [exact Hall | now constructor].
Qed.

Lemma StronglySorted_rev (R : A -> A -> Prop) (l : list A) :
  StronglySorted R l -> StronglySorted (fun a b => R b a) (rev l).
Proof.
  induction 1 as [| a tl Hs IH Hall]; simpl; [constructor |].
  apply StronglySorted_snoc; [exact IH |].
  apply Forall_rev. exact Hall.
Qed.

Lemma firstn_In (n : nat) (l : list A) (x : A) :
  In x (firstn n l) -> In x l.
Proof.
  intros H. rewrite <- (firstn_skipn n l). apply in_or_app. now left.
Qed.

Lemma StronglySorted_firstn (R : A -> A -> Prop) (n : nat) (l : list A) :
  StronglySorted R l -> StronglySorted R (firstn n l).
Proof.
  intros Hs. revert n.
  induction Hs as [| a tl Hs IH Hall]; intros [| n]; simpl;
    try constructor; [apply IH |].
  rewrite Forall_forall in *. intros y Hy.
  apply Hall. eapply firstn_In; eauto.
Qed.
End SortedLists.

Lemma StronglySorted_map {A B : Type} (f : A -> B) (R : B -> B -> Prop)
  (l : list A) :
  StronglySorted (fun x y => R (f x) (f y)) l -> StronglySorted R (map f l).
Proof.
  induction 1 as [| a tl Hs IH Hall]; simpl; constructor;
    [exact IH | now apply Forall_map].
Qed.

(** ** Taking rows by position *)

Lemma take_shift {A : Type} (a : A) (rows : list A) (indexer : list nat) :
  take (a :: rows) (map S indexer) = take rows indexer.
Proof.
  unfold take. induction indexer as [| i tl IH]; simpl; [reflexivity |].
  now rewrite IH.
Qed.

Lemma take_all {A : Type} (rows : list A) :
  take rows (seq 0 (List.length rows)) = rows.
Proof.
  induction rows as [| a tl IH]; [reflexivity |].
  cbn [List.length seq]. rewrite <- seq_shift.
  change (take (a :: tl) (0%nat :: map S (seq 0 (List.length tl))))
    with (a :: take (a :: tl) (map S (seq 0 (List.length tl)))).
  now rewrite take_shift, IH.
Qed.

Lemma take_perm {A : Type} (rows : list A) (indexer : list nat) :
  Permutation indexer (seq 0 (List.length rows)) ->
  Permutation (take rows indexer) rows.
Proof.
  intros Hp. rewrite <- (take_all rows) at 2.
  unfold take. now apply Permutation_flat_map.
Qed.

Lemma take_In {A : Type} (rows : list A) (indexer : list nat) (b : A) :
  In b (take rows indexer) ->
  exists j, In j indexer /\ nth_error rows j = Some b.
Proof.
  unfold take. intros Hin. apply in_flat_map in Hin.
  destruct Hin as [j [Hj Hb]]. exists j. split; [exact Hj |].
  destruct (nth_error rows j); simpl in Hb; [| contradiction].
  destruct Hb as [-> | []]. reflexivity.
Qed.

Lemma take_StronglySorted {A : Type} (rows : list A)
  (R : nat -> nat -> Prop) (R' : A -> A -> Prop) (indexer : list nat) :
  (forall i j a b, nth_error rows i = Some a -> nth_error rows j = Some b ->
                   R i j -> R' a b) ->
  StronglySorted R indexer -> StronglySorted R' (take rows indexer).
Proof.
  intros Himp. induction 1 as [| i tl Hs IH Hall]; [constructor |].
  change (take rows (i :: tl))
    with ((match nth_error rows i with Some r => [r] | None => [] end)
          ++ take rows tl)%list.
  destruct (nth_error rows i) as [a |] eqn:Ei; simpl; [| exact IH].
  constructor; [exact IH |].
  apply Forall_forall. intros b Hb.
  destruct (take_In rows tl b Hb) as [j [Hj Ej]].
  rewrite Forall_forall in Hall. apply (Himp i j a b Ei Ej). now apply Hall.
Qed.

(** ** What an argsort gives *)

Lemma is_argsort_perm (keys : list Z) (order : list nat) :
  is_argsort keys order = true ->
  Permutation (seq 0 (List.length keys)) order.
Proof.
  unfold is_argsort. intros H.
  apply andb_true_iff in H. destruct H as [H _].
  apply andb_true_iff in H. destruct H as [Hlen Hall].
  apply Nat.eqb_eq in Hlen.
  apply NoDup_Permutation_bis.
  - apply seq_NoDup.
  - rewrite length_seq. lia.
  - intros i Hi. rewrite forallb_forall in Hall.
    specialize (Hall i Hi). apply existsb_exists in Hall.
    destruct Hall as [j [Hj E]]. apply Nat.eqb_eq in E. now subst.
Qed.

Lemma key_leb_trans (keys : list Z) (a b c : nat) :
  key_leb keys a b = true -> key_leb keys b c = true ->
  key_leb keys a c = true.
Proof. unfold key_leb. rewrite !Z.leb_le. lia. Qed.

Lemma key_ltb_or_earlier_spec (keys : list Z) (a b : nat) :
  key_ltb_or_earlier keys a b = true <->
  nth a keys 0 < nth b keys 0
  \/ (nth a keys 0 = nth b keys 0 /\ (a < b)%nat).
Proof.
  unfold key_ltb_or_earlier.
  rewrite orb_true_iff, andb_true_iff, Z.ltb_lt, Z.eqb_eq, Nat.ltb_lt.
  tauto.
Qed.

Lemma key_ltb_or_earlier_trans (keys : list Z) (a b c : nat) :
  key_ltb_or_earlier keys a b = true -> key_ltb_or_earlier keys b c = true ->
  key_ltb_or_earlier keys a c = true.
Proof. rewrite !key_ltb_or_earlier_spec. lia. Qed.

(** Position [i] of the reversed column is position [n - 1 - i] of the
    column. *)
Lemma mirror_position (n i : nat) :
  (i < n)%nat -> nth i (rev (seq 0 n)) 0%nat = (n - 1 - i)%nat.
Proof.
  intros Hi. rewrite rev_nth by (rewrite length_seq; lia).
  rewrite length_seq, seq_nth by lia. lia.
Qed.

Lemma mirror_key (keys : list Z) (i : nat) :
  (i < List.length keys)%nat ->
  nth i (rev keys) 0 = nth (List.length keys - 1 - i) keys 0.
Proof.
  intros Hi. rewrite rev_nth by exact Hi. f_equal. lia.
Qed.

Lemma map_nth_all (l : list nat) :
  map (fun i => nth i l 0%nat) (seq 0 (List.length l)) = l.
Proof.
  apply (nth_ext _ _ 0%nat 0%nat).
  - now rewrite length_map, length_seq.
  - intros i Hi. rewrite length_map, length_seq in Hi.
    rewrite (nth_indep _ 0%nat (nth 0 l 0%nat))
      by (rewrite length_map, length_seq; exact Hi).
    change (nth 0 l 0%nat) with ((fun i => nth i l 0%nat) 0%nat).
    rewrite map_nth, seq_nth by exact Hi. reflexivity.
Qed.

(** A descending [nargsort] built on any argsort of the reversed keys
    lists every position once, larger keys first; built on a stable
    argsort it also leaves equal keys in row order. *)
Lemma nargsort_descending (keys : list Z) (order : list nat) :
  is_argsort (rev keys) order = true ->
  Permutation (nargsort_with order keys false) (seq 0 (List.length keys))
  /\ StronglySorted (not_below keys) (nargsort_with order keys false)
  /\ (is_stable_argsort (rev keys) order = true ->
      StronglySorted (ranks_before keys) (nargsort_with order keys false)).
Proof.
  intros Harg. set (n := List.length keys).
  pose proof (is_argsort_perm (rev keys) order Harg) as Hperm.
  rewrite length_rev in Hperm. fold n in Hperm.
  assert (Hin : forall i, In i order -> (i < n)%nat).
  { intros i Hi. apply (Permutation_in _ (Permutation_sym Hperm)) in Hi.
    apply in_seq in Hi. lia. }
  unfold nargsort_with. fold n.
  set (f := fun i => nth i (rev (seq 0 n)) 0%nat).
  assert (Hf : forall i, (i < n)%nat -> f i = (n - 1 - i)%nat)
    by (intros i Hi; now apply mirror_position).
  assert (Hkey : forall i, (i < n)%nat -> nth i (rev keys) 0 = nth (f i) keys 0).
  { intros i Hi. rewrite Hf by exact Hi. now apply mirror_key. }
  split; [| split].
  - rewrite <- Permutation_rev.
    rewrite <- (Permutation_map f Hperm).
    assert (Hm : map f (seq 0 n) = rev (seq 0 n)).
    { pose proof (map_nth_all (rev (seq 0 n))) as H.
      rewrite length_rev, length_seq in H. exact H. }
    rewrite Hm. symmetry. apply Permutation_rev.
  - apply (StronglySorted_rev (fun a b => not_below keys b a)).
    apply StronglySorted_map.
    apply (StronglySorted_impl_In (fun a b => key_leb (rev keys) a b = true)).
    + intros i j Hi Hj Hle. unfold key_leb in Hle. apply Z.leb_le in Hle.
      unfold not_below. rewrite <- !Hkey by now apply Hin. exact Hle.
    + apply adjacent_StronglySorted; [apply key_leb_trans |].
      unfold is_argsort in Harg. apply andb_true_iff in Harg. tauto.
  - intros Hstable. unfold is_stable_argsort in Hstable.
    apply andb_true_iff in Hstable. destruct Hstable as [_ Hadj].
    apply (StronglySorted_rev (fun a b => ranks_before keys b a)).
    apply StronglySorted_map.
    apply (StronglySorted_impl_In
             (fun a b => key_ltb_or_earlier (rev keys) a b = true)).
    + intros i j Hi Hj Hlt. apply key_ltb_or_earlier_spec in Hlt.
      unfold ranks_before. rewrite <- !Hkey by now apply Hin.
      rewrite !Hf by now apply Hin.
      pose proof (Hin i Hi). pose proof (Hin j Hj). lia.
    + apply adjacent_StronglySorted;
        [apply key_ltb_or_earlier_trans | exact Hadj].
Qed.

Lemma nth_map_Some {A : Type} (f : A -> Z) (rows : list A) (i : nat) (a : A) :
  nth_error rows i = Some a -> nth i (map f rows) 0 = f a.
Proof.
  intros H. apply nth_error_nth. rewrite nth_error_map, H. reflexivity.
Qed.

(** ** Every routine sorts *)

Lemma place_perm (first : nat -> nat -> bool) (i : nat) (l : list nat) :
  Permutation (NumPy.place first i l) (i :: l).
Proof.
  induction l as [| j tl IH]; simpl; [reflexivity |].
  destruct (first i j); [reflexivity |].
  rewrite IH. apply perm_swap.
Qed.

Lemma argsort_perm (ties : NumPy.routine) (keys : list Z) :
  Permutation (NumPy.argsort ties keys) (seq 0 (List.length keys)).
Proof.
  unfold NumPy.argsort.
  induction (seq 0 (List.length keys)) as [| i tl IH]; simpl; [reflexivity |].
  rewrite place_perm. now constructor.
Qed.

Lemma goes_first_spec (keys : list Z) (preference : nat -> nat) (i j : nat) :
  NumPy.goes_first keys preference i j = true <->
  nth i keys 0 < nth j keys 0
  \/ (nth i keys 0 = nth j keys 0
      /\ ((preference i < preference j)%nat
          \/ (preference i = preference j /\ (i <= j)%nat))).
Proof.
  unfold NumPy.goes_first.
  rewrite !orb_true_iff, !andb_true_iff, orb_true_iff, andb_true_iff.
  rewrite Z.ltb_lt, Z.eqb_eq, Nat.ltb_lt, Nat.eqb_eq, Nat.leb_le.
  reflexivity.
Qed.

Lemma goes_first_total (keys : list Z) (preference : nat -> nat) (i j : nat) :
  NumPy.goes_first keys preference i j = false ->
  NumPy.goes_first keys preference j i = true.
Proof.
  intros H. apply goes_first_spec.
  assert (Hn : ~ (nth i keys 0 < nth j keys 0
                  \/ (nth i keys 0 = nth j keys 0
                      /\ ((preference i < preference j)%nat
                          \/ (preference i = preference j
                              /\ (i <= j)%nat))))).
  { rewrite <- goes_first_spec. congruence. }
  lia.
Qed.

Lemma place_adjacent (first : nat -> nat -> bool) (i : nat) (l : list nat) :
  (forall a b, first a b = false -> first b a = true) ->
  adjacent first l = true -> adjacent first (NumPy.place first i l) = true.
Proof.
  intros Htot. induction l as [| j tl IH]; intros Hadj; [reflexivity |].
  cbn [NumPy.place]. destruct (first i j) eqn:Eij.
  - cbn [adjacent]. now rewrite Eij.
  - assert (Htl : adjacent first tl = true).
    { destruct tl; [reflexivity |]. cbn [adjacent] in Hadj.
      apply andb_true_iff in Hadj. tauto. }
    specialize (IH Htl). destruct tl as [| k tl'].
    + cbn [NumPy.place adjacent]. now rewrite (Htot _ _ Eij).
    + cbn [NumPy.place] in IH |- *. destruct (first i k) eqn:Eik.
      * cbn [adjacent] in IH |- *. now rewrite (Htot _ _ Eij).
      * cbn [adjacent] in Hadj |- *. apply andb_true_iff in Hadj.
        destruct Hadj as [Hjk _]. now rewrite Hjk.
Qed.

Lemma argsort_adjacent (ties : NumPy.routine) (keys : list Z) :
  adjacent (NumPy.goes_first keys (ties keys)) (NumPy.argsort ties keys)
  = true.
Proof.
  unfold NumPy.argsort.
  induction (seq 0 (List.length keys)) as [| i tl IH]; [reflexivity |].
  cbn [fold_right]. apply place_adjacent; [apply goes_first_total | exact IH].
Qed.

Lemma adjacent_impl_NoDup {A : Type} (R R' : A -> A -> bool) (l : list A) :
  NoDup l ->
  (forall a b, a <> b -> R a b = true -> R' a b = true) ->
  adjacent R l = true -> adjacent R' l = true.
Proof.
  intros Hnd Himp. induction l as [| a tl IH]; intros Hadj; [reflexivity |].
  destruct tl as [| b tl']; [reflexivity |].
  cbn [adjacent] in Hadj |- *. apply andb_true_iff in Hadj.
  destruct Hadj as [Hab Htl]. apply NoDup_cons_iff in Hnd.
  destruct Hnd as [Ha Hnd]. apply andb_true_iff. split.
  - apply Himp; [| exact Hab]. intros ->. apply Ha. now left.
  - now apply IH.
Qed.

Lemma argsort_NoDup (ties : NumPy.routine) (keys : list Z) :
  NoDup (NumPy.argsort ties keys).
Proof.
  apply (Permutation_NoDup (Permutation_sym (argsort_perm ties keys))).
  apply seq_NoDup.
Qed.

(** Whatever its preference among equal keys, a routine returns every
    position once, smaller keys first. *)
Lemma argsort_sorts (ties : NumPy.routine) (keys : list Z) :
  is_argsort keys (NumPy.argsort ties keys) = true.
Proof.
  pose proof (argsort_perm ties keys) as Hp.
  unfold is_argsort. rewrite !andb_true_iff. split; [split |].
  - apply Nat.eqb_eq. rewrite (Permutation_length Hp). apply length_seq.
  - apply forallb_forall. intros i Hi. apply existsb_exists.
    exists i. split; [| apply Nat.eqb_refl].
    apply (Permutation_in _ (Permutation_sym Hp)). exact Hi.
  - apply (adjacent_impl_NoDup (NumPy.goes_first keys (ties keys)));
      [apply argsort_NoDup | | apply argsort_adjacent].
    intros a b _ H. apply goes_first_spec in H.
    unfold key_leb. apply Z.leb_le. lia.
Qed.

(** The routine without preference is stable. *)
Lemma argsort_stable (keys : list Z) :
  is_stable_argsort keys (NumPy.argsort NumPy.stable keys) = true.
Proof.
  unfold is_stable_argsort. rewrite argsort_sorts. cbn [andb].
  apply (adjacent_impl_NoDup (NumPy.goes_first keys (NumPy.stable keys)));
    [apply argsort_NoDup | | apply argsort_adjacent].
  intros a b Hab H. apply goes_first_spec in H.
  apply key_ltb_or_earlier_spec. unfold NumPy.stable in H. lia.
Qed.

(** ** Every sorting function is a routine *)

Lemma goes_first_trans (keys : list Z) (preference : nat -> nat)
  (a b c : nat) :
  NumPy.goes_first keys preference a b = true ->
  NumPy.goes_first keys preference b c = true ->
  NumPy.goes_first keys preference a c = true.
Proof. rewrite !goes_first_spec. lia. Qed.

Lemma goes_first_antisym (keys : list Z) (preference : nat -> nat)
  (a b : nat) :
  NumPy.goes_first keys preference a b = true ->
  NumPy.goes_first keys preference b a = true -> a = b.
Proof. rewrite !goes_first_spec. lia. Qed.

Lemma StronglySorted_conj {A : Type} (R1 R2 : A -> A -> Prop) (l : list A) :
  StronglySorted R1 l -> StronglySorted R2 l ->
  StronglySorted (fun a b => R1 a b /\ R2 a b) l.
Proof.
  induction 1 as [| a tl Hs IH Hall]; intros H2; [constructor |].
  apply StronglySorted_inv in H2. destruct H2 as [H2 Hall2].
  constructor; [now apply IH |].
  rewrite Forall_forall in *. auto.
Qed.

(** Two orderings of the same positions that both follow an order without
    ties are one ordering. *)
Lemma sorted_perm_unique {A : Type} (R : A -> A -> Prop) (l1 l2 : list A) :
  (forall a b, R a b -> R b a -> a = b) ->
  Permutation l1 l2 -> StronglySorted R l1 -> StronglySorted R l2 ->
  l1 = l2.
Proof.
  intros Hanti. revert l2.
  induction l1 as [| a t1 IH]; intros l2 Hp H1 H2.
  - apply Permutation_nil in Hp. now subst.
  - destruct l2 as [| b t2];
      [apply Permutation_sym, Permutation_nil in Hp; discriminate |].
    apply StronglySorted_inv in H1. destruct H1 as [H1 Ha].
    apply StronglySorted_inv in H2. destruct H2 as [H2 Hb].
    rewrite Forall_forall in Ha, Hb.
    assert (E : a = b).
    { assert (Hin : In a (b :: t2))
        by (apply (Permutation_in _ Hp); now left).
      assert (Hin' : In b (a :: t1))
        by (apply (Permutation_in _ (Permutation_sym Hp)); now left).
      destruct Hin as [-> | Hin]; [reflexivity |].
      destruct Hin' as [-> | Hin']; [reflexivity |].
      apply Hanti; [now apply Ha | now apply Hb]. }
    subst b. f_equal. apply IH; try assumption.
    now apply Permutation_cons_inv in Hp.
Qed.

Lemma index_of_increasing (order : list nat) :
  NoDup order ->
  StronglySorted (fun a b => (index_of a order < index_of b order)%nat) order.
Proof.
  induction 1 as [| x tl Hx Hnd IH]; [constructor |].
  assert (Hother : forall b, In b tl ->
            index_of b (x :: tl) = S (index_of b tl)).
  { intros b Hb. cbn [index_of].
    destruct (Nat.eqb_spec b x) as [-> | _]; [contradiction | reflexivity]. }
  constructor.
  - apply (StronglySorted_impl_In
             (fun a b => (index_of a tl < index_of b tl)%nat));
      [| exact IH].
    intros a b Ha Hb Hlt. rewrite (Hother a Ha), (Hother b Hb). lia.
  - apply Forall_forall. intros b Hb. rewrite (Hother b Hb).
    cbn [index_of]. rewrite Nat.eqb_refl. lia.
Qed.

(** The routines are all the sorting functions: a function that returns
    a sorting permutation of every key column is the [argsort] of the
    routine with its preferences. *)
Lemma every_sort_is_a_routine (outcome : list Z -> list nat)
  (keys : list Z) :
  is_argsort keys (outcome keys) = true ->
  NumPy.argsort (routine_of outcome) keys = outcome keys.
Proof.
  intros Hsort.
  set (preference := routine_of outcome keys).
  pose proof (is_argsort_perm keys (outcome keys) Hsort) as Hperm.
  assert (Hnd : NoDup (outcome keys))
    by (apply (Permutation_NoDup Hperm), seq_NoDup).
  apply (sorted_perm_unique
           (fun a b => NumPy.goes_first keys preference a b = true)).
  - apply goes_first_antisym.
  - rewrite argsort_perm. exact Hperm.
  - apply adjacent_StronglySorted; [apply goes_first_trans |].
    apply argsort_adjacent.
  - apply (StronglySorted_impl_In
             (fun a b => key_leb keys a b = true
                         /\ (index_of a (outcome keys)
                             < index_of b (outcome keys))%nat)).
    + intros a b _ _ [Hle Hlt]. apply goes_first_spec.
      unfold key_leb in Hle. apply Z.leb_le in Hle.
      unfold preference, routine_of. lia.
    + apply StronglySorted_conj; [| now apply index_of_increasing].
      apply adjacent_StronglySorted; [apply key_leb_trans |].
      unfold is_argsort in Hsort. apply andb_true_iff in Hsort. tauto.
Qed.

Lemma skipn_In {A : Type} (n : nat) (l : list A) (x : A) :
  In x (skipn n l) -> In x l.
Proof.
  intros H. rewrite <- (firstn_skipn n l). apply in_or_app. now right.
Qed.

(** In a sorted frame every row of the head stands in the order to every
    row that the head leaves out. *)
Lemma StronglySorted_head_tail {A : Type} (R : A -> A -> Prop) (n : nat)
  (l : list A) :
  StronglySorted R l ->
  Forall (fun kept => Forall (R kept) (skipn n l)) (firstn n l).
Proof.
  intros Hs. revert n.
  induction Hs as [| a tl Hs IH Hall]; intros [| n]; simpl;
    try constructor; [| apply IH].
  rewrite Forall_forall in *. intros y Hy.
  apply Hall. eapply skipn_In; eauto.
Qed.

(** C7, as the code has it.  The ranking groups the items by translated
    category (one row per category, in ascending category order), sorts
    the rows by summed price with the largest first and keeps the first
    ten: whichever routine NumPy runs, the ranking is descending in the
    sum, holds ten rows (or all, if there are fewer) of the category
    table, and no row left out sums to more than a row that is kept.  The
    order among equal sums is the routine's: it is the row order of the
    grouped frame when the routine is stable, which the default quicksort
    does not promise. *)
Theorem top_categories_descending (ties : NumPy.routine) (data : Data)
  (items : list OrderItem) :
  map cs_category (category_sales data items)
  = group_keys (fun r => product_category_name_english (snd r))
               (items_with_categories data items)
  /\ StronglySorted (fun a b => cs_price b <= cs_price a)
       (top_categories ties (category_sales data items))
  /\ List.length (top_categories ties (category_sales data items))
     = Nat.min 10 (List.length (category_sales data items))
  /\ (exists rest,
        Permutation (top_categories ties (category_sales data items) ++ rest)
                    (category_sales data items)
        /\ Forall (fun kept =>
                     Forall (fun low => cs_price low <= cs_price kept) rest)
                  (top_categories ties (category_sales data items)))
  /\ StronglySorted (ranks_before (map cs_price (category_sales data items)))
       (nargsort NumPy.stable (map cs_price (category_sales data items))
          false).
Proof.
  set (cs := category_sales data items).
  assert (Hsorted : forall routine,
            Permutation (take cs (nargsort routine (map cs_price cs) false))
                        cs
            /\ StronglySorted (fun a b => cs_price b <= cs_price a)
                 (take cs (nargsort routine (map cs_price cs) false))).
  { intros routine. unfold nargsort, nargsort_keys.
    destruct (nargsort_descending (map cs_price cs)
                (NumPy.argsort routine (rev (map cs_price cs)))
                (argsort_sorts routine _))
      as (Hperm & Hdesc & _).
    rewrite length_map in Hperm. split; [now apply take_perm |].
    apply (take_StronglySorted cs (not_below (map cs_price cs)));
      [| exact Hdesc].
    intros i j a b Ea Eb Hij. unfold not_below in Hij.
    now rewrite (nth_map_Some cs_price cs i a Ea),
      (nth_map_Some cs_price cs j b Eb) in Hij. }
  destruct (Hsorted ties) as [Hrows Hdesc].
  split; [| split; [| split; [| split]]].
  - unfold cs, category_sales, groupby. rewrite !map_map. simpl.
    apply map_id.
  - unfold top_categories. now apply StronglySorted_firstn.
  - unfold top_categories. rewrite length_firstn.
    now rewrite (Permutation_length Hrows).
  - exists (skipn 10 (take cs (nargsort ties (map cs_price cs) false))).
    unfold top_categories. split.
    + now rewrite firstn_skipn.
    + apply (StronglySorted_head_tail
               (fun a b : CategorySales => cs_price b <= cs_price a)).
      exact Hdesc.
  - unfold nargsort, nargsort_keys.
    apply (nargsort_descending (map cs_price cs)
             (NumPy.argsort NumPy.stable (rev (map cs_price cs)))
             (argsort_sorts NumPy.stable _)).
    apply argsort_stable.
Qed.

(** C7, as stated, fails.  The script asks for no stable sort, and a
    routine need not keep equal keys in place.  In [tied_categories_data]
    auto and baby both sum to R$ 100, toys and watches to R$ 200; a
    routine that puts the later of two equal keys first sorts the price
    column as every routine must, and ranks watches before toys and baby
    before auto, against the row order of the grouped frame. *)
Lemma top_categories_tie_counterexample :
  map (fun r => (cs_category r, cs_price r)) tied_category_sales = tied_sums
  /\ is_argsort (rev (map cs_price tied_category_sales))
       (NumPy.argsort NumPy.later_first
          (rev (map cs_price tied_category_sales))) = true
  /\ nargsort NumPy.later_first (map cs_price tied_category_sales) false
     = [3; 2; 1; 0]%nat
  /\ map cs_category (top_categories NumPy.later_first tied_category_sales)
     = ["watches"; "toys"; "baby"; "auto"]
  /\ ~ StronglySorted (ranks_before (map cs_price tied_category_sales))
         (nargsort NumPy.later_first (map cs_price tied_category_sales)
            false).
Proof.
  split; [vm_compute; reflexivity |].
  split; [vm_compute; reflexivity |].
  split; [vm_compute; reflexivity |].
  split; [vm_compute; reflexivity |].
  intros H.
  assert (E : nargsort NumPy.later_first (map cs_price tied_category_sales)
                false = [3; 2; 1; 0]%nat) by (vm_compute; reflexivity).
  rewrite E in H. apply StronglySorted_inv in H. destruct H as [_ H].
  apply Forall_inv in H. unfold ranks_before in H.
  vm_compute in H. destruct H as [H | [_ H]].
  - discriminate.
  - apply Nat.leb_le in H. discriminate.
Qed.

(* ================================================================== *)
(** * More facts about grouping and joining *)
(* ================================================================== *)

Section UniqueNoDup.
Context {A : Type}.
Variable eqb : A -> A -> bool.
Hypothesis eqb_eq : forall x y, eqb x y = true <-> x = y.

Lemma unique_acc_NoDup (seen l : list A) : NoDup (unique_acc eqb seen l).
Proof.
  revert seen. induction l as [| x tl IH]; intros seen; simpl;
    [constructor |].
  destruct (isin eqb x seen); [apply IH |].
  constructor; [| apply IH].
  intros H. apply (unique_acc_In eqb eqb_eq) in H.
  destruct H as [_ H]. apply H. now left.
Qed.

Lemma unique_NoDup (l : list A) : NoDup (unique eqb l).
Proof. apply unique_acc_NoDup. Qed.

Lemma nunique_pos (l : list A) : l <> [] -> (1 <= nunique eqb l)%nat.
Proof.
  destruct l as [| x tl]; [congruence |]. intros _.
  unfold nunique, unique. simpl. lia.
Qed.
End UniqueNoDup.

Lemma opt_eqb_eq (a : option string) (b : string) :
  opt_eqb a b = true <-> a = Some b.
Proof.
  destruct a as [x |]; simpl.
  - rewrite String.eqb_eq. split; [now intros -> | now intros [= ->]].
  - split; discriminate.
Qed.

Lemma dropna_In {A : Type} (l : list (option A)) (x : A) :
  In x (dropna l) <-> In (Some x) l.
Proof.
  induction l as [| [y |] tl IH]; simpl.
  - tauto.
  - rewrite IH. split; intros [H | H]; auto; left; congruence.
  - rewrite IH. split; [auto | intros [H | H]; [discriminate | exact H]].
Qed.

Lemma insert_key_perm (k : string) (ks : list string) :
  Permutation (insert_key k ks) (k :: ks).
Proof.
  induction ks as [| h tl IH]; simpl; [reflexivity |].
  destruct (String.leb k h); [reflexivity |].
  rewrite IH. apply perm_swap.
Qed.

Lemma sort_keys_perm (ks : list string) : Permutation (sort_keys ks) ks.
Proof.
  induction ks as [| h tl IH]; simpl; [reflexivity |].
  unfold sort_keys in *. simpl. rewrite insert_key_perm. now constructor.
Qed.

Lemma group_keys_In {A : Type} (key : A -> option string) (rows : list A)
  (k : string) :
  In k (group_keys key rows) <-> exists r, In r rows /\ key r = Some k.
Proof.
  unfold group_keys. split.
  - intros H. apply (Permutation_in _ (sort_keys_perm _)) in H.
    apply (unique_In String.eqb string_eqb_eq), dropna_In, in_map_iff in H.
    destruct H as [r [Hk Hr]]. eauto.
  - intros [r [Hr Hk]].
    apply (Permutation_in _ (Permutation_sym (sort_keys_perm _))).
    apply (unique_In String.eqb string_eqb_eq), dropna_In, in_map_iff.
    eauto.
Qed.

Lemma group_keys_NoDup {A : Type} (key : A -> option string)
  (rows : list A) :
  NoDup (group_keys key rows).
Proof.
  unfold group_keys.
  apply (Permutation_NoDup (Permutation_sym (sort_keys_perm _))).
  apply (unique_NoDup String.eqb string_eqb_eq).
Qed.

Lemma groupby_keys {A : Type} (key : A -> option string) (rows : list A) :
  map fst (groupby key rows) = group_keys key rows.
Proof. unfold groupby. rewrite map_map. apply map_id. Qed.

(** A group holds the rows of its key, in row order, and at least one. *)
Lemma groupby_In {A : Type} (key : A -> option string) (rows : list A)
  (g : string * list A) :
  In g (groupby key rows) ->
  snd g = filter (fun r => opt_eqb (key r) (fst g)) rows
  /\ snd g <> []
  /\ (forall r, In r (snd g) -> In r rows /\ key r = Some (fst g)).
Proof.
  unfold groupby. intros H. apply in_map_iff in H.
  destruct H as [k [<- Hk]]. cbn [fst snd].
  split; [reflexivity |]. split.
  - apply group_keys_In in Hk. destruct Hk as [r [Hr Hkey]].
    intros E. assert (Hin : In r (filter (fun r => opt_eqb (key r) k) rows)).
    { apply filter_In. split; [exact Hr | now apply opt_eqb_eq]. }
    rewrite E in Hin. contradiction.
  - intros r Hr. apply filter_In in Hr. destruct Hr as [Hr Hkey].
    split; [exact Hr | now apply opt_eqb_eq].
Qed.

Lemma sum_zeros {A : Type} (l : list A) : sum (map (fun _ => 0) l) = 0.
Proof.
  unfold sum. induction l as [| x tl IH]; simpl; [reflexivity | exact IH].
Qed.

Lemma sum_app (l1 l2 : list Z) : sum (l1 ++ l2)%list = sum l1 + sum l2.
Proof.
  unfold sum. induction l1 as [| x tl IH]; simpl; [reflexivity |].
  rewrite IH. lia.
Qed.

Lemma sum_hits (x : option string) (v : Z) (ks : list string) :
  NoDup ks ->
  sum (map (fun k => if opt_eqb x k then v else 0) ks)
  = if match x with
       | Some k => isin String.eqb k ks
       | None => false
       end
    then v else 0.
Proof.
  induction 1 as [| k tl Hk Hnd IH]; simpl.
  - now destruct x.
  - unfold sum in *. simpl. rewrite IH. destruct x as [y |]; simpl;
      [| reflexivity].
    rewrite (String.eqb_sym y k).
    destruct (String.eqb_spec k y) as [-> | Hne]; simpl; [| reflexivity].
    destruct (isin String.eqb y tl) eqn:E; [| lia].
    apply (isin_In String.eqb string_eqb_eq) in E. contradiction.
Qed.

Lemma sum_groups_cons {A : Type} (key : A -> option string) (f : A -> Z)
  (r : A) (rows : list A) (ks : list string) :
  sum (map (fun k => sum (map f (filter (fun r => opt_eqb (key r) k)
                                        (r :: rows)))) ks)
  = sum (map (fun k => if opt_eqb (key r) k then f r else 0) ks)
    + sum (map (fun k => sum (map f (filter (fun r => opt_eqb (key r) k)
                                            rows))) ks).
Proof.
  induction ks as [| k tl IH]; [reflexivity |].
  cbn [map]. unfold sum in *. cbn [fold_right]. rewrite IH.
  cbn [filter]. destruct (opt_eqb (key r) k); cbn [map fold_right]; lia.
Qed.

(** Grouping conserves a sum: the group sums add up to the sum over the
    rows that have a key. *)
Lemma groupby_sum {A : Type} (key : A -> option string) (f : A -> Z)
  (rows : list A) :
  sum (map (fun g => sum (map f (snd g))) (groupby key rows))
  = sum (map f (filter (has_key key) rows)).
Proof.
  unfold groupby. rewrite map_map. cbn [snd].
  pose proof (group_keys_NoDup key rows) as Hnd.
  assert (Hin : forall r, In r rows -> forall k, key r = Some k ->
                  In k (group_keys key rows)).
  { intros r Hr k Hk. apply group_keys_In. eauto. }
  revert Hnd Hin. generalize (group_keys key rows) as ks.
  induction rows as [| r tl IH]; intros ks Hnd Hin.
  - exact (sum_zeros ks).
  - rewrite sum_groups_cons, sum_hits by exact Hnd.
    rewrite IH; [| exact Hnd | intros x Hx; apply Hin; now right].
    cbn [filter]. unfold has_key at 2.
    destruct (key r) as [k |] eqn:Ek.
    + assert (Hk : isin String.eqb k ks = true).
      { apply (isin_In String.eqb string_eqb_eq).
        apply (Hin r); [now left | exact Ek]. }
      rewrite Hk. reflexivity.
    + reflexivity.
Qed.

Lemma merge_In {L R : Type} (kl : L -> string) (kr : R -> string)
  (left : list L) (right : list R) (l : L) (r : R) :
  In (l, r) (merge kl kr left right) <->
  In l left /\ In r right /\ kl l = kr r.
Proof.
  unfold merge. rewrite in_flat_map. split.
  - intros [x [Hx H]]. apply in_map_iff in H.
    destruct H as [y [E Hy]]. inversion E; subst.
    apply filter_In in Hy. destruct Hy as [Hy Hk].
    apply String.eqb_eq in Hk. auto.
  - intros [Hl [Hr Hk]]. exists l. split; [exact Hl |].
    apply in_map, filter_In. split; [exact Hr | now apply String.eqb_eq].
Qed.

Lemma flat_map_singletons {A B : Type} (f : A -> list B) (h : A -> B)
  (l : list A) :
  (forall x, In x l -> f x = [h x]) -> flat_map f l = map h l.
Proof.
  induction l as [| x tl IH]; intros H; simpl; [reflexivity |].
  rewrite (H x) by now left. simpl. f_equal. apply IH.
  intros y Hy. apply H. now right.
Qed.

(** In a frame with pairwise distinct keys, a key selects one row. *)
Lemma filter_unique_key {A : Type} (k : A -> string) (l : list A) (x : A) :
  NoDup (map k l) -> In x l ->
  filter (fun y => String.eqb (k x) (k y)) l = [x].
Proof.
  induction l as [| a tl IH]; intros Hnd Hin; [contradiction |].
  simpl in Hnd. inversion Hnd as [| ? ? Ha Htl]; subst. simpl.
  destruct Hin as [-> | Hin].
  - rewrite String.eqb_refl. f_equal. apply filter_nothing.
    intros y Hy. apply String.eqb_neq. intros E. apply Ha.
    rewrite E. now apply in_map.
  - destruct (String.eqb_spec (k x) (k a)) as [E | _].
    + exfalso. apply Ha. rewrite <- E. now apply in_map.
    + now apply IH.
Qed.

(** Joining two frames computed row by row from one list of groups with
    distinct keys pairs them row by row. *)
Lemma merge_aligned {G L R : Type} (key : G -> string) (fa : G -> L)
  (fb : G -> R) (kl : L -> string) (kr : R -> string) (gs : list G) :
  (forall g, kl (fa g) = key g) -> (forall g, kr (fb g) = key g) ->
  NoDup (map key gs) ->
  merge kl kr (map fa gs) (map fb gs) = map (fun g => (fa g, fb g)) gs.
Proof.
  intros Hl Hr Hnd. unfold merge. rewrite flat_map_concat_map, map_map.
  rewrite <- flat_map_concat_map.
  apply flat_map_singletons. intros g Hg.
  assert (E : filter (fun r => String.eqb (kl (fa g)) (kr r)) (map fb gs)
              = map fb (filter (fun g' => String.eqb (key g) (key g')) gs)).
  { clear Hg Hnd. induction gs as [| a tl IH]; simpl; [reflexivity |].
    rewrite IH, (Hl g), (Hr a). now destruct (String.eqb (key g) (key a)). }
  rewrite E, filter_unique_key by assumption. reflexivity.
Qed.

(** With distinct keys on the right, a left row that has a match has
    exactly one, so the join keeps the left rows as they are. *)
Lemma merge_right_unique {L R : Type} (kl : L -> string) (kr : R -> string)
  (left : list L) (right : list R) :
  NoDup (map kr right) ->
  (forall l, In l left -> exists r, In r right /\ kr r = kl l) ->
  map fst (merge kl kr left right) = left.
Proof.
  intros Hnd Hall. unfold merge.
  induction left as [| l tl IH]; [reflexivity |].
  cbn [flat_map]. rewrite map_app, IH
    by (intros x Hx; apply Hall; now right).
  destruct (Hall l) as [r [Hr Hk]]; [now left |].
  rewrite <- Hk, (filter_unique_key kr right r Hnd Hr). reflexivity.
Qed.

Lemma sum_cons (x : Z) (l : list Z) : sum (x :: l) = x + sum l.
Proof. reflexivity. Qed.

Lemma filter_or_perm {A : Type} (p q : A -> bool) (l : list A) :
  (forall x, In x l -> p x = true -> q x = false) ->
  Permutation (filter (fun x => p x || q x) l) (filter p l ++ filter q l).
Proof.
  induction l as [| x tl IH]; intros H; [reflexivity |].
  pose proof (H x (or_introl eq_refl)) as Hx.
  specialize (IH (fun y Hy => H y (or_intror Hy))).
  cbn [filter]. destruct (p x) eqn:Ep.
  - rewrite Hx by reflexivity. cbn [orb app]. now constructor.
  - destruct (q x); cbn [orb]; [| exact IH].
    rewrite IH. apply Permutation_middle.
Qed.

(** With distinct keys on the left, the join holds each right row whose
    key occurs on the left exactly once. *)
Lemma merge_rows_left_unique {L R : Type} (kl : L -> string)
  (kr : R -> string) (left : list L) (right : list R) :
  NoDup (map kl left) ->
  Permutation (map snd (merge kl kr left right))
              (filter (fun r => isin String.eqb (kr r) (map kl left)) right).
Proof.
  unfold merge. induction left as [| l tl IH]; intros Hnd.
  - simpl. rewrite filter_nothing by reflexivity. reflexivity.
  - simpl in Hnd. inversion Hnd as [| ? ? Hl Htl]; subst.
    cbn [flat_map]. rewrite map_app, (IH Htl).
    rewrite (map_map (pair l)). cbn [snd]. rewrite map_id.
    change (fun r => isin String.eqb (kr r) (map kl (l :: tl)))
      with (fun r => String.eqb (kr r) (kl l)
                     || isin String.eqb (kr r) (map kl tl)).
    rewrite (filter_or_perm (fun r => String.eqb (kr r) (kl l))).
    + apply Permutation_app_tail.
      erewrite filter_ext; [reflexivity |].
      intros r. apply String.eqb_sym.
    + intros r _ E. apply String.eqb_eq in E.
      destruct (isin String.eqb (kr r) (map kl tl)) eqn:Ei; [| reflexivity].
      apply (isin_In String.eqb string_eqb_eq) in Ei.
      rewrite E in Ei. contradiction.
Qed.

Lemma flat_map_empty {A B : Type} (l : list A) :
  flat_map (fun _ : A => @nil B) l = [].
Proof. induction l as [| x tl IH]; [reflexivity | exact IH]. Qed.

Lemma flat_map_app_perm {A B : Type} (f g : A -> list B) (l : list A) :
  Permutation (flat_map (fun k => (f k ++ g k)%list) l)
              (flat_map f l ++ flat_map g l).
Proof.
  induction l as [| a tl IH]; [reflexivity |].
  cbn [flat_map]. rewrite IH, <- !app_assoc.
  apply Permutation_app_head. rewrite !app_assoc.
  apply Permutation_app_tail, Permutation_app_comm.
Qed.

Lemma row_hits {A : Type} (x : option string) (r : A) (ks : list string) :
  NoDup ks ->
  flat_map (fun k => if opt_eqb x k then [r] else []) ks
  = if match x with
       | Some k => isin String.eqb k ks
       | None => false
       end
    then [r] else [].
Proof.
  induction 1 as [| k tl Hk Hnd IH]; cbn [flat_map].
  - now destruct x.
  - rewrite IH. destruct x as [y |]; cbn [opt_eqb]; [| reflexivity].
    change (isin String.eqb y (k :: tl))
      with (String.eqb y k || isin String.eqb y tl).
    rewrite (String.eqb_sym y k).
    destruct (String.eqb_spec k y) as [-> | Hne]; cbn [orb app];
      [| reflexivity].
    destruct (isin String.eqb y tl) eqn:E; [| reflexivity].
    apply (isin_In String.eqb string_eqb_eq) in E. contradiction.
Qed.

(** Grouping is a partition: every row that has a key is in exactly one
    group, once. *)
Lemma groupby_partition {A : Type} (key : A -> option string)
  (rows : list A) :
  Permutation (List.concat (map snd (groupby key rows)))
              (filter (has_key key) rows).
Proof.
  unfold groupby. rewrite map_map. cbn [snd]. rewrite <- flat_map_concat_map.
  pose proof (group_keys_NoDup key rows) as Hnd.
  assert (Hin : forall r, In r rows -> forall k, key r = Some k ->
                  In k (group_keys key rows)).
  { intros r Hr k Hk. apply group_keys_In. eauto. }
  revert Hnd Hin. generalize (group_keys key rows) as ks.
  induction rows as [| r tl IH]; intros ks Hnd Hin.
  - cbn [filter]. now rewrite flat_map_empty.
  - assert (E : flat_map (fun k => filter (fun r => opt_eqb (key r) k)
                                          (r :: tl)) ks
                = flat_map (fun k => ((if opt_eqb (key r) k then [r] else [])
                                      ++ filter (fun r => opt_eqb (key r) k)
                                                tl)%list) ks).
    { apply flat_map_ext. intros k. cbn [filter].
      now destruct (opt_eqb (key r) k). }
    rewrite E, flat_map_app_perm, row_hits by exact Hnd.
    rewrite (IH ks Hnd) by (intros x Hx; apply Hin; now right).
    cbn [filter]. unfold has_key at 2.
    destruct (key r) as [k |] eqn:Ek; [| reflexivity].
    assert (Hk : isin String.eqb k ks = true).
    { apply (isin_In String.eqb string_eqb_eq).
      apply (Hin r); [now left | exact Ek]. }
    rewrite Hk. reflexivity.
Qed.

Lemma sum_nonneg {A : Type} (f : A -> Z) (l : list A) :
  (forall x, In x l -> 0 <= f x) -> 0 <= sum (map f l).
Proof.
  induction l as [| x tl IH]; intros H; [unfold sum; simpl; lia |].
  cbn [map]. rewrite sum_cons.
  pose proof (H x (or_introl eq_refl)).
  specialize (IH (fun y Hy => H y (or_intror Hy))). lia.
Qed.

Lemma sum_filter_le {A : Type} (f : A -> Z) (p : A -> bool) (l : list A) :
  (forall x, In x l -> 0 <= f x) ->
  sum (map f (filter p l)) <= sum (map f l).
Proof.
  induction l as [| x tl IH]; intros H; [reflexivity |].
  pose proof (H x (or_introl eq_refl)).
  specialize (IH (fun y Hy => H y (or_intror Hy))).
  cbn [filter]. destruct (p x); cbn [map]; rewrite ?sum_cons; lia.
Qed.

Lemma sum_ge_row {A : Type} (f : A -> Z) (l : list A) (x : A) :
  (forall y, In y l -> 0 <= f y) -> In x l -> f x <= sum (map f l).
Proof.
  induction l as [| a tl IH]; intros H Hx; [contradiction |].
  cbn [map]. rewrite sum_cons.
  pose proof (H a (or_introl eq_refl)).
  pose proof (sum_nonneg f tl (fun y Hy => H y (or_intror Hy))).
  destruct Hx as [-> | Hx]; [lia |].
  specialize (IH (fun y Hy => H y (or_intror Hy)) Hx). lia.
Qed.

Lemma sum_all_zero {A : Type} (f : A -> Z) (l : list A) :
  (forall x, In x l -> f x = 0) -> sum (map f l) = 0.
Proof.
  induction l as [| x tl IH]; intros H; [reflexivity |].
  cbn [map]. rewrite sum_cons, (H x) by now left.
  rewrite IH; [reflexivity |]. intros y Hy. apply H. now right.
Qed.

(** Filtering a frame whose key column has no repeated value leaves a
    frame whose key column has none. *)
Lemma filter_keeps_keys_distinct {A : Type} (key : A -> string)
  (keep : A -> bool) (rows : list A) :
  NoDup (map key rows) -> NoDup (map key (filter keep rows)).
Proof.
  intros Hnd. induction rows as [| r tl IH]; [constructor |].
  cbn [map] in Hnd. apply NoDup_cons_iff in Hnd. destruct Hnd as [Hr Htl].
  cbn [filter]. destruct (keep r); [| now apply IH].
  cbn [map]. apply NoDup_cons; [| now apply IH].
  intros Hin. apply Hr. apply in_map_iff in Hin.
  destruct Hin as [y [E Hy]]. apply filter_In in Hy.
  apply in_map_iff. exists y. tauto.
Qed.

Lemma filter_all {A : Type} (p : A -> bool) (l : list A) :
  (forall x, In x l -> p x = true) -> filter p l = l.
Proof.
  induction l as [| x tl IH]; intros H; simpl; [reflexivity |].
  rewrite (H x) by now left. f_equal. apply IH.
  intros y Hy. apply H. now right.
Qed.

(** The items that pass [filtered_items] are rows of [order_items] and
    belong to an order of the window. *)
Lemma filtered_items_In (data : Data) (start_date end_date : Z)
  (selected_category : option string) (it : OrderItem) :
  In it (filtered_items data start_date end_date selected_category) ->
  In it (order_items data)
  /\ exists o, In o (filtered_orders data start_date end_date)
               /\ order_id o = item_order_id it.
Proof.
  intros H.
  assert (Hj : In it (joined_items data start_date end_date)).
  { unfold filtered_items in H.
    destruct (truthy selected_category); [| exact H].
    apply filter_In in H. tauto. }
  unfold joined_items in Hj. apply in_map_iff in Hj.
  destruct Hj as [[o it'] [E Hin]]. cbn [snd] in E. subst it'.
  apply merge_In in Hin. destruct Hin as (Ho & Hi & Hk). eauto.
Qed.

Lemma maximum_In (l : list Z) (x : Z) : In (maximum x l) (x :: l).
Proof.
  revert x. induction l as [| y tl IH]; intros x; simpl; [now left |].
  destruct (IH (Z.max x y)) as [H | H].
  - rewrite <- H.
    destruct (Z.max_spec x y) as [[_ E] | [_ E]]; rewrite E; auto.
  - right. now right.
Qed.

Lemma subframe_filter_impl {A : Type} (p q : A -> bool) (l : list A) :
  (forall x, p x = true -> q x = true) ->
  subframe (filter p l) (filter q l).
Proof.
  intros H. induction l as [| x tl IH]; simpl; [constructor |].
  destruct (p x) eqn:Ep.
  - rewrite (H x Ep). now constructor.
  - destruct (q x); [now constructor | exact IH].
Qed.

Lemma subframe_refl {A : Type} (l : list A) : subframe l l.
Proof. induction l; now constructor. Qed.

(** The extremes of the purchase times of a dataset with orders. *)
Lemma date_extremes (data : Data) :
  orders data <> [] ->
  exists mn mx,
    min_date data = Some mn /\ max_date data = Some mx
    /\ (forall o, In o (orders data) ->
          mn <= order_purchase_timestamp o <= mx)
    /\ exists o, In o (orders data) /\ order_purchase_timestamp o = mx.
Proof.
  intros Hne. unfold min_date, max_date.
  destruct (orders data) as [| o0 tl] eqn:E; [congruence |].
  cbn [map].
  set (t0 := order_purchase_timestamp o0).
  set (ts := map order_purchase_timestamp tl).
  exists (minimum t0 ts), (maximum t0 ts).
  split; [reflexivity |]. split; [reflexivity |].
  destruct (minimum_le ts t0) as [Hmn0 Hmn].
  destruct (maximum_ge ts t0) as [Hmx0 Hmx]. split.
  - intros o [<- | Ho]; [fold t0; lia |].
    assert (Hin : In (order_purchase_timestamp o) ts) by now apply in_map.
    split; [now apply Hmn | now apply Hmx].
  - pose proof (maximum_In ts t0) as Hin.
    change (t0 :: ts) with (map order_purchase_timestamp (o0 :: tl)) in Hin.
    apply in_map_iff in Hin. destruct Hin as [o [Ho Hi]]. eauto.
Qed.

(* ================================================================== *)
(** * Properties of the period filter *)
(* ================================================================== *)

(** X1.  On a dataset with orders, each preset period ends at the latest
    purchase and does not start after it, so the latest order is always
    in the filtered frame: a preset never selects nothing. *)
Theorem preset_window_holds_latest_order (data : Data)
  (option : date_option) :
  orders data <> [] ->
  In option [SemuaData; TahunTerakhir; EnamBulanTerakhir;
             TigaBulanTerakhir] ->
  exists start_date end_date,
    date_range data option = Some (start_date, end_date)
    /\ max_date data = Some end_date
    /\ start_date <= end_date
    /\ exists o, In o (filtered_orders data start_date end_date)
                 /\ order_purchase_timestamp o = end_date.
Proof.
  intros Hne Hopt.
  destruct (date_extremes data Hne)
    as (mn & mx & Emn & Emx & Hall & o & Ho & Hts).
  unfold date_range. rewrite Emn, Emx.
  assert (Hmn : mn <= mx) by (specialize (Hall o Ho); lia).
  assert (Hlast : forall s, s <= mx ->
            exists o, In o (filtered_orders data s mx)
                      /\ order_purchase_timestamp o = mx).
  { intros s Hs. exists o. split; [| exact Hts].
    apply filter_In. split; [exact Ho |]. apply in_window_bounds. lia. }
  unfold timedelta, seconds_per_day.
  destruct Hopt as [<- | [<- | [<- | [<- | []]]]];
    eexists; eexists; (split; [reflexivity |]);
    (split; [reflexivity |]); (split; [lia |]); apply Hlast; lia.
Qed.

Lemma preset_window_holds_latest_order_witness :
  exists start_date end_date,
    date_range single_order_data TigaBulanTerakhir
    = Some (start_date, end_date)
    /\ start_date <= end_date.
Proof.
  destruct (preset_window_holds_latest_order single_order_data
              TigaBulanTerakhir) as (s & e & E & _ & Hle & _).
  - discriminate.
  - simpl. tauto.
  - exists s, e. split; [exact E | exact Hle].
Defined.

(** X2.  The option "Semua Data" keeps every order of a dataset with
    orders, in every tab that filters by date only. *)
Theorem semua_data_keeps_every_order (data : Data) :
  orders data <> [] ->
  exists start_date end_date,
    date_range data SemuaData = Some (start_date, end_date)
    /\ min_date data = Some start_date
    /\ max_date data = Some end_date
    /\ filtered_orders data start_date end_date = orders data.
Proof.
  intros Hne.
  destruct (date_extremes data Hne) as (mn & mx & Emn & Emx & Hall & _).
  exists mn, mx. unfold date_range. rewrite Emn, Emx.
  repeat split. apply filter_all. intros o Ho.
  apply in_window_bounds. now apply Hall.
Qed.

Lemma semua_data_keeps_every_order_witness :
  exists start_date end_date,
    date_range single_order_data SemuaData = Some (start_date, end_date)
    /\ filtered_orders single_order_data start_date end_date
       = orders single_order_data.
Proof.
  destruct (semua_data_keeps_every_order single_order_data)
    as (s & e & E & _ & _ & H).
  - discriminate.
  - exists s, e. split; [exact E | exact H].
Defined.

(** X3.  Widening the window only adds orders: the frame of a window is
    a sub-frame of the frame of any window that contains it, for the date
    filter and for the date and status filter.  Hence, with the presets,
    the last 3 months are within the last 6 months, those within the last
    year (all ending at the latest purchase). *)
Theorem wider_window_keeps_more (data : Data)
  (start_date end_date start_date' end_date' : Z) :
  start_date' <= start_date -> end_date <= end_date' ->
  subframe (filtered_orders data start_date end_date)
           (filtered_orders data start_date' end_date')
  /\ subframe (filtered_orders_rfm data start_date end_date)
              (filtered_orders_rfm data start_date' end_date')
  /\ (forall mx,
        subframe (filtered_orders data (mx - timedelta 90) mx)
                 (filtered_orders data (mx - timedelta 180) mx)
        /\ subframe (filtered_orders data (mx - timedelta 180) mx)
                    (filtered_orders data (mx - timedelta 365) mx)).
Proof.
  intros Hs He.
  assert (Hw : forall s e s' e' o, s' <= s -> e <= e' ->
                 in_window s e o = true -> in_window s' e' o = true).
  { intros s e s' e' o H1 H2 H. apply in_window_bounds in H.
    apply in_window_bounds. lia. }
  split; [| split].
  - apply subframe_filter_impl. intros o. now apply Hw.
  - apply subframe_filter_impl. intros o H.
    apply andb_true_iff in H. destruct H as [H1 H2].
    apply andb_true_iff. split; [now apply (Hw start_date end_date) | exact H2].
  - intros mx. unfold timedelta, seconds_per_day.
    split; apply subframe_filter_impl; intros o; apply Hw; lia.
Qed.

Lemma wider_window_keeps_more_witness :
  subframe (filtered_orders single_order_data (day 17532) (day 17532))
           (filtered_orders single_order_data (day 17000) (day 18000)).
Proof.
  apply (wider_window_keeps_more single_order_data (day 17532) (day 17532)
           (day 17000) (day 18000)); vm_compute; discriminate.
Defined.

(** X4.  With the option "Kustom" and both date inputs left at their
    defaults, the window runs from the midnight of the first purchase day
    to the midnight of the last purchase day: no order is cut off at the
    start, an order is kept exactly when it was bought by that last
    midnight, and the latest order is dropped unless it was bought at
    midnight sharp. *)
Theorem kustom_default_stops_at_last_midnight (data : Data) :
  orders data <> [] ->
  exists option start_date end_date mn mx,
    kustom_default data = Some option
    /\ date_range data option = Some (start_date, end_date)
    /\ min_date data = Some mn /\ max_date data = Some mx
    /\ start_date <= mn
    /\ mx - seconds_per_day < end_date <= mx
    /\ (forall o, In o (orders data) ->
          (In o (filtered_orders data start_date end_date)
           <-> order_purchase_timestamp o <= end_date))
    /\ (mx mod seconds_per_day <> 0 ->
        exists o, In o (orders data)
                  /\ order_purchase_timestamp o = mx
                  /\ ~ In o (filtered_orders data start_date end_date)).
Proof.
  intros Hne.
  destruct (date_extremes data Hne)
    as (mn & mx & Emn & Emx & Hall & o & Ho & Hts).
  exists (Kustom (date_of mn) (date_of mx)),
    (to_datetime (date_of mn)), (to_datetime (date_of mx)), mn, mx.
  unfold kustom_default, date_range. rewrite Emn, Emx.
  unfold to_datetime, date_of, seconds_per_day.
  pose proof (Z.div_mod mn 86400 ltac:(lia)) as Dmn.
  pose proof (Z.mod_pos_bound mn 86400 ltac:(lia)) as Bmn.
  pose proof (Z.div_mod mx 86400 ltac:(lia)) as Dmx.
  pose proof (Z.mod_pos_bound mx 86400 ltac:(lia)) as Bmx.
  repeat (split; [reflexivity |]).
  split; [lia |]. split; [lia |]. split.
  - intros o' Ho'. specialize (Hall o' Ho'). split.
    + intros H. apply filter_In in H. destruct H as [_ H].
      apply in_window_bounds in H. lia.
    + intros H. apply filter_In. split; [exact Ho' |].
      apply in_window_bounds. lia.
  - intros Hmod. exists o. split; [exact Ho |]. split; [exact Hts |].
    intros H. apply filter_In in H. destruct H as [_ H].
    apply in_window_bounds in H. lia.
Qed.

Lemma kustom_default_stops_at_last_midnight_witness :
  exists option start_date end_date,
    kustom_default single_order_data = Some option
    /\ date_range single_order_data option = Some (start_date, end_date).
Proof.
  destruct (kustom_default_stops_at_last_midnight single_order_data)
    as (opt & s & e & mn & mx & E1 & E2 & _).
  - discriminate.
  - exists opt, s, e. split; [exact E1 | exact E2].
Defined.

(* ================================================================== *)
(** * Properties of the category choice and of tab 1 *)
(* ================================================================== *)

(** X5.  The category select box offers "All Categories", which stands
    for no filter, followed by each translated category that some product
    carries, once each; a product without a translation adds nothing to
    the list. *)
Theorem categories_are_the_translated_ones (data : Data) :
  hd "" (categories data) = "All Categories"
  /\ selected_category_of "All Categories" = None
  /\ NoDup (tl (categories data))
  /\ (forall c, In c (tl (categories data)) <->
                exists p, In p (products data)
                          /\ product_category_name_english p = Some c)
  /\ (forall c, c <> "All Categories" ->
                selected_category_of c = Some c).
Proof.
  split; [reflexivity |]. split; [reflexivity |]. split; [| split].
  - apply (group_keys_NoDup product_category_name_english).
  - intros c. apply (group_keys_In product_category_name_english).
  - intros c Hc. unfold selected_category_of.
    destruct (String.eqb_spec c "All Categories"); [contradiction |].
    reflexivity.
Qed.

Lemma unique_nil_iff {A : Type} (eqb : A -> A -> bool) (l : list A) :
  unique eqb l = [] <-> l = [].
Proof.
  split; [| now intros ->].
  destruct l as [| x tl]; [reflexivity |]. unfold unique. simpl. discriminate.
Qed.

(** X6.  "Total Pesanan" counts the distinct orders among the filtered
    items: it never exceeds the number of orders in the window, and it is
    zero exactly when no item passes the filters, the case in which the
    average order value is set to 0. *)
Theorem total_orders_bounds (data : Data) (start_date end_date : Z)
  (selected_category : option string) :
  0 <= total_orders
         (filtered_items data start_date end_date selected_category)
    <= Z.of_nat (List.length (filtered_orders data start_date end_date))
  /\ (total_orders
        (filtered_items data start_date end_date selected_category) = 0
      <-> filtered_items data start_date end_date selected_category = []).
Proof.
  set (items := filtered_items data start_date end_date selected_category).
  unfold total_orders, nunique. split.
  - split; [lia |]. apply inj_le.
    rewrite <- (length_map order_id).
    apply NoDup_incl_length;
      [apply (unique_NoDup String.eqb string_eqb_eq) |].
    intros k Hk. apply (proj1 (unique_In String.eqb string_eqb_eq _ _)) in Hk.
    apply in_map_iff in Hk. destruct Hk as [it [<- Hit]].
    destruct (filtered_items_In _ _ _ _ _ Hit) as [_ [o [Ho E]]].
    rewrite <- E. now apply in_map.
  - split.
    + intros H.
      assert (E : unique String.eqb (map item_order_id items) = []).
      { destruct (unique String.eqb (map item_order_id items));
          [reflexivity | simpl in H; lia]. }
      apply unique_nil_iff in E. now apply map_eq_nil in E.
    + now intros ->.
Qed.

(** X7.  With order ids that are unique in the orders table, the join
    behind the monthly trend holds every filtered item exactly once, and
    every row of the join lies in exactly one month: each month is listed
    once, and the months' groups together are the rows of the join.  So
    no item is counted twice or dropped by the trend. *)
Theorem monthly_sales_counts_each_item_once (to_period_M : Z -> string)
  (data : Data) (start_date end_date : Z)
  (selected_category : option string) :
  NoDup (map order_id (orders data)) ->
  Permutation
    (map snd (sales_over_time data start_date end_date selected_category))
    (filtered_items data start_date end_date selected_category)
  /\ Permutation
       (List.concat (map snd (groupby (month_of to_period_M)
                           (sales_over_time data start_date end_date
                              selected_category))))
       (sales_over_time data start_date end_date selected_category)
  /\ map fst (monthly_sales to_period_M data start_date end_date
                selected_category)
     = map fst (groupby (month_of to_period_M)
                  (sales_over_time data start_date end_date
                     selected_category))
  /\ NoDup (map fst (monthly_sales to_period_M data start_date end_date
                       selected_category)).
Proof.
  intros Hnd.
  assert (Hkeys : map fst (monthly_sales to_period_M data start_date end_date
                             selected_category)
                  = map fst (groupby (month_of to_period_M)
                               (sales_over_time data start_date end_date
                                  selected_category))).
  { unfold monthly_sales. rewrite map_map. reflexivity. }
  split; [| split; [| split]].
  - unfold sales_over_time.
    rewrite merge_rows_left_unique
      by (unfold filtered_orders; now apply filter_keeps_keys_distinct).
    rewrite filter_all; [reflexivity |].
    intros it Hit. apply (isin_In String.eqb string_eqb_eq).
    destruct (filtered_items_In _ _ _ _ _ Hit) as [_ [o [Ho E]]].
    rewrite <- E. now apply in_map.
  - rewrite groupby_partition. now rewrite filter_all by reflexivity.
  - exact Hkeys.
  - rewrite Hkeys, groupby_keys. apply group_keys_NoDup.
Qed.

Lemma monthly_sales_counts_each_item_once_witness :
  NoDup (map order_id (orders single_order_data))
  /\ Permutation
       (map snd (sales_over_time single_order_data (day 17532) (day 17532)
                   None))
       (filtered_items single_order_data (day 17532) (day 17532) None).
Proof.
  assert (H : NoDup (map order_id (orders single_order_data))).
  { repeat constructor. intros []. }
  split; [exact H |].
  exact (proj1 (monthly_sales_counts_each_item_once (fun _ => "2018-01")
                  single_order_data (day 17532) (day 17532) None H)).
Defined.

Lemma unique_key_row {A : Type} (k : A -> string) (l : list A) (x y : A) :
  NoDup (map k l) -> In x l -> In y l -> k x = k y -> x = y.
Proof.
  intros Hnd Hx Hy E.
  assert (Hin : In y (filter (fun z => String.eqb (k x) (k z)) l)).
  { apply filter_In. split; [exact Hy | now apply String.eqb_eq]. }
  rewrite (filter_unique_key k l x Hnd Hx) in Hin.
  destruct Hin as [-> | []]. reflexivity.
Qed.

(** X8.  The category table has one row for each translated category
    that an item's product carries, and each row counts at least one
    order.  The rows' groups together are the item-product rows whose
    product has a translated category, each once: an item of a product
    without translation is in no category row.  With product ids that are
    unique and a translated product for every item, the groups together
    are the items, each once. *)
Theorem category_rows_hold_each_item_once (data : Data)
  (items : list OrderItem) :
  NoDup (map cs_category (category_sales data items))
  /\ (forall c,
        In c (map cs_category (category_sales data items)) <->
        exists it p,
          In it items /\ In p (products data)
          /\ product_id p = item_product_id it
          /\ product_category_name_english p = Some c)
  /\ Forall (fun row => 1 <= cs_order_id row) (category_sales data items)
  /\ Permutation
       (List.concat (map snd (groupby category_of
                           (items_with_categories data items))))
       (filter (has_key category_of) (items_with_categories data items))
  /\ (NoDup (map product_id (products data)) ->
      (forall it, In it items ->
         exists p c, In p (products data)
                     /\ product_id p = item_product_id it
                     /\ product_category_name_english p = Some c) ->
      Permutation
        (map fst (List.concat (map snd (groupby category_of
                                     (items_with_categories data items)))))
        items).
Proof.
  assert (Hkeys : map cs_category (category_sales data items)
                  = group_keys category_of
                      (items_with_categories data items)).
  { unfold category_sales, groupby. rewrite !map_map. simpl. apply map_id. }
  split; [| split; [| split; [| split]]].
  - rewrite Hkeys. apply group_keys_NoDup.
  - intros c. rewrite Hkeys, group_keys_In. unfold items_with_categories.
    split.
    + intros [[it p] [Hin Hc]]. apply merge_In in Hin.
      destruct Hin as (Hit & Hp & Hk). exists it, p. auto.
    + intros (it & p & Hit & Hp & Hk & Hc). exists (it, p).
      split; [| exact Hc]. apply merge_In. auto.
  - unfold category_sales. apply Forall_map, Forall_forall.
    intros g Hg. cbn [cs_order_id].
    destruct (groupby_In _ _ g Hg) as (_ & Hne & _).
    apply (inj_le 1). apply nunique_pos.
    intros E. apply map_eq_nil in E. contradiction.
  - apply groupby_partition.
  - intros Hnd Hall. rewrite groupby_partition, filter_all.
    + unfold items_with_categories.
      rewrite merge_right_unique; [reflexivity | exact Hnd |].
      intros it Hit. destruct (Hall it Hit) as (p & c & Hp & Hid & _).
      exists p. split; [exact Hp | exact Hid].
    + intros [it p] Hin. unfold items_with_categories in Hin.
      apply merge_In in Hin. destruct Hin as (Hit & Hp & Hk).
      destruct (Hall it Hit) as (p' & c & Hp' & Hid & Hc).
      assert (p' = p).
      { apply (unique_key_row product_id (products data)); try assumption.
        congruence. }
      subst p'. unfold has_key, category_of. cbn [snd]. now rewrite Hc.
Qed.

Lemma category_rows_hold_each_item_once_witness :
  NoDup (map product_id (products single_order_data))
  /\ Permutation
       (map fst (List.concat (map snd
                           (groupby category_of
                              (items_with_categories single_order_data
                                 (order_items single_order_data))))))
       (order_items single_order_data).
Proof.
  assert (H : NoDup (map product_id (products single_order_data))).
  { repeat constructor. intros []. }
  split; [exact H |].
  apply (proj2 (proj2 (proj2 (proj2
           (category_rows_hold_each_item_once single_order_data
              (order_items single_order_data))))) H).
  intros it [<- | []].
  exists (mkProduct "p1" (Some "pet_shop") (Some "pet_shop")), "pet_shop".
  repeat split. now left.
Defined.

(* ================================================================== *)
(** * Properties of tab 5 *)
(* ================================================================== *)

Lemma subframe_filter_mono {A : Type} (p : A -> bool) (sub full : list A) :
  subframe sub full -> subframe (filter p sub) (filter p full).
Proof.
  induction 1 as [| x sub full H IH | x sub full H IH]; simpl.
  - constructor.
  - destruct (p x); [now constructor | exact IH].
  - destruct (p x); [now constructor | exact IH].
Qed.

(** X10.  With a state selected, tab 5 keeps exactly the orders of the
    window whose customer id belongs to a customer row of that state, in
    order; an order whose customer is absent from the customers table is
    dropped.  With no state selected it keeps the orders of the window. *)
Theorem state_orders_are_window_orders_of_state
  (customers : list Customer) (data : Data) (start_date end_date : Z) :
  state_orders customers data None start_date end_date
  = filtered_orders data start_date end_date
  /\ (forall c, c <> "" ->
        subframe (state_orders customers data (Some c) start_date end_date)
                 (filtered_orders data start_date end_date)
        /\ forall o,
             In o (state_orders customers data (Some c) start_date end_date)
             <-> In o (filtered_orders data start_date end_date)
                 /\ exists cu, In cu customers
                               /\ cust_customer_id cu = customer_id o
                               /\ customer_state cu = c).
Proof.
  split; [reflexivity |]. intros c Hc.
  unfold state_orders, filtered_orders, truthy.
  destruct (String.eqb_spec c ""); [contradiction |]. cbn [negb].
  split; [apply subframe_filter_mono, filter_subframe |].
  intros o. rewrite !filter_In.
  rewrite (isin_In String.eqb string_eqb_eq).
  rewrite (unique_In String.eqb string_eqb_eq), in_map_iff.
  split.
  - intros [[Ho [cu [Hid Hcu]]] Hw]. apply filter_In in Hcu.
    destruct Hcu as [Hcu Hst]. simpl in Hst. apply String.eqb_eq in Hst.
    split; [tauto |]. exists cu. tauto.
  - intros [[Ho Hw] [cu [Hcu [Hid Hst]]]]. split; [| exact Hw].
    split; [exact Ho |]. exists cu. split; [exact Hid |].
    apply filter_In. split; [exact Hcu |]. simpl. now apply String.eqb_eq.
Qed.

Lemma state_orders_are_window_orders_of_state_witness :
  "SP" <> ""
  /\ subframe
       (state_orders [mkCustomer "A" "sao paulo" "SP"] single_order_data
          (Some "SP") (day 17532) (day 17532))
       (filtered_orders single_order_data (day 17532) (day 17532)).
Proof.
  assert (H : "SP" <> "") by discriminate.
  split; [exact H |].
  exact (proj1 (proj2 (state_orders_are_window_orders_of_state
                         [mkCustomer "A" "sao paulo" "SP"]
                         single_order_data (day 17532) (day 17532))
                  "SP" H)).
Defined.

(* ================================================================== *)
(** * Properties of the payment summary *)
(* ================================================================== *)

Lemma payment_groups (payments : list Payment) :
  payment_summary payments
  = map (fun g =>
           {| ps_payment_type := fst g;
              total_value := sum (map payment_value (snd g));
              order_count :=
                Z.of_nat (nunique String.eqb (map payment_order_id (snd g)));
              percentage :=
                fmul (truediv (sum (map payment_value (snd g)))
                              (sum (map payment_value payments)))
                     100 |})
        (groupby (fun p => Some (payment_type p)) payments).
Proof.
  unfold payment_summary. rewrite !map_map. cbn [fst snd].
  rewrite (groupby_sum (fun p => Some (payment_type p)) payment_value).
  rewrite filter_all by reflexivity. reflexivity.
Qed.

(** X11.  The payment summary has one row for each payment type that
    occurs among the payments, each type once, and the rows' groups
    together are the payments, each once.  The credit_card row exists
    exactly when the instalment charts are drawn, and it counts the
    orders of the payments those charts use. *)
Theorem payment_summary_partitions_payments (payments : list Payment) :
  NoDup (map ps_payment_type (payment_summary payments))
  /\ (forall t, In t (map ps_payment_type (payment_summary payments))
                <-> exists p, In p payments /\ payment_type p = t)
  /\ Permutation (List.concat (map snd (groupby type_of payments))) payments
  /\ ((exists row, In row (payment_summary payments)
                   /\ ps_payment_type row = "credit_card")
      <-> credit_data payments <> [])
  /\ (forall row, In row (payment_summary payments) ->
        ps_payment_type row = "credit_card" ->
        order_count row
        = Z.of_nat (nunique String.eqb
                      (map payment_order_id (credit_data payments)))).
Proof.
  rewrite payment_groups.
  set (key := fun p : Payment => Some (payment_type p)).
  assert (Htypes : forall t, In t (group_keys key payments)
                             <-> exists p, In p payments /\ payment_type p = t).
  { intros t. rewrite group_keys_In. unfold key. split.
    - intros [p [Hp E]]. exists p. split; [exact Hp | congruence].
    - intros [p [Hp E]]. exists p. split; [exact Hp | congruence]. }
  rewrite !map_map. cbn [ps_payment_type].
  change (map (fun g : string * list Payment => fst g) (groupby key payments))
    with (map fst (groupby key payments)).
  rewrite groupby_keys.
  split; [apply group_keys_NoDup |]. split; [exact Htypes |]. split.
  - rewrite groupby_partition. now rewrite filter_all by reflexivity.
  - split.
    + split.
      * intros [row [Hrow Ht]]. apply in_map_iff in Hrow.
        destruct Hrow as [g [<- Hg]]. cbn [ps_payment_type] in Ht.
        assert (Hk : In (fst g) (group_keys key payments)).
        { rewrite <- groupby_keys. now apply in_map. }
        apply Htypes in Hk. destruct Hk as [p [Hp E]].
        intros Hnil.
        assert (Hin : In p (credit_data payments)).
        { apply filter_In. split; [exact Hp |].
          apply String.eqb_eq. congruence. }
        rewrite Hnil in Hin. contradiction.
      * intros Hne. destruct (credit_data payments) as [| p tl] eqn:E;
          [congruence |].
        assert (Hp : In p (credit_data payments)) by (rewrite E; now left).
        apply filter_In in Hp. destruct Hp as [Hp Ht].
        apply String.eqb_eq in Ht.
        assert (Hk : In "credit_card" (group_keys key payments)).
        { apply Htypes. eauto. }
        rewrite <- groupby_keys in Hk. apply in_map_iff in Hk.
        destruct Hk as [g [Eg Hg]].
        eexists. split; [apply in_map; exact Hg | exact Eg].
    + intros row Hrow Ht. apply in_map_iff in Hrow.
      destruct Hrow as [g [<- Hg]]. cbn [ps_payment_type order_count] in *.
      destruct (groupby_In key payments g Hg) as [-> _].
      rewrite Ht. reflexivity.
Qed.

(** X12.  Every row of the payment summary counts at least one order, so
    the average value per order of the statistics table is always a
    number: that division cannot be by zero. *)
Theorem payment_statistics_average_is_finite (payments : list Payment) :
  Forall (fun row => 1 <= order_count row) (payment_summary payments)
  /\ Forall (fun row => finite (snd row))
            (display_stats (payment_summary payments)).
Proof.
  assert (Hcount : Forall (fun row => 1 <= order_count row)
                          (payment_summary payments)).
  { rewrite payment_groups. apply Forall_map, Forall_forall.
    intros g Hg. cbv beta. cbn [order_count].
    destruct (groupby_In _ payments g Hg) as (_ & Hne & _).
    assert (Hids : map payment_order_id (snd g) <> []).
    { intros E. apply map_eq_nil in E. contradiction. }
    apply (inj_le 1). now apply nunique_pos. }
  split; [exact Hcount |].
  unfold display_stats. apply Forall_map.
  eapply Forall_impl; [| exact Hcount].
  intros row Hrow. cbv beta in Hrow. cbn [snd]. unfold finite, truediv.
  destruct (Z.eqb_spec (order_count row) 0); [lia |]. eauto.
Qed.

Lemma share_is_percentage (k n : Z) :
  0 <= k <= n -> 0 < n ->
  exists q, fmul (truediv k n) 100 = Fin q /\ (0 <= q <= 100)%Q.
Proof.
  intros Hk Hn. unfold truediv.
  destruct (Z.eqb_spec n 0); [lia |]. cbn [fmul]. eexists.
  split; [reflexivity |].
  assert (Hpos : (0 < inject_Z n)%Q) by (rewrite <- (Zlt_Qlt 0); lia).
  assert (Hlo : (0 <= inject_Z k / inject_Z n)%Q).
  { apply Qle_shift_div_l; [exact Hpos |].
    rewrite Qmult_0_l. rewrite <- (Zle_Qle 0). lia. }
  assert (Hhi : (inject_Z k / inject_Z n <= 1)%Q).
  { apply Qle_shift_div_r; [exact Hpos |].
    rewrite Qmult_1_l. rewrite <- Zle_Qle. lia. }
  assert (H100 : (0 <= inject_Z 100)%Q) by (unfold Qle; simpl; lia).
  split.
  - apply Qle_trans with (0 * inject_Z 100)%Q;
      [unfold Qle; simpl; lia | now apply Qmult_le_compat_r].
  - apply Qle_trans with (1 * inject_Z 100)%Q;
      [now apply Qmult_le_compat_r | unfold Qle; simpl; lia].
Qed.

(** X13.  With payment values that are not negative: when some payment
    of the window is positive, every percentage of the payment summary is
    a number between 0 and 100; when every payment is zero, every
    percentage is NaN. *)
Theorem payment_shares_between_0_and_100 (payments : list Payment) :
  Forall (fun p => 0 <= payment_value p) payments ->
  ((exists p, In p payments /\ 0 < payment_value p) ->
   Forall (fun row => exists q, percentage row = Fin q
                                /\ (0 <= q <= 100)%Q)
          (payment_summary payments))
  /\ (Forall (fun p => payment_value p = 0) payments ->
      Forall (fun row => percentage row = NaN) (payment_summary payments)).
Proof.
  intros Hpos. rewrite Forall_forall in Hpos.
  rewrite payment_groups. split.
  - intros [p [Hp Hlt]]. apply Forall_map, Forall_forall.
    intros g Hg. cbn [percentage].
    destruct (groupby_In _ payments g Hg) as (-> & _ & _).
    apply share_is_percentage.
    + split.
      * apply sum_nonneg. intros x Hx. apply filter_In in Hx.
        apply Hpos. tauto.
      * now apply sum_filter_le.
    + pose proof (sum_ge_row payment_value payments p Hpos Hp). lia.
  - intros Hzero. rewrite Forall_forall in Hzero.
    apply Forall_map, Forall_forall. intros g Hg. cbn [percentage].
    destruct (groupby_In _ payments g Hg) as (-> & _ & _).
    rewrite (sum_all_zero payment_value payments Hzero).
    rewrite sum_all_zero; [reflexivity |].
    intros x Hx. apply filter_In in Hx. apply Hzero. tauto.
Qed.

Lemma payment_shares_between_0_and_100_witness :
  Forall (fun p => 0 <= payment_value p) (order_payments single_order_data)
  /\ Forall (fun row => exists q, percentage row = Fin q
                                  /\ (0 <= q <= 100)%Q)
            (payment_summary (order_payments single_order_data)).
Proof.
  assert (H : Forall (fun p => 0 <= payment_value p)
                     (order_payments single_order_data)).
  { repeat constructor. simpl. lia. }
  split; [exact H |].
  apply (proj1 (payment_shares_between_0_and_100
                  (order_payments single_order_data) H)).
  exists (mkPayment "1" "credit_card" 1 10000).
  split; [now left | simpl; lia].
Defined.

(* ================================================================== *)
(** * Properties of the delivery metrics *)
(* ================================================================== *)

Lemma status_of_not_late (d : Z) :
  not_late_status (status_of d) = (d <=? 0)
  /\ exists s, status_of d = Some s /\ In s status_order.
Proof.
  destruct (status_of_thresholds d) as (H1 & H2 & H3 & H4 & H5).
  destruct (Z.leb_spec d 0) as [Hle | Hgt].
  - destruct (Z_le_gt_dec d (-3)) as [Ha | Ha];
      [rewrite (H1 Ha) | destruct (Z_le_gt_dec d (-1)) as [Hb | Hb];
                         [rewrite H2 by lia | rewrite H3 by lia]];
      (split; [reflexivity |]); eexists; (split; [reflexivity |]);
      simpl; tauto.
  - destruct (Z_le_gt_dec d 2) as [Ha | Ha];
      [rewrite H4 by lia | rewrite H5 by lia];
      (split; [reflexivity |]); eexists; (split; [reflexivity |]);
      simpl; tauto.
Qed.

Lemma filter_of_map {A B : Type} (f : A -> B) (p : B -> bool) (l : list A) :
  filter p (map f l) = map f (filter (fun x => p (f x)) l).
Proof.
  induction l as [| x tl IH]; simpl; [reflexivity |].
  rewrite IH. now destruct (p (f x)).
Qed.

(** X14.  In the table of tab 4 no delivery is left without a status, and
    the deliveries counted as on time by "Persentase Tepat Waktu"
    (difference at most 0 days) are exactly the rows whose status is Very
    Early, Early or On Time. *)
Theorem on_time_rows_match_statuses (data : Data)
  (start_date end_date : Z) :
  exists view,
    tab4 data start_date end_date = Ok view
    /\ Forall (fun row => exists s, delivery_status row = Some s
                                    /\ In s status_order)
              (delivery_rows view)
    /\ on_time (delivery_rows view)
       = filter (fun row => not_late_status (delivery_status row))
                (delivery_rows view)
    /\ List.length (on_time (delivery_rows view))
       = List.length (on_time (delivery_data data start_date end_date)).
Proof.
  unfold tab4. destruct (0 <? _)%nat eqn:Elen.
  - rewrite with_delivery_status_rows. cbn [bind].
    eexists. split; [reflexivity |]. cbn [delivery_rows].
    split; [| split].
    + apply Forall_map, Forall_forall. intros row _.
      cbn [delivery_status set_delivery_status].
      exact (proj2 (status_of_not_late (delivery_difference row))).
    + unfold on_time. apply filter_ext_in. intros row Hrow.
      apply in_map_iff in Hrow. destruct Hrow as [r0 [<- _]].
      cbn [delivery_status delivery_difference set_delivery_status].
      symmetry. exact (proj1 (status_of_not_late (delivery_difference r0))).
    + unfold on_time. rewrite filter_of_map, length_map. reflexivity.
  - exists DeliveryWarning. split; [reflexivity |]. cbn [delivery_rows].
    split; [constructor |]. split; [reflexivity |].
    apply Nat.ltb_ge in Elen.
    destruct (delivery_data data start_date end_date);
      [reflexivity | simpl in Elen; lia].
Qed.

(** X15.  On a non-empty delivery frame, the only case in which the tab
    computes it, "Persentase Tepat Waktu" is a number between 0 and 100;
    on an empty frame it would be NaN. *)
Theorem on_time_percentage_is_a_share (rows : list Delivery) :
  rows <> [] ->
  (exists q, on_time_percentage rows = Fin q /\ (0 <= q <= 100)%Q)
  /\ on_time_percentage [] = NaN.
Proof.
  intros Hne. split; [| reflexivity].
  unfold on_time_percentage. apply share_is_percentage.
  - split; [lia |]. apply inj_le. unfold on_time.
    apply filter_length_le.
  - destruct rows; [congruence | simpl; lia].
Qed.

Lemma on_time_percentage_is_a_share_witness :
  delivery_data single_order_data (day 17532) (day 17532) <> []
  /\ exists q,
       on_time_percentage
         (delivery_data single_order_data (day 17532) (day 17532)) = Fin q.
Proof.
  assert (H : delivery_data single_order_data (day 17532) (day 17532) <> [])
    by (vm_compute; discriminate).
  split; [exact H |].
  destruct (proj1 (on_time_percentage_is_a_share _ H)) as [q [E _]].
  exists q. exact E.
Defined.

(** X16.  For every row of the delivery frame, the day difference that
    decides the status is the actual delivery days minus the estimated
    delivery days, or one day less: the two whole-day counts of the
    scatter plot can hide up to a day of the difference. *)
Theorem delivery_difference_near_day_counts (data : Data)
  (start_date end_date : Z) :
  Forall (fun row =>
            exists a b,
              actual_delivery_days (delivery_order row) = Some a
              /\ estimated_delivery_days (delivery_order row) = Some b
              /\ a - b - 1 <= delivery_difference row <= a - b)
         (delivery_data data start_date end_date).
Proof.
  apply Forall_forall. intros row Hrow.
  unfold delivery_data in Hrow. apply in_flat_map in Hrow.
  destruct Hrow as [o [_ Hrow]].
  unfold actual_delivery_days, estimated_delivery_days.
  destruct (order_delivered_customer_date o) as [d |] eqn:Ed;
    [| contradiction].
  destruct (order_estimated_delivery_date o) as [est |] eqn:Ee;
    [| contradiction].
  destruct Hrow as [<- | []]. cbn [delivery_order delivery_difference].
  rewrite Ed, Ee. cbn [option_map]. eexists. eexists.
  split; [reflexivity |]. split; [reflexivity |].
  unfold days, seconds_per_day.
  set (p := order_purchase_timestamp o).
  pose proof (Z.div_mod (d - p) 86400 ltac:(lia)).
  pose proof (Z.mod_pos_bound (d - p) 86400 ltac:(lia)).
  pose proof (Z.div_mod (est - p) 86400 ltac:(lia)).
  pose proof (Z.mod_pos_bound (est - p) 86400 ltac:(lia)).
  pose proof (Z.div_mod (d - est) 86400 ltac:(lia)).
  pose proof (Z.mod_pos_bound (d - est) 86400 ltac:(lia)).
  lia.
Qed.

(* ================================================================== *)
(** * The RFM frame *)
(* ================================================================== *)

(** The two joins on [customer_id] put the three per-customer frames side
    by side: the [rfm] frame has one row per group. *)
Lemma rfm_frame_groups (end_date : Z) (owp : list (Order * Payment)) :
  rfm_frame end_date owp = map (rfm_row_of end_date) (groupby by_customer owp).
Proof.
  unfold rfm_frame, recency_df, frequency_df, monetary_df.
  set (gs := groupby by_customer owp).
  assert (Hnd : NoDup (map fst gs)).
  { unfold gs. rewrite groupby_keys. apply group_keys_NoDup. }
  rewrite (merge_aligned fst _ _ fst fst gs) by (reflexivity || exact Hnd).
  rewrite (merge_aligned fst _ _ (fun l => fst (fst l)) fst gs)
    by (reflexivity || exact Hnd).
  rewrite map_map. apply map_ext. reflexivity.
Qed.

(** The tab never raises, and its table has the customers and metrics of
    the [rfm] frame. *)
Lemma tab2_population (data : Data) (start_date end_date : Z) :
  exists view,
    tab2 data start_date end_date = Ok view
    /\ same_population
         (rfm_frame end_date (orders_with_payments data start_date end_date))
         (rfm_records view).
Proof.
  unfold tab2.
  destruct (orders_with_payments data start_date end_date) as [| x tl] eqn:E.
  - exists RFMWarning. split; [reflexivity |]. repeat split.
  - cbn [List.length Nat.ltb Nat.leb].
    destruct (score_rfm_columns (rfm_frame end_date (x :: tl)))
      as (r & f & m & _ & _ & _ & Lr & Lf & Lm & _ & _ & _ & _ & _ & _ & Es).
    rewrite Es. cbn [bind]. eexists. split; [reflexivity |].
    cbn [rfm_records]. now apply finished_population.
Qed.

Lemma Forall_column {A B : Type} (f : A -> B) (P : B -> Prop)
  (l l' : list A) :
  map f l' = map f l -> Forall (fun x => P (f x)) l ->
  Forall (fun x => P (f x)) l'.
Proof.
  intros E H. apply Forall_map. rewrite E. now apply Forall_map.
Qed.

(** X17.  The RFM table has exactly one row per customer with a delivered
    order in the window that has a payment row, and no other row. *)
Theorem rfm_one_row_per_customer (data : Data) (start_date end_date : Z) :
  exists view,
    tab2 data start_date end_date = Ok view
    /\ NoDup (map rfm_customer_id (rfm_records view))
    /\ forall c,
         In c (map rfm_customer_id (rfm_records view)) <->
         exists o p,
           In o (orders data) /\ In p (order_payments data)
           /\ payment_order_id p = order_id o /\ customer_id o = c
           /\ order_status o = "delivered"
           /\ start_date <= order_purchase_timestamp o <= end_date.
Proof.
  destruct (tab2_population data start_date end_date)
    as [view [Ev [Hc _]]].
  exists view. split; [exact Ev |]. rewrite Hc, rfm_frame_groups, map_map.
  cbn [rfm_row_of rfm_customer_id].
  change (map (fun x : string * list (Order * Payment) => fst x))
    with (map (@fst string (list (Order * Payment)))).
  rewrite groupby_keys. split; [apply group_keys_NoDup |].
  intros c. rewrite group_keys_In. unfold orders_with_payments. split.
  - intros [[o p] [Hin Hk]]. apply merge_In in Hin.
    destruct Hin as [Ho [Hp E]]. unfold filtered_orders_rfm in Ho.
    apply filter_In in Ho. destruct Ho as [Ho Hf].
    apply andb_true_iff in Hf. destruct Hf as [Hw Hs].
    apply in_window_bounds in Hw. apply String.eqb_eq in Hs.
    injection Hk as Hk. cbn [fst] in Hk.
    exists o, p. repeat split; auto; lia.
  - intros (o & p & Ho & Hp & E & Hc' & Hs & Hw).
    exists (o, p). split; [| unfold by_customer; cbn [fst]; now rewrite Hc'].
    apply merge_In. split; [| split; [exact Hp | now symmetry]].
    unfold filtered_orders_rfm. apply filter_In. split; [exact Ho |].
    apply andb_true_iff. split.
    + unfold in_window. apply andb_true_iff. split; apply Z.leb_le; lia.
    + now apply String.eqb_eq.
Qed.

Lemma days_monotone (a b : Z) : a <= b -> days a <= days b.
Proof.
  intros H. unfold days, seconds_per_day. apply Z.div_le_mono; lia.
Qed.

Lemma max_of_In (l : list Z) : l <> [] -> In (max_of l) l.
Proof.
  destruct l as [| x tl]; [congruence |]. intros _. apply maximum_In.
Qed.

Lemma rfm_frame_ranges (data : Data) (start_date end_date : Z) :
  Forall (fun row =>
            0 <= recency row <= days (end_date - start_date)
            /\ 1 <= frequency row
                 <= Z.of_nat
                      (List.length
                         (filtered_orders_rfm data start_date end_date)))
         (rfm_frame end_date
            (orders_with_payments data start_date end_date)).
Proof.
  rewrite rfm_frame_groups. apply Forall_map, Forall_forall.
  intros g Hg. destruct (groupby_In _ _ _ Hg) as [_ [Hne Hrows]].
  cbn [rfm_row_of recency frequency].
  assert (Hin : forall r, In r (snd g) ->
                  In (fst r) (filtered_orders_rfm data start_date end_date)).
  { intros [o p] Hr. apply Hrows in Hr. destruct Hr as [Hr _].
    unfold orders_with_payments in Hr. apply merge_In in Hr. tauto. }
  split.
  - assert (Hm : In (max_of (map (fun r : Order * Payment =>
                                    order_purchase_timestamp (fst r))
                                 (snd g)))
                    (map (fun r : Order * Payment =>
                            order_purchase_timestamp (fst r)) (snd g))).
    { apply max_of_In. intros E. apply map_eq_nil in E. contradiction. }
    apply in_map_iff in Hm. destruct Hm as [r [<- Hr]].
    apply Hin in Hr. unfold filtered_orders_rfm in Hr.
    apply filter_In in Hr. destruct Hr as [_ Hf].
    apply andb_true_iff in Hf. destruct Hf as [Hw _].
    apply in_window_bounds in Hw. split.
    + change 0 with (days 0). apply days_monotone. lia.
    + apply days_monotone. lia.
  - split.
    + apply (inj_le 1). apply nunique_pos.
      intros E. apply map_eq_nil in E. contradiction.
    + apply inj_le. unfold nunique.
      rewrite <- (length_map order_id
                    (filtered_orders_rfm data start_date end_date)).
      apply NoDup_incl_length;
        [apply (unique_NoDup String.eqb string_eqb_eq) |].
      intros k Hk.
      apply (proj1 (unique_In String.eqb string_eqb_eq _ _)) in Hk.
      apply in_map_iff in Hk. destruct Hk as [r [<- Hr]].
      apply in_map. now apply Hin.
Qed.

(** X18.  In the RFM table every recency lies between 0 and the length of
    the window in days, and every frequency between 1 and the number of
    delivered orders in the window. *)
Theorem rfm_metrics_in_range (data : Data) (start_date end_date : Z) :
  exists view,
    tab2 data start_date end_date = Ok view
    /\ Forall (fun row =>
                 0 <= recency row <= days (end_date - start_date)
                 /\ 1 <= frequency row
                      <= Z.of_nat
                           (List.length
                              (filtered_orders_rfm data start_date
                                 end_date)))
              (rfm_records view).
Proof.
  destruct (tab2_population data start_date end_date)
    as [view [Ev (_ & Hr & Hf & _)]].
  exists view. split; [exact Ev |].
  pose proof (rfm_frame_ranges data start_date end_date) as H.
  apply Forall_and.
  - apply (Forall_column recency
             (fun v => 0 <= v <= days (end_date - start_date)) _ _ Hr).
    eapply Forall_impl; [| exact H]. intros row Hrow. exact (proj1 Hrow).
  - apply (Forall_column frequency
             (fun v => 1 <= v <= Z.of_nat
                                   (List.length
                                      (filtered_orders_rfm data start_date
                                         end_date))) _ _ Hf).
    eapply Forall_impl; [| exact H]. intros row Hrow. exact (proj2 Hrow).
Qed.

(** X19.  With order ids that are unique in the orders table, every
    payment row of a delivered order in the window enters the RFM frame
    exactly once, in the group of one customer: the joined rows are those
    payments, the customers' groups together are the joined rows, and
    the frame has one row per group, computed from that group alone. *)
Theorem rfm_counts_each_payment_once (data : Data)
  (start_date end_date : Z) :
  NoDup (map order_id (orders data)) ->
  Permutation
    (map snd (orders_with_payments data start_date end_date))
    (filter (fun p =>
               isin String.eqb (payment_order_id p)
                 (map order_id
                    (filtered_orders_rfm data start_date end_date)))
            (order_payments data))
  /\ Permutation
       (List.concat (map snd (groupby by_customer
                           (orders_with_payments data start_date end_date))))
       (orders_with_payments data start_date end_date)
  /\ rfm_frame end_date (orders_with_payments data start_date end_date)
     = map (rfm_row_of end_date)
         (groupby by_customer
            (orders_with_payments data start_date end_date)).
Proof.
  intros Hnd. split; [| split].
  - unfold orders_with_payments. apply merge_rows_left_unique.
    unfold filtered_orders_rfm. now apply filter_keeps_keys_distinct.
  - rewrite groupby_partition. now rewrite filter_all by reflexivity.
  - apply rfm_frame_groups.
Qed.

Lemma rfm_counts_each_payment_once_witness :
  NoDup (map order_id (orders single_order_data))
  /\ Permutation
       (map snd (orders_with_payments single_order_data (day 17532)
                   (day 17532)))
       (order_payments single_order_data).
Proof.
  assert (H : NoDup (map order_id (orders single_order_data))).
  { repeat constructor. intros []. }
  split; [exact H |].
  exact (proj1 (rfm_counts_each_payment_once single_order_data
                  (day 17532) (day 17532) H)).
Defined.

(* ================================================================== *)
(** * Scores follow the metrics *)
(* ================================================================== *)

Lemma rank_from_nth (all before l : list Z) (i : nat) (k : Z) :
  (forall v, count (fun y => y =? v) before + count (fun y => y =? v) l
             <= count (fun y => y =? v) all) ->
  nth_error (rank_from all before l) i = Some k ->
  exists w c,
    nth_error l i = Some w
    /\ k = 1 + count (fun y => y <? w) all + c
    /\ 0 <= c < count (fun y => y =? w) all.
Proof.
  revert before i. induction l as [| v tl IH]; intros before i Hinv H.
  - destruct i; discriminate.
  - destruct i as [| i]; cbn [rank_from nth_error] in H |- *.
    + injection H as <-. exists v, (count (fun y => y =? v) before).
      split; [reflexivity |]. split; [reflexivity |].
      specialize (Hinv v). rewrite count_cons, Z.eqb_refl in Hinv.
      pose proof (count_nonneg (fun y => y =? v) tl).
      pose proof (count_nonneg (fun y => y =? v) before). lia.
    + apply (IH (v :: before) i); [| exact H].
      intros v'. specialize (Hinv v'). rewrite count_cons in Hinv.
      rewrite count_cons. lia.
Qed.

(** [rank(method='first')] keeps the order of the values: a larger value
    has a larger rank. *)
Lemma rank_first_monotone (l : list Z) (i j : nat) (vi vj ki kj : Z) :
  nth_error l i = Some vi -> nth_error l j = Some vj ->
  nth_error (rank_first l) i = Some ki ->
  nth_error (rank_first l) j = Some kj ->
  vi < vj -> ki < kj.
Proof.
  intros Hi Hj Hki Hkj Hlt. unfold rank_first in Hki, Hkj.
  assert (Hinv : forall v, count (fun y => y =? v) [] + count (fun y => y =? v) l
                           <= count (fun y => y =? v) l).
  { intros v. unfold count at 1. simpl. lia. }
  destruct (rank_from_nth l [] l i ki Hinv Hki) as (w & c & Hw & -> & Hc).
  destruct (rank_from_nth l [] l j kj Hinv Hkj) as (w' & c' & Hw' & -> & Hc').
  rewrite Hi in Hw. rewrite Hj in Hw'.
  injection Hw as <-. injection Hw' as <-.
  pose proof (count_below_larger l vi vj Hlt). lia.
Qed.

Lemma edge_ltb_val_monotone (b : edge) (x y : Z) :
  x <= y -> edge_ltb_val b x = true -> edge_ltb_val b y = true.
Proof.
  intros Hxy. destruct b; simpl; try easy.
  rewrite !Z.ltb_lt. lia.
Qed.

Lemma searchsorted_left_monotone (bins : list edge) (x y : Z) :
  x <= y -> (searchsorted_left bins x <= searchsorted_left bins y)%nat.
Proof.
  intros Hxy. induction bins as [| b tl IH]; simpl; [lia |].
  destruct (edge_ltb_val b x) eqn:Ex; [| lia].
  rewrite (edge_ltb_val_monotone b x y Hxy Ex). lia.
Qed.

(** A larger value falls in the same bin or in a later one. *)
Lemma bin_label_monotone (R : Z -> Z -> Prop) (bins : list edge)
  (labels : list Z) (il : bool) (x y a b : Z) :
  (forall i j la lb, (i <= j)%nat -> nth_error labels i = Some la ->
                     nth_error labels j = Some lb -> R la lb) ->
  x <= y ->
  bin_label bins labels il (Some x) = Some a ->
  bin_label bins labels il (Some y) = Some b ->
  R a b.
Proof.
  intros Hlab Hxy Ha Hb. unfold bin_label in Ha, Hb. cbv zeta in Ha, Hb.
  pose proof (searchsorted_left_monotone bins x y Hxy) as Hss.
  assert (Hcase :
    (if il && first_edge_is bins x then 1%nat else searchsorted_left bins x)
      = 0%nat
    \/ ((if il && first_edge_is bins x then 1
         else searchsorted_left bins x)
        <= (if il && first_edge_is bins y then 1
            else searchsorted_left bins y))%nat).
  { destruct (il && first_edge_is bins x) eqn:Fx,
             (il && first_edge_is bins y) eqn:Fy.
    - right. lia.
    - right. apply andb_true_iff in Fx. destruct Fx as [-> Fx].
      cbn [andb] in Fy.
      destruct bins as [| b0 tl]; [discriminate |]. cbn [first_edge_is] in *.
      apply edge_eqb_eq in Fx. subst b0.
      cbn [searchsorted_left edge_ltb_val].
      cbn [edge_eqb] in Fy. apply Z.eqb_neq in Fy.
      destruct (Z.ltb_spec x y); lia.
    - left. apply andb_true_iff in Fy. destruct Fy as [_ Fy].
      destruct bins as [| b0 tl]; [discriminate |]. cbn [first_edge_is] in *.
      apply edge_eqb_eq in Fy. subst b0.
      cbn [searchsorted_left edge_ltb_val].
      destruct (Z.ltb_spec y x); [lia | reflexivity].
    - right. exact Hss. }
  destruct Hcase as [H0 | Hle].
  - rewrite H0 in Ha. cbn [Nat.eqb] in Ha. rewrite orb_true_r in Ha.
    discriminate.
  - match type of Ha with
    | (if ?c then _ else _) = _ => destruct c; [discriminate |]
    end.
    match type of Hb with
    | (if ?c then _ else _) = _ => destruct c; [discriminate |]
    end.
    eapply Hlab; [| exact Ha | exact Hb]. lia.
Qed.

Lemma bins_to_cuts_shape {L : Type} (x : list (option Z)) (bins : list edge)
  (labels : list L) (il dd : bool) (out : list (option L)) :
  bins_to_cuts x bins labels il dd = Ok out ->
  exists bins', out = map (bin_label bins' labels il) x.
Proof.
  unfold bins_to_cuts.
  destruct ((_ <? _)%nat && negb (_ =? 2)%nat); [destruct dd |];
    cbn [bind]; try discriminate.
  - destruct (negb _); [discriminate |]. intros [= <-]. eauto.
  - destruct (negb _); [discriminate |]. intros [= <-]. eauto.
Qed.

Lemma qcut_shape {L : Type} (x : list Z) (q : Z) (labels : list L)
  (out : list (option L)) :
  qcut x q labels = Ok out ->
  exists bins',
    out = map (bin_label bins' labels true) (map (fun v => Some (q * v)) x).
Proof.
  unfold qcut. destruct x as [| x0 tl]; [discriminate |].
  apply bins_to_cuts_shape.
Qed.

Lemma cut_nbins_shape {L : Type} (x : list Z) (n : Z) (labels : list L)
  (out : list (option L)) :
  cut_nbins x n labels = Ok out ->
  1 <= n
  /\ exists bins',
       out = map (bin_label bins' labels false)
                 (map (fun v => Some (1000 * n * v)) x).
Proof.
  unfold cut_nbins. destruct x as [| x0 tl]; [discriminate |].
  destruct (Z.ltb_spec n 1) as [Hn | Hn]; [discriminate |]. intros Hc.
  split; [lia |]. eapply bins_to_cuts_shape. exact Hc.
Qed.

(** The shape shared by the three score assignments keeps the order of
    the column, in the direction [R] of the labels. *)
Lemma score_column_monotone (R : Z -> Z -> Prop) (col ranked labels : list Z)
  (out : list (option Z)) :
  (forall i j la lb, (i <= j)%nat -> nth_error labels i = Some la ->
                     nth_error labels j = Some lb -> R la lb) ->
  R 3 3 ->
  (if (nunique Z.eqb col <? 5)%nat then Ok (broadcast 3 col)
   else try_except (qcut ranked 5 labels) (cut_nbins col 5 labels))
  = Ok out ->
  forall i j vi vj ki kj a b,
    nth_error col i = Some vi -> nth_error col j = Some vj ->
    nth_error ranked i = Some ki -> nth_error ranked j = Some kj ->
    vi <= vj -> ki <= kj ->
    nth_error out i = Some (Some a) -> nth_error out j = Some (Some b) ->
    R a b.
Proof.
  intros Hlab H3 Hout i j vi vj ki kj a b Hvi Hvj Hki Hkj Hv Hk Ha Hb.
  destruct (nunique Z.eqb col <? 5)%nat.
  - injection Hout as <-. unfold broadcast in Ha, Hb.
    rewrite nth_error_map, Hvi in Ha. rewrite nth_error_map, Hvj in Hb.
    cbn [option_map] in Ha, Hb.
    injection Ha as <-. injection Hb as <-. exact H3.
  - destruct (qcut ranked 5 labels) as [o |] eqn:Eq; cbn [try_except] in Hout.
    + injection Hout as <-. apply qcut_shape in Eq. destruct Eq as [bins ->].
      rewrite !nth_error_map, Hki in Ha. rewrite !nth_error_map, Hkj in Hb.
      cbn [option_map] in Ha, Hb.
      injection Ha as Ha. injection Hb as Hb.
      apply (bin_label_monotone R bins labels true (5 * ki) (5 * kj));
        [exact Hlab | lia | exact Ha | exact Hb].
    + apply cut_nbins_shape in Hout. destruct Hout as [_ [bins ->]].
      rewrite !nth_error_map, Hvi in Ha. rewrite !nth_error_map, Hvj in Hb.
      cbn [option_map] in Ha, Hb.
      injection Ha as Ha. injection Hb as Hb.
      apply (bin_label_monotone R bins labels false
               (1000 * 5 * vi) (1000 * 5 * vj));
        [exact Hlab | lia | exact Ha | exact Hb].
Qed.

Lemma labels_asc_nth (i j : nat) (la lb : Z) :
  (i <= j)%nat -> nth_error [1; 2; 3; 4; 5] i = Some la ->
  nth_error [1; 2; 3; 4; 5] j = Some lb -> la <= lb.
Proof.
  intros Hij Ha Hb.
  assert (Ea : la = Z.of_nat i + 1).
  { do 5 (destruct i as [| i]; [injection Ha as <-; reflexivity |]).
    destruct i; discriminate. }
  assert (Eb : lb = Z.of_nat j + 1).
  { do 5 (destruct j as [| j]; [injection Hb as <-; reflexivity |]).
    destruct j; discriminate. }
  lia.
Qed.

Lemma labels_desc_nth (i j : nat) (la lb : Z) :
  (i <= j)%nat -> nth_error [5; 4; 3; 2; 1] i = Some la ->
  nth_error [5; 4; 3; 2; 1] j = Some lb -> lb <= la.
Proof.
  intros Hij Ha Hb.
  assert (Ea : la = 5 - Z.of_nat i).
  { do 5 (destruct i as [| i]; [injection Ha as <-; reflexivity |]).
    destruct i; discriminate. }
  assert (Eb : lb = 5 - Z.of_nat j).
  { do 5 (destruct j as [| j]; [injection Hb as <-; reflexivity |]).
    destruct j; discriminate. }
  lia.
Qed.

Lemma assign_nth_error {R C : Type} (set : R -> C -> R) (rows : list R)
  (col : list C) (i : nat) :
  nth_error (assign set rows col) i
  = match nth_error rows i, nth_error col i with
    | Some r, Some c => Some (set r c)
    | _, _ => None
    end.
Proof.
  revert col i. induction rows as [| r tl IH]; intros col i.
  - destruct i; reflexivity.
  - destruct col as [| c col].
    + destruct i as [| i]; cbn [assign nth_error]; [reflexivity |].
      now destruct (nth_error tl i).
    + destruct i as [| i]; cbn [assign nth_error]; [reflexivity | apply IH].
Qed.

(** Row [i] of the scored frame is row [i] of the frame with cell [i] of
    each score column. *)
Lemma scored_nth_error (rfm : list RFMRecord) (r f m : list (option Z))
  (i : nat) (row : RFMRecord) :
  nth_error (map finish_row (scored rfm r f m)) i = Some row ->
  exists r0,
    nth_error rfm i = Some r0
    /\ recency row = recency r0 /\ frequency row = frequency r0
    /\ monetary row = monetary r0
    /\ nth_error r i = Some (r_score row)
    /\ nth_error f i = Some (f_score row)
    /\ nth_error m i = Some (m_score row).
Proof.
  unfold scored. rewrite nth_error_map, !assign_nth_error.
  destruct (nth_error rfm i) as [r0 |]; [| discriminate].
  destruct (nth_error r i) as [cr |]; [| discriminate].
  destruct (nth_error f i) as [cf |]; [| discriminate].
  destruct (nth_error m i) as [cm |]; [| discriminate].
  cbn [option_map]. intros [= <-]. exists r0. repeat split.
Qed.

(** Scoring keeps the order of each metric: a more recent customer never
    has the lower recency score, a customer with more orders never the
    lower frequency score, and a customer who paid more never the lower
    monetary score. *)
Lemma score_rfm_monotone (rfm out : list RFMRecord) (a b : RFMRecord) :
  score_rfm rfm = Ok out -> In a out -> In b out ->
  exists ra rb fa fb ma mb,
    r_score a = Some ra /\ r_score b = Some rb
    /\ f_score a = Some fa /\ f_score b = Some fb
    /\ m_score a = Some ma /\ m_score b = Some mb
    /\ (recency a <= recency b -> rb <= ra)
    /\ (frequency a < frequency b -> fa <= fb)
    /\ (monetary a < monetary b -> ma <= mb).
Proof.
  intros Hs Ha Hb.
  destruct (score_rfm_columns rfm)
    as (r & f & m & Er & Ef & Em & Lr & Lf & Lm & Sr & Sf & Sm
        & _ & _ & _ & Es).
  rewrite Es in Hs. injection Hs as <-.
  apply In_nth_error in Ha. destruct Ha as [i Hi].
  apply In_nth_error in Hb. destruct Hb as [j Hj].
  destruct (scored_nth_error _ _ _ _ _ _ Hi)
    as (a0 & Ha0 & Hra & Hfa & Hma & Ria & Fia & Mia).
  destruct (scored_nth_error _ _ _ _ _ _ Hj)
    as (b0 & Hb0 & Hrb & Hfb & Hmb & Rjb & Fjb & Mjb).
  assert (Hcell : forall (col : list (option Z)) k c,
            Forall is_score col -> nth_error col k = Some c ->
            exists s, c = Some s).
  { intros col k c Hall Hk. apply nth_error_In in Hk.
    rewrite Forall_forall in Hall. destruct (Hall c Hk) as [s [-> _]]. eauto. }
  destruct (Hcell _ _ _ Sr Ria) as [ra Era].
  destruct (Hcell _ _ _ Sr Rjb) as [rb Erb].
  destruct (Hcell _ _ _ Sf Fia) as [fa Efa].
  destruct (Hcell _ _ _ Sf Fjb) as [fb Efb].
  destruct (Hcell _ _ _ Sm Mia) as [ma Ema].
  destruct (Hcell _ _ _ Sm Mjb) as [mb Emb].
  exists ra, rb, fa, fb, ma, mb.
  repeat (split; [assumption |]).
  rewrite Era in Ria. rewrite Erb in Rjb. rewrite Efa in Fia.
  rewrite Efb in Fjb. rewrite Ema in Mia. rewrite Emb in Mjb.
  rewrite Hra, Hrb, Hfa, Hfb, Hma, Hmb.
  assert (Hcol : forall (g : RFMRecord -> Z) k row,
            nth_error rfm k = Some row ->
            nth_error (map g rfm) k = Some (g row)).
  { intros g k row H. now rewrite nth_error_map, H. }
  assert (Hrank : forall (col : list Z) k v,
            nth_error col k = Some v ->
            exists q, nth_error (rank_first col) k = Some q).
  { intros col k v H.
    destruct (nth_error (rank_first col) k) as [q |] eqn:E; [eauto |].
    apply nth_error_None in E. rewrite rank_first_length in E.
    assert (nth_error col k <> None) by congruence.
    apply nth_error_Some in H0. lia. }
  split; [| split].
  - intros Hle. unfold r_score_column in Er. cbv zeta in Er.
    apply (score_column_monotone (fun x y => y <= x) _ _ _ _
             labels_desc_nth (Z.le_refl 3) Er i j
             (recency a0) (recency b0) (recency a0) (recency b0) ra rb);
      auto.
  - intros Hlt. unfold f_score_column in Ef. cbv zeta in Ef.
    destruct (Hrank _ _ _ (Hcol frequency _ _ Ha0)) as [ki Hki].
    destruct (Hrank _ _ _ (Hcol frequency _ _ Hb0)) as [kj Hkj].
    apply (score_column_monotone Z.le _ _ _ _
             labels_asc_nth (Z.le_refl 3) Ef i j
             (frequency a0) (frequency b0) ki kj fa fb); auto; try lia.
    apply Z.lt_le_incl.
    apply (rank_first_monotone (map frequency rfm) i j
             (frequency a0) (frequency b0)); auto.
  - intros Hlt. unfold m_score_column in Em. cbv zeta in Em.
    destruct (Hrank _ _ _ (Hcol monetary _ _ Ha0)) as [ki Hki].
    destruct (Hrank _ _ _ (Hcol monetary _ _ Hb0)) as [kj Hkj].
    apply (score_column_monotone Z.le _ _ _ _
             labels_asc_nth (Z.le_refl 3) Em i j
             (monetary a0) (monetary b0) ki kj ma mb); auto; try lia.
    apply Z.lt_le_incl.
    apply (rank_first_monotone (map monetary rfm) i j
             (monetary a0) (monetary b0)); auto.
Qed.

(** X20.  In the RFM table the scores follow the metrics: of two
    customers, the one with the smaller (or equal) recency never has the
    lower recency score, the one with strictly more orders never has the
    lower frequency score, and the one who paid strictly more never has
    the lower monetary score. *)
Theorem higher_metric_never_scores_lower (data : Data)
  (start_date end_date : Z) (view : rfm_view) (a b : RFMRecord) :
  tab2 data start_date end_date = Ok view ->
  In a (rfm_records view) -> In b (rfm_records view) ->
  exists ra rb fa fb ma mb,
    r_score a = Some ra /\ r_score b = Some rb
    /\ f_score a = Some fa /\ f_score b = Some fb
    /\ m_score a = Some ma /\ m_score b = Some mb
    /\ (recency a <= recency b -> rb <= ra)
    /\ (frequency a < frequency b -> fa <= fb)
    /\ (monetary a < monetary b -> ma <= mb).
Proof.
  unfold tab2.
  destruct (0 <? List.length
                   (orders_with_payments data start_date end_date))%nat.
  - destruct (score_rfm
                (rfm_frame end_date
                   (orders_with_payments data start_date end_date)))
      as [out |] eqn:Es; cbn [bind]; [| discriminate].
    intros [= <-]. cbn [rfm_records]. now apply score_rfm_monotone with (1 := Es).
  - intros [= <-] [].
Qed.

Lemma higher_metric_never_scores_lower_witness :
  exists view a b,
    tab2 five_customers_data (day 0) (day 10) = Ok view
    /\ In a (rfm_records view) /\ In b (rfm_records view)
    /\ recency a = 9 /\ recency b = 8
    /\ monetary a = 10000 /\ monetary b = 20000
    /\ exists ra rb ma mb,
         r_score a = Some ra /\ r_score b = Some rb
         /\ m_score a = Some ma /\ m_score b = Some mb
         /\ ra <= rb /\ ma <= mb.
Proof.
  let t := eval vm_compute in
             (rfm_records
                match tab2 five_customers_data (day 0) (day 10) with
                | Ok v => v
                | ValueError => RFMWarning
                end) in
  pose (table := t).
  assert (E : tab2 five_customers_data (day 0) (day 10)
              = Ok (RFMTable table)) by (vm_compute; reflexivity).
  exists (RFMTable table), (nth 0 table (new_rfm_row "" 0 0 0)),
    (nth 1 table (new_rfm_row "" 0 0 0)).
  split; [exact E |].
  assert (Ha : In (nth 0 table (new_rfm_row "" 0 0 0))
                  (rfm_records (RFMTable table))) by (left; reflexivity).
  assert (Hb : In (nth 1 table (new_rfm_row "" 0 0 0))
                  (rfm_records (RFMTable table)))
    by (right; left; reflexivity).
  split; [exact Ha |]. split; [exact Hb |].
  repeat (split; [reflexivity |]).
  destruct (higher_metric_never_scores_lower five_customers_data
              (day 0) (day 10) _ _ _ E Hb Ha)
    as (rb & ra & fb & fa & mb & ma & Erb & Era & _ & _ & Emb & Ema
        & Hr & _ & _).
  destruct (higher_metric_never_scores_lower five_customers_data
              (day 0) (day 10) _ _ _ E Ha Hb)
    as (_ & _ & _ & _ & ma' & mb' & _ & _ & _ & _ & Ema' & Emb'
        & _ & _ & Hm).
  exists ra, rb, ma', mb'.
  repeat (split; [assumption |]).
  split; [apply Hr; vm_compute; discriminate | apply Hm; reflexivity].
Defined.

(** X21.  Every customer of the RFM table has a segment, one of Bronze,
    Silver, Gold and Platinum: no row is left without a label, so the
    segment chart counts every customer once. *)
Theorem every_customer_has_a_segment (data : Data)
  (start_date end_date : Z) :
  exists view,
    tab2 data start_date end_date = Ok view
    /\ Forall (fun row => exists s, segment row = Some s
                                    /\ In s segment_labels)
              (rfm_records view).
Proof.
  unfold tab2.
  destruct (0 <? _)%nat; [| exists RFMWarning; split; [reflexivity |
                                                        constructor]].
  destruct (score_rfm_columns
              (rfm_frame end_date
                 (orders_with_payments data start_date end_date)))
    as (r & f & m & _ & _ & _ & Lr & Lf & Lm & Sr & Sf & Sm & _ & _ & _ & E).
  rewrite E. cbn [bind]. eexists. split; [reflexivity |].
  cbn [rfm_records]. apply Forall_map.
  eapply Forall_impl;
    [| apply (scored_Forall is_score is_score is_score _ r f m); assumption].
  intros row ([a [Ha Ra]] & [b [Hb Rb]] & [c [Hc Rc]]).
  destruct (finish_row_keeps row) as (_ & _ & _ & _ & _ & _ & _ & _ & ->).
  unfold total_of. rewrite Ha, Hb, Hc. cbn [add_cells].
  destruct (segment_of_thresholds (a + b + c)) as (H1 & H2 & H3 & H4).
  unfold segment_labels.
  destruct (Z_le_gt_dec (a + b + c) 4);
    [exists "Bronze"; split; [apply H1; lia | simpl; tauto] |].
  destruct (Z_le_gt_dec (a + b + c) 8);
    [exists "Silver"; split; [apply H2; lia | simpl; tauto] |].
  destruct (Z_le_gt_dec (a + b + c) 12);
    [exists "Gold"; split; [apply H3; lia | simpl; tauto] |].
  exists "Platinum". split; [apply H4; lia | simpl; tauto].
Qed.

(* ================================================================== *)
(** * Loading the products *)
(* ================================================================== *)

Lemma merge_left_unique {L R : Type} (kl : L -> option string)
  (kr : R -> string) (left : list L) (right : list R) :
  NoDup (map kr right) ->
  map fst (merge_left kl kr left right) = left
  /\ Forall (fun row =>
               match snd row with
               | Some r => In r right /\ kl (fst row) = Some (kr r)
               | None => forall r, In r right -> kl (fst row) <> Some (kr r)
               end)
            (merge_left kl kr left right).
Proof.
  intros Hnd. unfold merge_left.
  induction left as [| l tl [IH1 IH2]]; [split; [reflexivity | constructor] |].
  cbn [flat_map].
  assert (Hcase :
    (filter (fun r => opt_eqb (kl l) (kr r)) right = []
     /\ forall r, In r right -> kl l <> Some (kr r))
    \/ exists r, filter (fun r => opt_eqb (kl l) (kr r)) right = [r]
                 /\ In r right /\ kl l = Some (kr r)).
  { destruct (filter (fun r => opt_eqb (kl l) (kr r)) right)
      as [| r rest] eqn:E.
    - left. split; [reflexivity |]. intros r Hr Hk.
      assert (Hin : In r (filter (fun r => opt_eqb (kl l) (kr r)) right)).
      { apply filter_In. split; [exact Hr | now apply opt_eqb_eq]. }
      rewrite E in Hin. contradiction.
    - right. exists r.
      assert (Hin : In r (filter (fun r => opt_eqb (kl l) (kr r)) right))
        by (rewrite E; now left).
      apply filter_In in Hin. destruct Hin as [Hr Hk].
      apply opt_eqb_eq in Hk.
      split; [| split; assumption].
      rewrite <- E, Hk. cbn [opt_eqb].
      now apply filter_unique_key. }
  destruct Hcase as [[-> Hno] | [r [-> [Hr Hk]]]].
  - split; [cbn [map app fst]; now f_equal |].
    constructor; [exact Hno | exact IH2].
  - split; [cbn [map app fst]; now f_equal |].
    constructor; [cbn [snd fst]; auto | exact IH2].
Qed.

(** X22.  With category names that are unique in the translation table,
    loading keeps the products table row for row: every product once,
    with its id and native category, and with the English name of that
    category when the table translates it and a missing one when it does
    not. *)
Theorem load_keeps_the_products (df_order_items : list OrderItem)
  (df_order_payments : list Payment) (df_orders : list Order)
  (df_product_category : list Translation) (df_products : list RawProduct) :
  NoDup (map tr_product_category_name df_product_category) ->
  let data := load_processed_data df_order_items df_order_payments
                df_orders df_product_category df_products in
  map product_id (products data) = map raw_product_id df_products
  /\ map product_category_name (products data)
     = map raw_product_category_name df_products
  /\ Forall (fun p =>
               match product_category_name_english p with
               | Some english =>
                   exists t, In t df_product_category
                             /\ product_category_name p
                                = Some (tr_product_category_name t)
                             /\ tr_product_category_name_english t = english
               | None =>
                   forall t, In t df_product_category ->
                             product_category_name p
                             <> Some (tr_product_category_name t)
               end)
            (products data).
Proof.
  intros Hnd data. unfold data, load_processed_data. cbn [products].
  destruct (merge_left_unique raw_product_category_name
              tr_product_category_name df_products df_product_category Hnd)
    as [Hrows Hall].
  rewrite !map_map. cbn [product_id product_category_name].
  split; [| split].
  - rewrite <- Hrows at 2. now rewrite map_map.
  - rewrite <- Hrows at 2. now rewrite map_map.
  - apply Forall_map. eapply Forall_impl; [| exact Hall].
    intros [raw [t |]]; cbn [fst snd option_map product_category_name
                               product_category_name_english].
    + intros [Ht Hk]. exists t. auto.
    + intros H. exact H.
Qed.

Lemma load_keeps_the_products_witness :
  NoDup (map tr_product_category_name [mkTranslation "consoles_pc" "pc_gamer"])
  /\ map product_id (products untranslated_data) = ["p1"; "p2"].
Proof.
  assert (H : NoDup (map tr_product_category_name
                       [mkTranslation "consoles_pc" "pc_gamer"])).
  { repeat constructor. intros []. }
  split; [exact H |].
  exact (proj1 (load_keeps_the_products
                  [mkOrderItem "o1" "p1" 5000; mkOrderItem "o1" "p2" 7000]
                  [mkPayment "o1" "boleto" 1 12000]
                  [mkOrder "o1" "c1" "delivered" (day 5) (Some (day 9))
                     (Some (day 12))]
                  [mkTranslation "consoles_pc" "pc_gamer"]
                  [mkRawProduct "p1" (Some "pc_gamer");
                   mkRawProduct "p2" (Some "consoles_pc")] H)).
Defined.
